(** * openrouter-proxy: a shallow embedding of the streaming transport core

    The development follows the TypeScript sources, one module per source
    unit:

    - [JsString], [JsMap], [JsObject], [Json] : the JavaScript strings,
      [Map]s, object literals and parsed values the code works on;
    - [CostCalculator]      : utils/costCalculator.ts;
    - [OpenRouterService]   : the stream decoder of class [OpenRouterService];
    - [InferenceController] : the streaming path of class [InferenceController];
    - [ModelRegistry]       : class [ModelRegistryService];
    - [WebSocketController] : class [WebSocketController].

    JavaScript numbers that hold integers (lengths, counters, millisecond
    clocks) are [Z]; prices and averages are exact rationals [Q].  A string is
    a [string] whose characters stand for UTF-16 code units below 256.
    [JSON.parse], [JSON.stringify] and the string conversion of values are
    parameters of the sections that use them.  What an awaited call settles
    to is an argument of the handler that awaits it. *)

From Stdlib Require Import ZArith QArith List String Ascii Bool Lia.
From Stdlib Require Import DecimalString.
Import ListNotations.

Set Implicit Arguments.
Local Open Scope string_scope.
Local Open Scope Z_scope.

(* ------------------------------------------------------------------------- *)
(** ** JavaScript strings *)

Module JsString.

(** [s.length] *)
Definition length (s : string) : Z := Z.of_nat (String.length s).

(** [s.startsWith(p)] *)
Definition startsWith (s p : string) : bool := String.prefix p s.

(** [s.includes(sub)]: [sub] occurs in [s] at some offset. *)
Fixpoint includes (s sub : string) : bool :=
  String.prefix sub s ||
  match s with
  | EmptyString => false
  | String _ s' => includes s' sub
  end.

(** [s.slice(n)] for a non-negative [n] not above the length. *)
Fixpoint slice (n : nat) (s : string) : string :=
  match n, s with
  | O, _ => s
  | S _, EmptyString => EmptyString
  | S n', String _ s' => slice n' s'
  end.

(** [s.split(sep)] for a one-character separator: never the empty list. *)
Fixpoint split (sep : ascii) (s : string) : list string :=
  match s with
  | EmptyString => [EmptyString]
  | String c s' =>
      if Ascii.eqb c sep then EmptyString :: split sep s'
      else match split sep s' with
           | [] => [String c EmptyString]
           | h :: t => String c h :: t
           end
  end.

(** White space and line terminators among the code units below 256. *)
Definition is_space (c : ascii) : bool :=
  let n := nat_of_ascii c in
  ((9 <=? n) && (n <=? 13))%nat || (n =? 32)%nat || (n =? 160)%nat.

Fixpoint trimStart (s : string) : string :=
  match s with
  | EmptyString => EmptyString
  | String c s' => if is_space c then trimStart s' else s
  end.

Fixpoint trimEnd (s : string) : string :=
  match s with
  | EmptyString => EmptyString
  | String c s' =>
      match trimEnd s' with
      | EmptyString => if is_space c then EmptyString else String c EmptyString
      | t => String c t
      end
  end.

(** [s.trim()] *)
Definition trim (s : string) : string := trimEnd (trimStart s).

(** [s.toLowerCase()] on code units below 256. *)
Definition lower (c : ascii) : ascii :=
  let n := nat_of_ascii c in
  if ((65 <=? n) && (n <=? 90))%nat
     || ((192 <=? n) && (n <=? 222) && negb (n =? 215))%nat
  then ascii_of_nat (n + 32) else c.

Fixpoint toLowerCase (s : string) : string :=
  match s with
  | EmptyString => EmptyString
  | String c s' => String (lower c) (toLowerCase s')
  end.

(** The truthiness of a string: only [''] is falsy. *)
Definition truthy (s : string) : bool :=
  match s with EmptyString => false | _ => true end.

(** [n.toString()] for a non-negative integer below 10^21, where
    JavaScript prints plain decimal digits. *)
Definition Number_toString (n : Z) : string :=
  NilEmpty.string_of_uint (N.to_uint (Z.to_N n)).

(** The one-character string ['\n']. *)
Definition newline : string := String "010" EmptyString.

(** [Math.ceil(n / d)] for an integer [n] and a positive integer [d]. *)
Definition Math_ceil_div (n d : Z) : Z := - ((- n) / d).

End JsString.

(* ------------------------------------------------------------------------- *)
(** ** JavaScript [Map]: keyed by strings, iterated in insertion order *)

Module JsMap.

Section WithValue.
Variable V : Type.

Definition t := list (string * V).

Definition empty : t := [].

Definition size (m : t) : Z := Z.of_nat (List.length m).

Fixpoint get (m : t) (k : string) : option V :=
  match m with
  | [] => None
  | (k', v) :: m' => if String.eqb k k' then Some v else get m' k
  end.

(** [m.set(k, v)]: an existing key keeps its place, a new key goes last. *)
Fixpoint set (m : t) (k : string) (v : V) : t :=
  match m with
  | [] => [(k, v)]
  | (k', v') :: m' =>
      if String.eqb k k' then (k', v) :: m' else (k', v') :: set m' k v
  end.

Fixpoint delete (m : t) (k : string) : t :=
  match m with
  | [] => []
  | (k', v') :: m' =>
      if String.eqb k k' then m' else (k', v') :: delete m' k
  end.

Definition keys (m : t) : list string := List.map fst m.
Definition values (m : t) : list V := List.map snd m.
Definition entries (m : t) : list (string * V) := m.

End WithValue.

Arguments empty {V}.

End JsMap.

(* ------------------------------------------------------------------------- *)
(** ** Object literals read with [obj[key]] *)

Module JsObject.

(** A bracket read of an ordinary object that misses the own properties
    continues along the prototype chain: these are the property names
    every object inherits from [Object.prototype].  Each of them reads as
    a function (or, for [__proto__], as the prototype object), hence as
    a truthy value that is neither a record of the table nor iterable. *)
Definition Object_prototype_names : list string :=
  [ "constructor"; "__defineGetter__"; "__defineSetter__"; "hasOwnProperty";
    "__lookupGetter__"; "__lookupSetter__"; "isPrototypeOf";
    "propertyIsEnumerable"; "toString"; "valueOf"; "__proto__";
    "toLocaleString" ].

Definition inherited (k : string) : bool :=
  existsb (String.eqb k) Object_prototype_names.

(** What a read [obj[k]] yields. *)
Inductive PropertyRead (V : Type) :=
| Own (v : V)
| Inherited (name : string)
| Undefined.
Arguments Inherited {V}.
Arguments Undefined {V}.

Definition get {V} (o : list (string * V)) (k : string) : PropertyRead V :=
  match JsMap.get o k with
  | Some v => Own v
  | None => if inherited k then Inherited k else Undefined
  end.

End JsObject.

(* ------------------------------------------------------------------------- *)
(** ** Results of calls that may throw, and of awaited promises *)

Inductive Outcome (A : Type) :=
| Ok (a : A)
| Thrown (message : string).
Arguments Thrown {A}.

(* ------------------------------------------------------------------------- *)
(** ** utils/costCalculator.ts *)

Module CostCalculator.
Import JsString.

Record TokenUsage := mkUsage {
  prompt_tokens : Z;
  completion_tokens : Z;
  total_tokens : Z
}.

Record ModelPricing := mkPricing {
  promptCostPer1K : Q;
  completionCostPer1K : Q
}.

Definition DEFAULT_PRICING : ModelPricing := mkPricing (5 # 10) (15 # 10).

(** The own properties of the [MODEL_PRICING] object literal, in the
    order [Object.entries] lists them. *)
Definition MODEL_PRICING : list (string * ModelPricing) :=
  [ ("gpt-4",           mkPricing 30 60);
    ("gpt-4-turbo",     mkPricing 10 30);
    ("gpt-3.5-turbo",   mkPricing (5 # 10) (15 # 10));
    ("claude-3-opus",   mkPricing 15 75);
    ("claude-3-sonnet", mkPricing 3 15);
    ("claude-3-haiku",  mkPricing (25 # 100) (125 # 100)) ].

(** The value [getModelPricing] hands back: a pricing record, or the
    inherited member the exact-match read found. *)
Inductive PricingValue :=
| Rates (p : ModelPricing)
| NotRates (member : string).

(** A JavaScript number that is either an exact value or [NaN]. *)
Inductive JsNumber :=
| Num (q : Q)
| NaN.

Fixpoint partial_match (baseModel : string) (entries : list (string * ModelPricing))
  : option ModelPricing :=
  match entries with
  | [] => None
  | (modelName, pricing) :: rest =>
      if includes baseModel modelName || includes modelName baseModel
      then Some pricing
      else partial_match baseModel rest
  end.

Definition baseModel_of (model : string) : string :=
  if includes model "/" then nth 1 (split "/" model) EmptyString else model.

Definition getModelPricing (model : string) : PricingValue :=
  let baseModel := baseModel_of model in
  match JsObject.get MODEL_PRICING baseModel with
  | JsObject.Own p => Rates p
  | JsObject.Inherited name => NotRates name
  | JsObject.Undefined =>
      match partial_match baseModel MODEL_PRICING with
      | Some p => Rates p
      | None => Rates DEFAULT_PRICING
      end
  end.

(** [pricing.promptCostPer1K] and [pricing.completionCostPer1K]: reading
    them off an inherited member gives [undefined], and arithmetic on
    [undefined] gives [NaN]. *)
Definition calculateCost (usage : TokenUsage) (model : string) : JsNumber :=
  match getModelPricing model with
  | Rates pricing =>
      let promptCost := (inject_Z (prompt_tokens usage) / 1000) * promptCostPer1K pricing in
      let completionCost :=
        (inject_Z (completion_tokens usage) / 1000) * completionCostPer1K pricing in
      Num (promptCost + completionCost)
  | NotRates _ => NaN
  end%Q.

Definition estimateTokens (text : string) : Z :=
  Math_ceil_div (length text) 4.

Inductive ContentPart :=
| TextPart (text : string)
| ImagePart (url : string).

Inductive Content :=
| CString (s : string)
| CParts (parts : list ContentPart).

Record Message := mkMessage {
  role : string;
  content : Content
}.

Definition part_length (part : ContentPart) : Z :=
  match part with
  | TextPart text => length text
  | ImagePart _ => 0
  end.

Definition content_length (c : Content) : Z :=
  match c with
  | CString s => length s
  | CParts parts => fold_left (fun acc part => acc + part_length part) parts 0
  end.

(** The [totalLength] the loop of [estimatePromptTokens] ends with. *)
Definition totalLength (messages : list Message) : Z :=
  fold_left (fun acc message => acc + content_length (content message)) messages 0.

Definition estimatePromptTokens (messages : list Message) : Z :=
  estimateTokens (Number_toString (totalLength messages)).

End CostCalculator.

(* ------------------------------------------------------------------------- *)
(** ** JavaScript values as [JSON.parse] produces them *)

Module Json.

#[local] Unset Elimination Schemes.
Inductive value :=
| Undefined
| Null
| Bool (b : bool)
| Number (q : Q)
| Str (s : string)
| Arr (items : list value)
| Obj (fields : list (string * value)).
#[local] Set Elimination Schemes.

(** Truthiness, as [if (v)] and [v || w] test it. *)
Definition truthy (v : value) : bool :=
  match v with
  | Undefined | Null => false
  | Bool b => b
  | Number q => negb (Qeq_bool q 0)
  | Str s => JsString.truthy s
  | Arr _ | Obj _ => true
  end.

(** [v.k] for the property names this program reads ([id], [choices],
    [delta], [content], ...), none of which is inherited by objects,
    arrays or primitives: [None] is the [TypeError] a read off [null] or
    [undefined] raises. *)
Definition prop (v : value) (k : string) : option value :=
  match v with
  | Undefined | Null => None
  | Obj fields =>
      match JsMap.get fields k with
      | Some x => Some x
      | None => Some Undefined
      end
  | _ => Some Undefined
  end.

(** [v?.k] *)
Definition opt_prop (v : value) (k : string) : value :=
  match prop v k with
  | Some x => x
  | None => Undefined
  end.

(** [v?.[0]] *)
Definition opt_first (v : value) : value :=
  match v with
  | Arr (x :: _) => x
  | Str (String c _) => Str (String c EmptyString)
  | Obj fields => opt_prop v "0"
  | _ => Undefined
  end.

(** [a || b] *)
Definition or_else (a b : value) : value := if truthy a then a else b.

End Json.

(* ------------------------------------------------------------------------- *)
(** ** services/openrouterService.ts: the stream decoder *)

Module OpenRouterService.
Import JsString.

(** *** The [ReadableStreamDefaultController] seen from the producer

    [enqueue] and [close] throw once the stream was closed or errored;
    [error] is ignored on a stream that is no longer readable. *)
Record Controller := mkController {
  queue : list string;
  closeRequested : bool;
  errored : option string
}.

Definition fresh_controller : Controller := mkController [] false None.

Definition canCloseOrEnqueue (c : Controller) : bool :=
  negb (closeRequested c) && match errored c with None => true | Some _ => false end.

Definition enqueue (c : Controller) (x : string) : option Controller :=
  if canCloseOrEnqueue c
  then Some (mkController (queue c ++ [x])%list (closeRequested c) (errored c))
  else None.

Definition close (c : Controller) : option Controller :=
  if canCloseOrEnqueue c
  then Some (mkController (queue c) true (errored c))
  else None.

Definition error (c : Controller) (e : string) : Controller :=
  match errored c with
  | Some _ => c
  | None =>
      if closeRequested c && match queue c with [] => true | _ => false end
      then c
      else mkController [] (closeRequested c) (Some e)
  end.

(** *** [transformStreamingChunk] *)

Fixpoint mapM {A B} (f : A -> option B) (l : list A) : option (list B) :=
  match l with
  | [] => Some []
  | x :: rest =>
      match f x with
      | None => None
      | Some y =>
          match mapM f rest with
          | None => None
          | Some ys => Some (y :: ys)
          end
      end
  end.

Definition transformChoice (choice : Json.value) : option Json.value :=
  match Json.prop choice "finish_reason" with
  | None => None
  | Some finish_reason =>
      let delta := Json.opt_prop choice "delta" in
      Some (Json.Obj
        [ ("finish_reason", finish_reason);
          ("delta", Json.Obj
             [ ("content", Json.or_else (Json.opt_prop delta "content") Json.Null);
               ("role", Json.opt_prop delta "role");
               ("tool_calls", Json.opt_prop delta "tool_calls") ]) ])
  end.

(** [None] is the [TypeError] of reading a property of [null] or of
    calling [.map] on something that is not an array. *)
Definition transformStreamingChunk (chunk : Json.value) : option Json.value :=
  match Json.prop chunk "id" with
  | None => None
  | Some id =>
      match Json.prop chunk "choices" with
      | Some (Json.Arr items) =>
          match mapM transformChoice items with
          | None => None
          | Some choices =>
              Some (Json.Obj
                [ ("id", id);
                  ("choices", Json.Arr choices);
                  ("model", Json.opt_prop chunk "model");
                  ("created", Json.opt_prop chunk "created");
                  ("object", Json.Str "chat.completion.chunk") ])
          end
      | _ => None
      end
  end.

(** *** The receiver of [this.transformStreamingChunk]

    The data listener is an arrow function written inside the method
    [start(controller) { ... }] of the object literal handed to
    [new ReadableStream(...)].  An arrow function takes [this] from the
    enclosing function, and the stream constructor calls [start] as a
    method of that object literal; so [this] is the underlying-source
    object, whose only property is [start], and not the service.  The
    cast [(this as any)] hides this from the type checker. *)
Inductive Receiver :=
| TheService
| TheUnderlyingSource.

(** [receiver.transformStreamingChunk]: the method, or [None] for
    [undefined], which it is a [TypeError] to call. *)
Definition method_transformStreamingChunk (this : Receiver)
  : option (Json.value -> option Json.value) :=
  match this with
  | TheService => Some transformStreamingChunk
  | TheUnderlyingSource => None
  end.

Section Decoder.
(** [JSON.parse] ([None] when it throws) and [JSON.stringify]. *)
Variable JSON_parse : string -> option Json.value.
Variable JSON_stringify : Json.value -> string.

(** What a listener does: it returns, or an exception escapes it. *)
Inductive Listener (S : Type) :=
| Returned (s : S)
| Threw (s : S).

(** The body of [try { ... } catch { }] for one [data:] line: the
    controller after it, unchanged when anything in it threw. *)
Definition try_enqueue (this : Receiver) (data : string) (c : Controller)
  : Controller :=
  match JSON_parse data with
  | None => c
  | Some parsed =>
      match method_transformStreamingChunk this with
      | None => c
      | Some method =>
          match method parsed with
          | None => c
          | Some transformed =>
              match enqueue c (JSON_stringify transformed ++ newline) with
              | None => c
              | Some c' => c'
              end
          end
      end
  end.

(** [for (const line of lines) { ... }] *)
Fixpoint process_lines (this : Receiver) (lines : list string) (c : Controller)
  : Listener Controller :=
  match lines with
  | [] => Returned c
  | line :: rest =>
      let trimmedLine := trim line in
      if startsWith trimmedLine "data: " then
        let data := slice 6 trimmedLine in
        if String.eqb data "[DONE]" then
          match close c with
          | Some c' => Returned c'
          | None => Threw c
          end
        else process_lines this rest (try_enqueue this data c)
      else process_lines this rest c
  end.

Record Decoder := mkDecoder {
  buffer : string;
  controller : Controller
}.

(** The text of a chunk stands for [decoder.decode(chunk, {stream: true})]. *)
Definition on_data (this : Receiver) (d : Decoder) (chunk : string)
  : Listener Decoder :=
  let lines := split "010" (buffer d ++ chunk) in
  let buffer' := last lines EmptyString in
  match process_lines this (removelast lines) (controller d) with
  | Returned c => Returned (mkDecoder buffer' c)
  | Threw c => Threw (mkDecoder buffer' c)
  end.

Definition on_end (d : Decoder) : Listener Decoder :=
  match close (controller d) with
  | Some c => Returned (mkDecoder (buffer d) c)
  | None => Threw d
  end.

Definition on_error (d : Decoder) (e : string) : Listener Decoder :=
  Returned (mkDecoder (buffer d) (error (controller d) e)).

(** What the upstream body emits. *)
Inductive SourceEvent :=
| Data (chunk : string)
| End
| Error (e : string).

Definition listener (this : Receiver) (d : Decoder) (ev : SourceEvent)
  : Listener Decoder :=
  match ev with
  | Data chunk => on_data this d chunk
  | End => on_end d
  | Error e => on_error d e
  end.

(** The listeners run on the events in order; an exception that escapes
    a listener is uncaught and ends the run. *)
Fixpoint run (this : Receiver) (events : list SourceEvent) (d : Decoder)
  : Listener Decoder :=
  match events with
  | [] => Returned d
  | ev :: rest =>
      match listener this d ev with
      | Returned d' => run this rest d'
      | Threw d' => Threw d'
      end
  end.

Definition decoder_of {S} (r : Listener S) : S :=
  match r with Returned s => s | Threw s => s end.

(** [transformStreamingResponse(stream)]: the state of the returned
    stream once the upstream body has emitted [events]. *)
Definition transformStreamingResponse (events : list SourceEvent)
  : Listener Decoder :=
  run TheUnderlyingSource events (mkDecoder EmptyString fresh_controller).

(** The same decoder when [this] is the service, as the call
    [this.transformStreamingChunk] presumes. *)
Definition transformStreamingResponse_bound (events : list SourceEvent)
  : Listener Decoder :=
  run TheService events (mkDecoder EmptyString fresh_controller).

End Decoder.

(** *** [handleError]: what the response interceptor rejects with *)

(** The parts of the response of a failed call that [handleError] reads:
    the status, [data?.error?.message] and [data?.error?.metadata]. *)
Record UpstreamResponse := mkUpstreamResponse {
  status : Z;
  upstream_message : option string;
  upstream_metadata : option Json.value
}.

(** An error of the HTTP client: its response, if one came; whether the
    request was sent; its message. *)
Record ClientError := mkClientError {
  response : option UpstreamResponse;
  request : bool;
  client_message : string
}.

(** The [Error] the service throws, with the fields [handleError] adds. *)
Record ServiceError := mkServiceError {
  service_message : string;
  service_code : Z;
  service_type : string;
  service_metadata : option Json.value
}.

Definition or_text (o : option string) (d : string) : string :=
  match o with
  | Some s => if truthy s then s else d
  | None => d
  end.

Definition handleError (error : ClientError) : ServiceError :=
  match response error with
  | Some r =>
      mkServiceError (or_text (upstream_message r) "OpenRouter API error")
                     (status r) "openrouter" (upstream_metadata r)
  | None =>
      if request error
      then mkServiceError "OpenRouter API request timeout" 408 "timeout" None
      else mkServiceError (or_text (Some (client_message error)) "Unknown OpenRouter error")
                          500 "internal" None
  end.

(** *** [transformResponse]: the single-shot path *)

(** [hasMessage(choice)] of utils/typeGuards.ts, as a truth value. *)
Definition hasMessage (choice : Json.value) : bool :=
  match choice with
  | Json.Obj fields =>
      match JsMap.get fields "message" with
      | Some m => Json.truthy m
      | None => false
      end
  | _ => false
  end.

Definition zero_usage : Json.value :=
  Json.Obj [ ("prompt_tokens", Json.Number 0);
             ("completion_tokens", Json.Number 0);
             ("total_tokens", Json.Number 0) ].

Definition transformResponseChoice (choice : Json.value) : option Json.value :=
  if hasMessage choice then
    let message := Json.opt_prop choice "message" in
    Some (Json.Obj
      [ ("finish_reason", Json.opt_prop choice "finish_reason");
        ("message", Json.Obj
           [ ("content", Json.or_else (Json.opt_prop message "content") Json.Null);
             ("role", Json.or_else (Json.opt_prop message "role") (Json.Str "assistant"));
             ("tool_calls", Json.opt_prop message "tool_calls") ]) ])
  else
    match Json.prop choice "finish_reason" with
    | None => None
    | Some finish_reason =>
        Some (Json.Obj
          [ ("finish_reason", finish_reason);
            ("message", Json.Obj
               [ ("content", Json.Null);
                 ("role", Json.Str "assistant");
                 ("tool_calls", Json.Undefined) ]) ])
    end.

(** [None] is the [TypeError] of reading a property of [null] or of calling
    [.map] on something that is not an array. *)
Definition transformResponse (response : Json.value) : option Json.value :=
  match Json.prop response "id" with
  | None => None
  | Some id =>
      match Json.prop response "choices" with
      | Some (Json.Arr items) =>
          match mapM transformResponseChoice items with
          | None => None
          | Some choices =>
              Some (Json.Obj
                [ ("id", id);
                  ("choices", Json.Arr choices);
                  ("usage", Json.or_else (Json.opt_prop response "usage") zero_usage);
                  ("model", Json.opt_prop response "model");
                  ("created", Json.opt_prop response "created");
                  ("object", Json.Str "chat.completion") ])
          end
      | _ => None
      end
  end.

End OpenRouterService.

(* ------------------------------------------------------------------------- *)
(** ** controllers/inferenceController.ts: the streaming path *)

Module InferenceController.
Import JsString CostCalculator.

(** The body of a request: [model], [messages], and the generation
    parameters, which this path only passes on. *)
Record InferenceRequest := mkRequest {
  model : string;
  messages : list Message;
  parameters : list (string * Json.value)
}.

(** The stream [createStreamingCompletion] of the service resolves to:
    the chunks [reader.read()] yields, then [done], or a rejection. *)
Record Stream := mkStream {
  chunks : list string;
  failure : option string
}.

(** The parts of the express response this path touches. *)
Record Response := mkResponse {
  statusCode : option Z;
  jsonBody : option Json.value;
  headers : list (string * string);
  written : list string;
  ended : bool
}.

Definition fresh_response : Response := mkResponse None None [] [] false.

Definition validation_error (model : string) : Json.value :=
  Json.Obj [("error", Json.Obj
    [ ("code", Json.Number 400);
      ("message", Json.Str ("Model '" ++ model ++ "' not found or not supported"));
      ("type", Json.Str "validation") ])].

Definition sse_headers : list (string * string) :=
  [ ("Content-Type", "text/event-stream");
    ("Cache-Control", "no-cache");
    ("Connection", "keep-alive");
    ("Access-Control-Allow-Origin", "*");
    ("Access-Control-Allow-Headers", "Cache-Control") ].

(** [`data: ${payload}\n\n`] *)
Definition sse_frame (payload : string) : string :=
  "data: " ++ payload ++ newline ++ newline.

Section Streaming.
Variable JSON_parse : string -> option Json.value.
Variable JSON_stringify : Json.value -> string.
(** The string [content += v] appends for a [v] that is not a string. *)
Variable ToString : Json.value -> string.

(** [data.choices?.[0]?.delta?.content]; [None] when [data] is [null]
    and the read of [data.choices] throws. *)
Definition delta_content (data : Json.value) : option Json.value :=
  match Json.prop data "choices" with
  | None => None
  | Some choices =>
      Some (Json.opt_prop (Json.opt_prop (Json.opt_first choices) "delta") "content")
  end.

(** [content += v] *)
Definition append_content (content : string) (v : Json.value) : string :=
  match v with
  | Json.Str s => content ++ s
  | _ => content ++ ToString v
  end.

(** [if (v) content += v] *)
Definition track_content (content : string) (v : Json.value) : string :=
  if Json.truthy v then append_content content v else content.

(** One turn of [for (const line of lines)]: the accumulated content
    and the frames written so far. *)
Definition drain_line (acc : string * list string) (line : string)
  : string * list string :=
  let (content, out) := acc in
  if String.eqb (trim line) EmptyString then acc
  else
    match JSON_parse line with
    | None => acc
    | Some data =>
        match delta_content data with
        | None => acc
        | Some v =>
            (track_content content v,
             (out ++ [sse_frame line])%list)
        end
    end.

(** One turn of [while (true)], for a chunk that was read. *)
Definition drain_chunk (acc : string * list string) (chunk : string)
  : string * list string :=
  fold_left drain_line (split "010" chunk) acc.

Definition drain (chunks : list string) (acc : string * list string)
  : string * list string :=
  fold_left drain_chunk chunks acc.

(** [Math.ceil(content.length / 4)] *)
Definition completionTokens_of (content : string) : Z :=
  Math_ceil_div (length content) 4.

Definition usageData (requestId : string) (req : InferenceRequest)
           (promptTokens completionTokens : Z) (now : Z) : Json.value :=
  Json.Obj
    [ ("id", Json.Str requestId);
      ("object", Json.Str "chat.completion.chunk");
      ("choices", Json.Arr [Json.Obj
         [ ("finish_reason", Json.Str "stop");
           ("delta", Json.Obj [("content", Json.Str EmptyString)]) ]]);
      ("usage", Json.Obj
         [ ("prompt_tokens", Json.Number (inject_Z promptTokens));
           ("completion_tokens", Json.Number (inject_Z completionTokens));
           ("total_tokens", Json.Number (inject_Z (promptTokens + completionTokens))) ]);
      ("model", Json.Str (model req));
      ("created", Json.Number (inject_Z (now / 1000))) ].

(** The token figures the streaming path computes once the stream is
    drained. *)
Record Estimates := mkEstimates {
  promptTokens : Z;
  completionTokens : Z;
  totalTokens : Z
}.

Definition estimates (req : InferenceRequest) (content : string) : Estimates :=
  let p := estimatePromptTokens (messages req) in
  let c := completionTokens_of content in
  mkEstimates p c (p + c).

(** [createStreamingCompletion]: [modelExists] and [upstream] are what
    the two awaited service calls settle to, [now] the clock when the
    usage frame is built.  The result is the response and the error
    rethrown to the caller, if any. *)
Definition createStreamingCompletion
           (requestId : string) (now : Z) (req : InferenceRequest)
           (modelExists : Outcome bool) (upstream : Outcome Stream)
           (res : Response) : Response * option string :=
  match modelExists with
  | Thrown e => (res, Some e)
  | Ok false =>
      (mkResponse (Some 400) (Some (validation_error (model req)))
                  (headers res) (written res) true, None)
  | Ok true =>
      let res1 := mkResponse (statusCode res) (jsonBody res)
                             (headers res ++ sse_headers)%list (written res) (ended res) in
      match upstream with
      | Thrown e => (res1, Some e)
      | Ok stream =>
          let (content, out) := drain (chunks stream) (EmptyString, written res1) in
          match failure stream with
          | Some e =>
              (mkResponse (statusCode res1) (jsonBody res1) (headers res1) out true,
               Some e)
          | None =>
              let est := estimates req content in
              let frame :=
                sse_frame (JSON_stringify
                  (usageData requestId req (promptTokens est) (completionTokens est) now)) in
              let done := sse_frame "[DONE]" in
              (mkResponse (statusCode res1) (jsonBody res1) (headers res1)
                          (out ++ [frame; done])%list true, None)
          end
      end
  end.

End Streaming.

End InferenceController.

(* ------------------------------------------------------------------------- *)
(** ** services/modelRegistryService.ts *)

Module ModelRegistry.
Import JsString.

Record Pricing := mkPricing {
  prompt : string;
  completion : string
}.

Record Architecture := mkArchitecture {
  modality : string;
  tokenizer : string;
  instruct_type : option string
}.

Record TopProvider := mkTopProvider {
  provider_context_length : Z;
  max_completion_tokens : option Z;
  is_moderated : bool
}.

Record Limits := mkLimits {
  prompt_tokens : option string;
  completion_tokens : option string
}.

(** A catalog entry as upstream sends it ([Model] of types/openrouter.ts);
    [pricing] and [per_request_limits] are optional because the code
    guards their absence. *)
Module Model.
Record t := make {
  id : string;
  name : string;
  description : option string;
  context_length : Z;
  pricing : option Pricing;
  architecture : Architecture;
  top_provider : TopProvider;
  per_request_limits : option Limits
}.
End Model.

(** [ModelInfo] of types/inference.ts. *)
Module ModelInfo.
Record t := make {
  id : string;
  name : string;
  description : option string;
  context_length : Z;
  pricing : Pricing;
  supported_parameters : list string;
  is_moderated : bool;
  max_completion_tokens : option Z
}.
End ModelInfo.

(** *** The service state and the world around it *)

Record Registry := mkRegistry {
  models : JsMap.t Model.t;
  lastUpdated : Z
}.

Definition initial : Registry := mkRegistry JsMap.empty 0.

Definition cacheTimeout : Z := 5 * 60 * 1000.

(** [clock] gives the value of each successive [Date.now()], [upstream]
    what each successive [openrouterService.getModels()] settles to;
    [ticks] and [fetches] count the calls made so far. *)
Record World := mkWorld {
  clock : nat -> Z;
  ticks : nat;
  upstream : nat -> Outcome (list Model.t);
  fetches : nat
}.

(** Computations of the service: they read and write the registry and
    the world, and return or throw. *)
Definition M (A : Type) : Type := Registry -> World -> Outcome A * Registry * World.

Definition ret {A} (a : A) : M A := fun r w => (Ok a, r, w).

Definition throw {A} (e : string) : M A := fun r w => (Thrown e, r, w).

Definition bind {A B} (m : M A) (k : A -> M B) : M B :=
  fun r w =>
    match m r w with
    | (Ok a, r', w') => k a r' w'
    | (Thrown e, r', w') => (Thrown e, r', w')
    end.

Notation "x <- m ;; k" := (bind m (fun x => k))
  (at level 61, m at next level, right associativity).
Notation "m ;;; k" := (bind m (fun _ => k))
  (at level 61, right associativity).

Definition lift {A} (o : Outcome A) : M A := fun r w => (o, r, w).

Definition Date_now : M Z :=
  fun r w => (Ok (clock w (ticks w)), r,
              mkWorld (clock w) (S (ticks w)) (upstream w) (fetches w)).

(** [await this.openrouterService.getModels()] *)
Definition fetch_catalog : M (list Model.t) :=
  fun r w => (upstream w (fetches w), r,
              mkWorld (clock w) (ticks w) (upstream w) (S (fetches w))).

Definition get_models : M (JsMap.t Model.t) := fun r w => (Ok (models r), r, w).

Definition get_lastUpdated : M Z := fun r w => (Ok (lastUpdated r), r, w).

Definition put_models (m : JsMap.t Model.t) : M unit :=
  fun r w => (Ok tt, mkRegistry m (lastUpdated r), w).

Definition put_lastUpdated (t : Z) : M unit :=
  fun r w => (Ok tt, mkRegistry (models r) t, w).

(** *** Derived data *)

Definition baseParameters : list string :=
  [ "temperature"; "max_tokens"; "top_p"; "frequency_penalty";
    "presence_penalty"; "stop"; "stream" ].

Definition providerParameters : list (string * list string) :=
  [ ("openai", [ "logit_bias"; "logprobs"; "top_logprobs"; "response_format";
                 "seed"; "tools"; "tool_choice" ]);
    ("anthropic", [ "top_k"; "repetition_penalty"; "min_p"; "top_a" ]);
    ("google", [ "top_k"; "candidate_count" ]);
    ("cohere", [ "top_k"; "repetition_penalty" ]);
    ("mistral", [ "safe_prompt"; "random_seed" ]);
    ("deepseek", [ "top_k"; "repetition_penalty" ]) ].

Definition getProviderFromModelId (modelId : string) : string :=
  let parts := split "/" modelId in
  let first := nth 0 parts EmptyString in
  if truthy first then first else "unknown".

(** [providerParameters[provider] || []]; the table is an object literal,
    so a provider named like an inherited member reads as that member. *)
Definition getProviderSpecificParameters (provider : string)
  : JsObject.PropertyRead (list string) :=
  match JsObject.get providerParameters provider with
  | JsObject.Undefined => JsObject.Own []
  | r => r
  end.

Definition not_iterable : string := "providerParameters is not iterable".

(** [[...xs, ...providerParameters, ...ys]]: spreading a value that is
    not iterable throws a [TypeError]. *)
Definition spread (xs : list string) (p : JsObject.PropertyRead (list string))
           (ys : list string) : Outcome (list string) :=
  match p with
  | JsObject.Own ps => Ok (xs ++ ps ++ ys)%list
  | _ => Thrown not_iterable
  end.

Definition truthy_opt (s : option string) : bool :=
  match s with Some x => truthy x | None => false end.

Definition getSupportedParametersForModel (model : Model.t) : Outcome (list string) :=
  let provider := getProviderFromModelId (Model.id model) in
  let providerParameters := getProviderSpecificParameters provider in
  let additional1 :=
    if truthy_opt (instruct_type (Model.architecture model))
    then ["system"; "user"; "assistant"] else [] in
  let additional2 :=
    match Model.per_request_limits model with
    | Some l =>
        if truthy_opt (prompt_tokens l) || truthy_opt (completion_tokens l)
        then ["max_tokens"] else []
    | None => []
    end in
  spread baseParameters providerParameters (additional1 ++ additional2)%list.

Definition transformModel (model : Model.t) : Outcome ModelInfo.t :=
  match getSupportedParametersForModel model with
  | Thrown e => Thrown e
  | Ok params =>
      Ok (ModelInfo.make
            (Model.id model) (Model.name model) (Model.description model)
            (Model.context_length model)
            (match Model.pricing model with
             | Some p => p
             | None => mkPricing "0" "0"
             end)
            params
            (is_moderated (Model.top_provider model))
            (max_completion_tokens (Model.top_provider model)))
  end.

(** [list.map(f)] for an [f] that may throw. *)
Fixpoint map_outcome {A B} (f : A -> Outcome B) (l : list A) : Outcome (list B) :=
  match l with
  | [] => Ok []
  | x :: rest =>
      match f x with
      | Thrown e => Thrown e
      | Ok y =>
          match map_outcome f rest with
          | Thrown e => Thrown e
          | Ok ys => Ok (y :: ys)
          end
      end
  end.

(** *** Refresh *)

(** [this.models.clear(); for (const model of models) this.models.set(model.id, model)] *)
Definition install (fetched : list Model.t) : JsMap.t Model.t :=
  fold_left (fun m model => JsMap.set m (Model.id model) model) fetched JsMap.empty.

(** The test of [refreshModelsIfNeeded]. *)
Definition stale (r : Registry) (now : Z) : bool :=
  (JsMap.size (models r) =? 0) || (now - lastUpdated r >? cacheTimeout).

(** The [catch] block logs and rethrows, so a failed fetch leaves the
    function before [clear]. *)
Definition refreshModels : M unit :=
  fetched <- fetch_catalog ;;
  put_models (install fetched) ;;;
  now <- Date_now ;;
  put_lastUpdated now.

Definition refreshModelsIfNeeded : M unit :=
  now <- Date_now ;;
  current <- get_models ;;
  updated <- get_lastUpdated ;;
  if stale (mkRegistry current updated) now then refreshModels else ret tt.

(** *** Reads *)

Definition getModels : M (list ModelInfo.t) :=
  refreshModelsIfNeeded ;;;
  current <- get_models ;;
  lift (map_outcome transformModel (JsMap.values current)).

Definition getModel (modelId : string) : M (option ModelInfo.t) :=
  refreshModelsIfNeeded ;;;
  current <- get_models ;;
  match JsMap.get current modelId with
  | Some model =>
      info <- lift (transformModel model) ;;
      ret (Some info)
  | None => ret None
  end.

Definition validateModel (modelId : string) : M bool :=
  model <- getModel modelId ;;
  ret (match model with Some _ => true | None => false end).

Definition getSupportedParameters (modelId : string) : M (list string) :=
  model <- getModel modelId ;;
  match model with
  | None => ret []
  | Some _ =>
      let provider := getProviderFromModelId modelId in
      lift (spread baseParameters (getProviderSpecificParameters provider) [])
  end.

Definition getModelPricing (modelId : string) : M (option Pricing) :=
  model <- getModel modelId ;;
  ret (match model with
       | Some info => Some (ModelInfo.pricing info)
       | None => None
       end).

Definition getModelContextLength (modelId : string) : M Z :=
  model <- getModel modelId ;;
  ret (match model with
       | Some info => ModelInfo.context_length info
       | None => 0
       end).

Definition isModelModerated (modelId : string) : M bool :=
  model <- getModel modelId ;;
  ret (match model with
       | Some info => ModelInfo.is_moderated info
       | None => false
       end).

(** A stable sort by decreasing context length, as
    [sort((a, b) => b.context_length - a.context_length)] is. *)
Fixpoint insert_desc (x : ModelInfo.t) (sorted : list ModelInfo.t) : list ModelInfo.t :=
  match sorted with
  | [] => [x]
  | y :: rest =>
      if ModelInfo.context_length y >? ModelInfo.context_length x
      then y :: insert_desc x rest
      else x :: sorted
  end.

Definition sort_desc (l : list ModelInfo.t) : list ModelInfo.t :=
  fold_right insert_desc [] l.

(** [l.slice(0, limit)] for an integer [limit]. *)
Definition slice0 {A} (l : list A) (limit : Z) : list A :=
  if limit <? 0
  then firstn (Z.to_nat (Z.of_nat (List.length l) + limit)) l
  else firstn (Z.to_nat limit) l.

Definition getTopModels (limit : Z) : M (list ModelInfo.t) :=
  all <- getModels ;;
  ret (slice0 (sort_desc all) limit).

Definition matches (lowercaseQuery : string) (model : ModelInfo.t) : bool :=
  includes (toLowerCase (ModelInfo.id model)) lowercaseQuery
  || includes (toLowerCase (ModelInfo.name model)) lowercaseQuery
  || match ModelInfo.description model with
     | Some d => truthy d && includes (toLowerCase d) lowercaseQuery
     | None => false
     end.

Definition searchModels (query : string) : M (list ModelInfo.t) :=
  all <- getModels ;;
  ret (filter (matches (toLowerCase query)) all).

Definition getModelsByProvider (provider : string) : M (list ModelInfo.t) :=
  all <- getModels ;;
  ret (filter (fun model => String.eqb (getProviderFromModelId (ModelInfo.id model)) provider)
              all).

(** [clearCache] *)
Definition clearCache : M unit :=
  put_models JsMap.empty ;;;
  put_lastUpdated 0.

(** *** The six catalog reads, as one family *)

Inductive ReadOp :=
| GetModels
| GetModel (modelId : string)
| ValidateModel (modelId : string)
| SearchModels (query : string)
| GetModelsByProvider (provider : string)
| GetTopModels (limit : Z).

Inductive ReadResult :=
| Infos (l : list ModelInfo.t)
| Info (o : option ModelInfo.t)
| Flag (b : bool).

Definition read (op : ReadOp) : M ReadResult :=
  match op with
  | GetModels => l <- getModels ;; ret (Infos l)
  | GetModel modelId => o <- getModel modelId ;; ret (Info o)
  | ValidateModel modelId => b <- validateModel modelId ;; ret (Flag b)
  | SearchModels query => l <- searchModels query ;; ret (Infos l)
  | GetModelsByProvider provider => l <- getModelsByProvider provider ;; ret (Infos l)
  | GetTopModels limit => l <- getTopModels limit ;; ret (Infos l)
  end.

(** What a read answers from a given snapshot, with no refresh. *)
Definition all_infos (snapshot : JsMap.t Model.t) : Outcome (list ModelInfo.t) :=
  map_outcome transformModel (JsMap.values snapshot).

Definition one_info (snapshot : JsMap.t Model.t) (modelId : string)
  : Outcome (option ModelInfo.t) :=
  match JsMap.get snapshot modelId with
  | Some model =>
      match transformModel model with
      | Ok info => Ok (Some info)
      | Thrown e => Thrown e
      end
  | None => Ok None
  end.

Definition outcome_map {A B} (f : A -> B) (o : Outcome A) : Outcome B :=
  match o with
  | Ok a => Ok (f a)
  | Thrown e => Thrown e
  end.

Definition answer (op : ReadOp) (snapshot : JsMap.t Model.t) : Outcome ReadResult :=
  match op with
  | GetModels => outcome_map Infos (all_infos snapshot)
  | GetModel modelId => outcome_map Info (one_info snapshot modelId)
  | ValidateModel modelId =>
      outcome_map (fun o => Flag (match o with Some _ => true | None => false end))
                  (one_info snapshot modelId)
  | SearchModels query =>
      outcome_map (fun l => Infos (filter (matches (toLowerCase query)) l))
                  (all_infos snapshot)
  | GetModelsByProvider provider =>
      outcome_map
        (fun l => Infos (filter (fun model =>
           String.eqb (getProviderFromModelId (ModelInfo.id model)) provider) l))
        (all_infos snapshot)
  | GetTopModels limit =>
      outcome_map (fun l => Infos (slice0 (sort_desc l) limit)) (all_infos snapshot)
  end.

(** *** Readers that overlap in time

    An [async] function runs without interruption from one [await] to the
    next.  A read therefore runs the test of [refreshModelsIfNeeded] and,
    when the catalog is stale, issues the upstream request in one piece;
    the rest of [refreshModels] runs in one piece when that request
    settles.  Between the two, other readers may start. *)
Record Shared := mkShared {
  registry : Registry;
  inFlight : nat;
  issued : nat
}.

Inductive Event :=
| ReaderArrives (now : Z)
| FetchResolves (fetched : list Model.t) (now : Z)
| FetchRejects.

Definition step (s : Shared) (ev : Event) : Shared :=
  match ev with
  | ReaderArrives now =>
      if stale (registry s) now
      then mkShared (registry s) (S (inFlight s)) (S (issued s))
      else s
  | FetchResolves fetched now =>
      match inFlight s with
      | O => s
      | S n => mkShared (mkRegistry (install fetched) now) n (issued s)
      end
  | FetchRejects =>
      match inFlight s with
      | O => s
      | S n => mkShared (registry s) n (issued s)
      end
  end.

Definition steps (s : Shared) (evs : list Event) : Shared := fold_left step evs s.

End ModelRegistry.

(* ------------------------------------------------------------------------- *)
(** ** middleware/errorHandler.ts *)

Module ErrorHandler.
Import JsString.

(** An [Error] as the handler reads it. *)
Record ErrorWithCode := mkErrorWithCode {
  name : string;
  message : string;
  code : option Z;
  type : option string;
  metadata : option Json.value;
  stack : option string
}.

(** The object under [error] in the body of the response. *)
Record ErrorBody := mkBody {
  body_code : Z;
  body_message : string;
  body_type : string;
  retryAfter : option Z;
  body_metadata : option Json.value;
  details : option string;
  body_stack : option string
}.

Definition plain (c : Z) (m t : string) : Z * ErrorBody :=
  (c, mkBody c m t None None None None).

Definition or_message (m d : string) : string := if truthy m then m else d.

Definition has_type (error : ErrorWithCode) (t : string) : bool :=
  match type error with
  | Some t' => String.eqb t' t
  | None => false
  end.

(** [error.code || d] *)
Definition code_or (error : ErrorWithCode) (d : Z) : Z :=
  match code error with
  | Some c => if c =? 0 then d else c
  | None => d
  end.

(** [error.code && error.code >= 400 && error.code < 600] *)
Definition http_code (error : ErrorWithCode) : bool :=
  match code error with
  | Some c => negb (c =? 0) && (c >=? 400) && (c <? 600)
  | None => false
  end.

(** [errorHandler]: the status and the body it answers with;
    [development] is [process.env.NODE_ENV === 'development']. *)
Definition errorHandler (development : bool) (error : ErrorWithCode) : Z * ErrorBody :=
  if has_type error "validation" then
    plain 400 (or_message (message error) "Validation error") "validation"
  else if has_type error "rate_limit" then
    (429, mkBody 429 (or_message (message error) "Rate limit exceeded") "rate_limit"
                 (Some 60) None None None)
  else if has_type error "openrouter" then
    let statusCode := code_or error 502 in
    (statusCode, mkBody statusCode (or_message (message error) "OpenRouter API error")
                        "openrouter" None (metadata error) None None)
  else if has_type error "timeout" then
    plain 408 "Request timeout" "timeout"
  else if http_code error then
    let c := code_or error 0 in
    (c, mkBody c (or_message (message error) "Request failed") "http_error"
               None (metadata error) None None)
  else if String.eqb (name error) "ValidationError" then
    (400, mkBody 400 "Validation error" "validation" None None (Some (message error)) None)
  else if String.eqb (name error) "ForbiddenError" then
    plain 403 "Forbidden" "authorization"
  else if String.eqb (name error) "NotFoundError" then
    plain 404 "Not found" "not_found"
  else if String.eqb (name error) "ConflictError" then
    plain 409 "Conflict" "conflict"
  else if String.eqb (name error) "TooManyRequestsError" then
    plain 429 "Too many requests" "rate_limit"
  else if includes (message error) "OpenRouter" then
    plain 502 "OpenRouter service unavailable" "openrouter"
  else if includes (message error) "timeout" then
    plain 408 "Request timeout" "timeout"
  else if includes (message error) "ECONNREFUSED" || includes (message error) "ENOTFOUND" then
    plain 503 "Service unavailable" "network_error"
  else
    let statusCode := code_or error 500 in
    (statusCode, mkBody statusCode (or_message (message error) "Internal server error")
                        "internal" None None None
                        (if development then stack error else None)).

(** The error of the service as the handler meets it: [new Error(message)]
    with [code], [type] and [metadata] set on it. *)
Definition of_service (e : OpenRouterService.ServiceError) (stack : option string)
  : ErrorWithCode :=
  mkErrorWithCode "Error" (OpenRouterService.service_message e)
                  (Some (OpenRouterService.service_code e))
                  (Some (OpenRouterService.service_type e))
                  (OpenRouterService.service_metadata e) stack.

End ErrorHandler.

(* ------------------------------------------------------------------------- *)
(** ** middleware/rateLimiting.ts: the connection limiter *)

Module RateLimiting.

Record Limit := mkLimit {
  count : Z;
  resetTime : Z
}.

(** The module-level [requestCounts] map. *)
Definition Store := JsMap.t Limit.

Definition windowMs : Z := 60 * 1000.

(** [websocketRateLimiter(connectionId, maxConnections)] at time [now]:
    the verdict and the store after it. *)
Definition websocketRateLimiter (connectionId : string) (maxConnections : Z)
           (now : Z) (requestCounts : Store) : bool * Store :=
  let key := "ws:" ++ connectionId in
  match JsMap.get requestCounts key with
  | None => (true, JsMap.set requestCounts key (mkLimit 1 (now + windowMs)))
  | Some wsLimit =>
      if now >? resetTime wsLimit
      then (true, JsMap.set requestCounts key (mkLimit 1 (now + windowMs)))
      else if count wsLimit >=? maxConnections
      then (false, requestCounts)
      else (true, JsMap.set requestCounts key
                            (mkLimit (count wsLimit + 1) (resetTime wsLimit)))
  end.

(** [cleanupRateLimits] at time [now]: the store after it and the number of
    entries it deleted. *)
Definition cleanupRateLimits (now : Z) (requestCounts : Store) : Store * Z :=
  let kept := filter (fun e => negb (now >? resetTime (snd e))) requestCounts in
  (kept, Z.of_nat (List.length requestCounts) - Z.of_nat (List.length kept)).

End RateLimiting.

(* ------------------------------------------------------------------------- *)
(** ** routes/models.ts *)

Module ModelsRoutes.
Import JsString ModelRegistry.

(** [l.slice(start, end)] for integers. *)
Definition clamp (len i : Z) : Z :=
  if i <? 0 then Z.max (len + i) 0 else Z.min i len.

Definition js_slice {A} (l : list A) (start stop : Z) : list A :=
  let len := Z.of_nat (List.length l) in
  let s := clamp len start in
  let e := clamp len stop in
  firstn (Z.to_nat (e - s)) (skipn (Z.to_nat s) l).

Record Pagination := mkPagination {
  total : Z;
  limit : Z;
  offset : Z;
  hasMore : bool
}.

Definition by_prefix (provider : string) (model : ModelInfo.t) : bool :=
  startsWith (toLowerCase (ModelInfo.id model)) (toLowerCase provider).

Definition by_search (searchTerm : string) (model : ModelInfo.t) : bool :=
  includes (toLowerCase (ModelInfo.name model)) searchTerm
  || match ModelInfo.description model with
     | Some d => truthy d && includes (toLowerCase d) searchTerm
     | None => false
     end
  || includes (toLowerCase (ModelInfo.id model)) searchTerm.

(** [if (provider) models = models.filter(...)] *)
Definition filter_provider (provider : option string) (models : list ModelInfo.t)
  : list ModelInfo.t :=
  match provider with
  | Some p => if truthy p then filter (by_prefix p) models else models
  | None => models
  end.

Definition filter_search (search : option string) (models : list ModelInfo.t)
  : list ModelInfo.t :=
  match search with
  | Some q => if truthy q then filter (by_search (toLowerCase q)) models else models
  | None => models
  end.

(** The body of [GET /]: the page and the pagination record. *)
Definition listPage (provider search : option string) (limit offset : Z)
           (all : list ModelInfo.t) : list ModelInfo.t * Pagination :=
  let models := filter_search search (filter_provider provider all) in
  let total := Z.of_nat (List.length models) in
  (js_slice models offset (offset + limit),
   mkPagination total limit offset (offset + limit <? total)).

Definition listModels (provider search : option string) (limit offset : Z)
  : M (list ModelInfo.t * Pagination) :=
  all <- getModels ;;
  ret (listPage provider search limit offset all).

(** [GET /providers]: the first segments of the identifiers, each once, in
    the order [sort()] gives strings. *)
Fixpoint add_provider (providers : list string) (p : string) : list string :=
  match providers with
  | [] => [p]
  | q :: rest => if String.eqb p q then providers else q :: add_provider rest p
  end.

Definition first_segment (id : string) : string := nth 0 (split "/" id) EmptyString.

Definition collect (models : list ModelInfo.t) : list string :=
  fold_left (fun providers model =>
               let provider := first_segment (ModelInfo.id model) in
               if truthy provider then add_provider providers provider else providers)
            models [].

Fixpoint insert_sorted (p : string) (sorted : list string) : list string :=
  match sorted with
  | [] => [p]
  | q :: rest => if String.leb p q then p :: sorted else q :: insert_sorted p rest
  end.

Definition sort_strings (l : list string) : list string := fold_right insert_sorted [] l.

Definition providerList (models : list ModelInfo.t) : list string :=
  sort_strings (collect models).

(** *** The order of the routes

    The router tries the routes in the order of their registration and
    hands the request to the first whose path matches; none of the handlers
    passes the request on.  A parameter matches any one segment that is
    not empty, a literal matches its text without regard to case. *)
Inductive Segment :=
| Lit (text : string)
| Param (name : string).

Inductive Route :=
| ListAll
| Details
| Parameters
| PricingOf
| Top
| Search
| Providers
| ByProvider.

Definition routes : list (list Segment * Route) :=
  [ ([], ListAll);
    ([Param "id"], Details);
    ([Param "id"; Lit "parameters"], Parameters);
    ([Param "id"; Lit "pricing"], PricingOf);
    ([Lit "top"], Top);
    ([Lit "search"], Search);
    ([Lit "providers"], Providers);
    ([Lit "providers"; Param "provider"], ByProvider) ].

Definition segment_matches (pattern : Segment) (segment : string) : bool :=
  match pattern with
  | Lit text => String.eqb (toLowerCase segment) (toLowerCase text)
  | Param _ => truthy segment
  end.

Fixpoint path_matches (pattern : list Segment) (path : list string) : bool :=
  match pattern, path with
  | [], [] => true
  | p :: pattern', s :: path' => segment_matches p s && path_matches pattern' path'
  | _, _ => false
  end.

Fixpoint first_match (table : list (list Segment * Route)) (path : list string)
  : option Route :=
  match table with
  | [] => None
  | (pattern, route) :: rest =>
      if path_matches pattern path then Some route else first_match rest path
  end.

(** The route a [GET] of the path with these segments is handed to. *)
Definition dispatch (path : list string) : option Route := first_match routes path.

End ModelsRoutes.

(* ------------------------------------------------------------------------- *)
(** ** The WebSocket controller *)

Module WebSocketController.
Import JsString CostCalculator.

Record WebSocketConnection := mkConnection {
  id : string;
  connectedAt : Z;
  lastActivity : Z;
  isActive : bool;
  currentRequestId : option string;
  ip : string;
  userAgent : string
}.

Record WebSocketStats := mkStats {
  totalConnections : Z;
  activeConnections : Z;
  totalMessages : Z;
  totalErrors : Z;
  averageConnectionDuration : Q;
  peakConnections : Z
}.

(** The controller: the connection map, the statistics, and the pending
    [setTimeout] callbacks, each a due time and the identifier whose record
    it deletes. *)
Record Controller := mkCtl {
  connections : JsMap.t WebSocketConnection;
  stats : WebSocketStats;
  timers : list (Z * string)
}.

Definition initial : Controller :=
  mkCtl JsMap.empty (mkStats 0 0 0 0 0 0) [].

(** *** Messages *)

(** The [data] of an inference request. *)
Record RequestData := mkData {
  model : string;
  messages : list Message;
  parameters : list (string * Json.value)
}.

(** The values the schema allows for [type]. *)
Inductive MessageType :=
| T_inference_request
| T_inference_response
| T_error
| T_heartbeat
| T_close.

Definition type_name (t : MessageType) : string :=
  match t with
  | T_inference_request => "inference_request"
  | T_inference_response => "inference_response"
  | T_error => "error"
  | T_heartbeat => "heartbeat"
  | T_close => "close"
  end.

(** A message that passed [validateWebSocketMessage]: the schema demands
    [type] and [id] and leaves the rest optional. *)
Record Inbound := mkInbound {
  type : MessageType;
  msg_id : string;
  data : option RequestData;
  reason : option string
}.

(** The argument of [sendError]. *)
Record ErrorInfo := mkError {
  code : option Z;
  message : option string;
  error_type : option string;
  details : option Json.value
}.

(** What the server writes to a socket. *)
Inductive Outbound :=
| Heartbeat (timestamp : Z)
| ErrorMessage (id : string) (code : Z) (message : string) (type : string)
               (details : option Json.value)
| InferenceResponse (id : string)
                    (content finish_reason usage model created : Json.value).

(** A socket: whether [readyState] is [OPEN], what was sent, and the
    [close] calls made on it. *)
Record Socket := mkSocket {
  isOpen : bool;
  sent : list Outbound;
  closes : list (Z * string)
}.

Definition open_socket : Socket := mkSocket true [] [].

Definition sendMessage (ws : Socket) (m : Outbound) : Socket :=
  if isOpen ws then mkSocket true (sent ws ++ [m])%list (closes ws) else ws.

Definition ws_close (ws : Socket) (code : Z) (reason : string) : Socket :=
  mkSocket false (sent ws) (closes ws ++ [(code, reason)])%list.

Definition or_number (o : option Z) (d : Z) : Z :=
  match o with
  | Some n => if n =? 0 then d else n
  | None => d
  end.

Definition or_string (o : option string) (d : string) : string :=
  match o with
  | Some s => if truthy s then s else d
  | None => d
  end.

Definition sendError (ws : Socket) (connectionId : string) (e : ErrorInfo) : Socket :=
  sendMessage ws
    (ErrorMessage connectionId
                  (or_number (code e) 500)
                  (or_string (message e) "Unknown error")
                  (or_string (error_type e) "internal")
                  (details e)).

(** *** State updates *)

(** An assignment to a field of the connection object a handler holds:
    it shows in the map as long as the record is still there. *)
Definition modify (f : WebSocketConnection -> WebSocketConnection)
           (connectionId : string) (ctl : Controller) : Controller :=
  match JsMap.get (connections ctl) connectionId with
  | Some c => mkCtl (JsMap.set (connections ctl) connectionId (f c)) (stats ctl) (timers ctl)
  | None => ctl
  end.

Definition set_lastActivity (t : Z) (c : WebSocketConnection) :=
  mkConnection (id c) (connectedAt c) t (isActive c) (currentRequestId c) (ip c) (userAgent c).

Definition set_isActive (b : bool) (c : WebSocketConnection) :=
  mkConnection (id c) (connectedAt c) (lastActivity c) b (currentRequestId c) (ip c)
               (userAgent c).

Definition set_currentRequestId (r : option string) (c : WebSocketConnection) :=
  mkConnection (id c) (connectedAt c) (lastActivity c) (isActive c) r (ip c) (userAgent c).

Definition with_stats (f : WebSocketStats -> WebSocketStats) (ctl : Controller) :=
  mkCtl (connections ctl) (f (stats ctl)) (timers ctl).

Definition count_error (s : WebSocketStats) :=
  mkStats (totalConnections s) (activeConnections s) (totalMessages s)
          (totalErrors s + 1) (averageConnectionDuration s) (peakConnections s).

Definition count_message (s : WebSocketStats) :=
  mkStats (totalConnections s) (activeConnections s) (totalMessages s + 1)
          (totalErrors s) (averageConnectionDuration s) (peakConnections s).

Definition drop_active (s : WebSocketStats) :=
  mkStats (totalConnections s) (activeConnections s - 1) (totalMessages s)
          (totalErrors s) (averageConnectionDuration s) (peakConnections s).

(** *** Connecting and disconnecting *)

(** [handleConnection]: [admitted] is the verdict of the rate limiter,
    [connectionId] the fresh uuid. *)
Definition handleConnection (connectionId ip userAgent : string) (admitted : bool)
           (now : Z) (ctl : Controller) (ws : Socket) : Controller * Socket :=
  if negb admitted then (ctl, ws_close ws 1008 "Rate limit exceeded")
  else
    let connection := mkConnection connectionId now now true None ip userAgent in
    let s := stats ctl in
    let active := activeConnections s + 1 in
    let s' := mkStats (totalConnections s + 1) active (totalMessages s) (totalErrors s)
                      (averageConnectionDuration s) (Z.max (peakConnections s) active) in
    (mkCtl (JsMap.set (connections ctl) connectionId connection) s' (timers ctl),
     sendMessage ws (Heartbeat now)).

Definition handleDisconnection (connectionId : string) (now : Z) (ctl : Controller)
  : Controller :=
  match JsMap.get (connections ctl) connectionId with
  | None => ctl
  | Some connection =>
      let s := stats ctl in
      let duration := now - connectedAt connection in
      let average :=
        ((averageConnectionDuration s * inject_Z (totalConnections s - 1)
          + inject_Z duration) / inject_Z (totalConnections s))%Q in
      let s' := mkStats (totalConnections s) (activeConnections s - 1) (totalMessages s)
                        (totalErrors s) average (peakConnections s) in
      mkCtl (JsMap.set (connections ctl) connectionId (set_isActive false connection))
            s' (timers ctl ++ [(now + 30000, connectionId)])%list
  end.

(** The timers that are due at [now] run: each deletes its record. *)
Definition run_timers (now : Z) (ctl : Controller) : Controller :=
  let due := filter (fun t => fst t <=? now) (timers ctl) in
  let pending := filter (fun t => negb (fst t <=? now)) (timers ctl) in
  mkCtl (fold_left (fun m t => JsMap.delete m (snd t)) due (connections ctl))
        (stats ctl) pending.

(** *** The heartbeat sweep *)

Definition timeout : Z := 60000.

(** One turn of [for (const [connectionId, connection] of this.connections.entries())];
    [clients] is the number of sockets of the server that are [OPEN], each
    of which gets a ping. *)
Definition sweep_entry (now : Z) (clients : nat) (acc : Controller * nat)
           (entry : string * WebSocketConnection) : Controller * nat :=
  let (ctl, pings) := acc in
  let (connectionId, connection) := entry in
  if now - lastActivity connection >? timeout then
    (with_stats drop_active (modify (set_isActive false) connectionId ctl), pings)
  else if isActive connection then (ctl, (pings + clients)%nat)
  else (ctl, pings).

(** The callback [startHeartbeat] installs, run once: the controller
    after it and the number of pings it sent. *)
Definition startHeartbeat_tick (now : Z) (clients : nat) (ctl : Controller)
  : Controller * nat :=
  fold_left (sweep_entry now clients) (JsMap.entries (connections ctl)) (ctl, O).

(** *** Inbound messages *)

(** What [JSON.parse] and [validateWebSocketMessage] make of a frame. *)
Inductive Frame :=
| NotJson
| Rejected (e : ErrorInfo)
| Accepted (m : Inbound).

(** What a handler works on: the controller, the socket of the
    connection, the requests handed to [createStreamingCompletion] of the
    service, and the number of [reader.cancel()] calls. *)
Record Run := mkRun {
  ctl : Controller;
  ws : Socket;
  upstreamCalls : list RequestData;
  cancels : nat
}.

(** An [async] handler either ran to its end or stopped at an [await]. *)
Inductive Step :=
| Done (r : Run)
| Await (r : Run).

Definition with_ctl (f : Controller -> Controller) (r : Run) : Run :=
  mkRun (f (ctl r)) (ws r) (upstreamCalls r) (cancels r).

Definition with_ws (f : Socket -> Socket) (r : Run) : Run :=
  mkRun (ctl r) (f (ws r)) (upstreamCalls r) (cancels r).

Definition no_data : string := "Cannot read properties of undefined (reading 'model')".

Section Messages.
Variable JSON_parse : string -> option Json.value.
Variable ToString : Json.value -> string.

(** The [catch] block of [handleInferenceRequest]. *)
Definition on_failure (connectionId e : string) (r : Run) : Run :=
  let r1 := with_ctl (with_stats count_error) r in
  let r2 := with_ctl (modify (set_currentRequestId None) connectionId) r1 in
  with_ws (fun ws =>
    sendError ws connectionId
      (mkError (Some 500) (Some (or_string (Some e) "Internal server error"))
               (Some "internal") None)) r2.

Definition model_not_found (model : string) : ErrorInfo :=
  mkError (Some 400)
          (Some ("Model '" ++ model ++ "' not found or not supported"))
          (Some "validation") None.

(** From the entry of [handleInferenceRequest] to
    [await this.modelRegistryService.validateModel(...)]. *)
Definition handleInferenceRequest_begin (connectionId : string) (m : Inbound) (r : Run)
  : Step :=
  match JsMap.get (connections (ctl r)) connectionId with
  | None => Done r
  | Some _ =>
      match data m with
      | None => Done (on_failure connectionId no_data r)
      | Some _ => Await r
      end
  end.

(** From the result of [validateModel] to
    [await this.openrouterService.createStreamingCompletion(message.data)]. *)
Definition handleInferenceRequest_validated (connectionId : string) (m : Inbound)
           (modelExists : Outcome bool) (r : Run) : Step :=
  match data m with
  | None => Done r
  | Some d =>
      match modelExists with
      | Thrown e => Done (on_failure connectionId e r)
      | Ok false =>
          Done (with_ws (fun ws => sendError ws connectionId (model_not_found (model d))) r)
      | Ok true =>
          let r1 := with_ctl (modify (set_currentRequestId (Some (msg_id m))) connectionId) r in
          Await (mkRun (ctl r1) (ws r1) (upstreamCalls r1 ++ [d])%list (cancels r1))
      end
  end.

(** One turn of [for (const line of lines)]. *)
Definition forward_line (requestId : string) (acc : string * Socket) (line : string)
  : string * Socket :=
  let (content, ws) := acc in
  if String.eqb (trim line) EmptyString then acc
  else
    match JSON_parse line with
    | None => acc
    | Some parsed =>
        match InferenceController.delta_content parsed with
        | None => acc
        | Some v =>
            let choice := Json.opt_first (Json.opt_prop parsed "choices") in
            (InferenceController.track_content ToString content v,
             sendMessage ws
               (InferenceResponse requestId v
                  (Json.opt_prop choice "finish_reason")
                  (Json.opt_prop parsed "usage")
                  (Json.opt_prop parsed "model")
                  (Json.opt_prop parsed "created")))
        end
    end.

Definition forward_chunk (requestId : string) (acc : string * Socket) (chunk : string)
  : string * Socket :=
  fold_left (forward_line requestId) (split "010" chunk) acc.

Definition forward (requestId : string) (chunks : list string) (acc : string * Socket)
  : string * Socket :=
  fold_left (forward_chunk requestId) chunks acc.

(** The figures computed after the loop (they stay local). *)
Definition estimates (d : RequestData) (content : string)
  : InferenceController.Estimates :=
  let p := estimatePromptTokens (messages d) in
  let c := Math_ceil_div (length content) 4 in
  InferenceController.mkEstimates p c (p + c).

(** The [finally] block. *)
Definition finally (connectionId : string) (r : Run) : Run :=
  let r1 := mkRun (ctl r) (ws r) (upstreamCalls r) (S (cancels r)) in
  with_ctl (modify (set_currentRequestId None) connectionId) r1.

(** From the result of [createStreamingCompletion] to the end. *)
Definition handleInferenceRequest_streamed (connectionId : string) (m : Inbound)
           (upstream : Outcome InferenceController.Stream) (r : Run) : Run :=
  match upstream with
  | Thrown e => on_failure connectionId e r
  | Ok stream =>
      let (content, ws') :=
        forward (msg_id m) (InferenceController.chunks stream) (EmptyString, ws r) in
      let r1 := finally connectionId (with_ws (fun _ => ws') r) in
      match InferenceController.failure stream with
      | None => r1
      | Some e => on_failure connectionId e r1
      end
  end.

(** [handleInferenceRequest] when nothing else runs while it waits:
    [modelExists] and [upstream] are what its two awaited calls settle
    to. *)
Definition handleInferenceRequest (connectionId : string) (m : Inbound)
           (modelExists : Outcome bool)
           (upstream : Outcome InferenceController.Stream) (r : Run) : Run :=
  match handleInferenceRequest_begin connectionId m r with
  | Done r1 => r1
  | Await r1 =>
      match handleInferenceRequest_validated connectionId m modelExists r1 with
      | Done r2 => r2
      | Await r2 => handleInferenceRequest_streamed connectionId m upstream r2
      end
  end.

Definition handleHeartbeat (now : Z) (r : Run) : Run :=
  with_ws (fun ws => sendMessage ws (Heartbeat now)) r.

Definition handleClose (reason : string) (r : Run) : Run :=
  with_ws (fun ws => ws_close ws 1000 reason) r.

Definition processMessage (connectionId : string) (m : Inbound) (now : Z)
           (modelExists : Outcome bool)
           (upstream : Outcome InferenceController.Stream) (r : Run) : Run :=
  match JsMap.get (connections (ctl r)) connectionId with
  | None => r
  | Some _ =>
      match type m with
      | T_inference_request =>
          handleInferenceRequest connectionId m modelExists upstream r
      | T_heartbeat => handleHeartbeat now r
      | T_close => handleClose (or_string (reason m) "Client requested close") r
      | t =>
          with_ws (fun ws =>
            sendError ws connectionId
              (mkError (Some 400) (Some ("Unknown message type: " ++ type_name t))
                       (Some "validation") None)) r
      end
  end.

Definition invalid_json : ErrorInfo :=
  mkError (Some 400) (Some "Invalid JSON message") (Some "validation") None.

Definition handleMessage (connectionId : string) (frame : Frame) (now : Z)
           (modelExists : Outcome bool)
           (upstream : Outcome InferenceController.Stream) (r : Run) : Run :=
  match JsMap.get (connections (ctl r)) connectionId with
  | None => r
  | Some _ =>
      let r1 := with_ctl (modify (set_lastActivity now) connectionId) r in
      let r2 := with_ctl (with_stats count_message) r1 in
      match frame with
      | NotJson =>
          with_ws (fun ws => sendError ws connectionId invalid_json)
                  (with_ctl (with_stats count_error) r2)
      | Rejected e => with_ws (fun ws => sendError ws connectionId e) r2
      | Accepted m => processMessage connectionId m now modelExists upstream r2
      end
  end.

End Messages.

(** *** Closing connections from the server side *)

(** [closeConnection]: no statement of the program gives a socket a
    [connectionId] property, so the search
    [clients.find(client => client.connectionId === connectionId)] finds
    nothing and no socket is closed; the record is deleted and the active
    count lowered. *)
Definition closeConnection (connectionId : string) (c : Controller) : bool * Controller :=
  match JsMap.get (connections c) connectionId with
  | None => (false, c)
  | Some _ =>
      (true, mkCtl (JsMap.delete (connections c) connectionId)
                   (drop_active (stats c)) (timers c))
  end.

(** [closeAllConnections]: a deletion during the iteration of a [Map]
    removes the entry just visited, so every entry is visited. *)
Definition closeAllConnections (c : Controller) : Controller :=
  fold_left (fun acc connectionId => snd (closeConnection connectionId acc))
            (JsMap.keys (connections c)) c.

(** The [pong] listener. *)
Definition handlePong (connectionId : string) (now : Z) (c : Controller) : Controller :=
  modify (set_lastActivity now) connectionId c.

(** [handleConnection] with the verdict taken from the limiter, which is
    asked about the address with a bound of 5. *)
Definition handleConnection_limited (connectionId ip userAgent : string) (now : Z)
           (requestCounts : RateLimiting.Store) (c : Controller) (ws : Socket)
  : Controller * Socket * RateLimiting.Store :=
  let (admitted, requestCounts') :=
    RateLimiting.websocketRateLimiter ip 5 now requestCounts in
  (handleConnection connectionId ip userAgent admitted now c ws, requestCounts').

End WebSocketController.

(* ------------------------------------------------------------------------- *)
(** ** Concrete inputs used by the examples *)

Module Scenarios.
Import JsString.

(** The one-character string of a double quote. *)
Definition dq : string := String "034" EmptyString.

(** The text [{"id":<id>,"choices":[{"delta":{"content":<text>}}]}] of an
    upstream chunk, and the value [JSON.parse] gives for it. *)
Definition chunk_json (id text : string) : string :=
  "{" ++ dq ++ "id" ++ dq ++ ":" ++ dq ++ id ++ dq ++ ","
      ++ dq ++ "choices" ++ dq ++ ":[{"
      ++ dq ++ "delta" ++ dq ++ ":{"
      ++ dq ++ "content" ++ dq ++ ":" ++ dq ++ text ++ dq ++ "}}]}".

Definition chunk_value (id text : string) : Json.value :=
  Json.Obj
    [ ("id", Json.Str id);
      ("choices", Json.Arr
         [Json.Obj [("delta", Json.Obj [("content", Json.Str text)])]]) ].

(** [JSON.parse] on the three chunks of the example; it rejects any
    other text. *)
Definition parse_example (s : string) : option Json.value :=
  if String.eqb s (chunk_json "c1" "Hel") then Some (chunk_value "c1" "Hel")
  else if String.eqb s (chunk_json "c2" "lo") then Some (chunk_value "c2" "lo")
  else if String.eqb s (chunk_json "c3" "!") then Some (chunk_value "c3" "!")
  else None.

(** Three frames and the sentinel, as upstream writes them. *)
Definition three_frames : string :=
  InferenceController.sse_frame (chunk_json "c1" "Hel")
  ++ InferenceController.sse_frame (chunk_json "c2" "lo")
  ++ InferenceController.sse_frame (chunk_json "c3" "!")
  ++ InferenceController.sse_frame "[DONE]".

(** What [transformStreamingChunk] makes of a chunk of the example. *)
Definition transformed (id text : string) : Json.value :=
  Json.Obj
    [ ("id", Json.Str id);
      ("choices", Json.Arr
         [Json.Obj
            [ ("finish_reason", Json.Undefined);
              ("delta", Json.Obj
                 [ ("content", Json.Str text);
                   ("role", Json.Undefined);
                   ("tool_calls", Json.Undefined) ]) ]]);
      ("model", Json.Undefined);
      ("created", Json.Undefined);
      ("object", Json.Str "chat.completion.chunk") ].

(** A catalog entry, a registry that holds it since time 0, and a world
    whose clock reads one hour and whose upstream is down. *)
Definition entry (id : string) (context : Z) : ModelRegistry.Model.t :=
  ModelRegistry.Model.make id id None context
    (Some (ModelRegistry.mkPricing "0.001" "0.002"))
    (ModelRegistry.mkArchitecture "text" "GPT" None)
    (ModelRegistry.mkTopProvider context None false)
    None.

Definition one_model : ModelRegistry.Registry :=
  ModelRegistry.mkRegistry [("openai/gpt-4", entry "openai/gpt-4" 8192)] 0.

Definition upstream_down : ModelRegistry.World :=
  ModelRegistry.mkWorld (fun _ => 3600000) 0 (fun _ => Thrown "upstream unavailable") 0.

(** A world whose upstream serves that one entry, at a clock that stands
    at one second. *)
Definition upstream_up : ModelRegistry.World :=
  ModelRegistry.mkWorld (fun _ => 1000) 0
                        (fun _ => Ok [entry "openai/gpt-4" 8192]) 0.

(** A session with the request [req-1] in flight, and a second request
    [req-2] for a model the registry knows. *)
Definition busy_connection : WebSocketController.WebSocketConnection :=
  WebSocketController.mkConnection "conn-1" 0 0 true (Some "req-1") "10.0.0.1" "agent".

Definition busy : WebSocketController.Run :=
  WebSocketController.mkRun
    (WebSocketController.mkCtl [("conn-1", busy_connection)]
       (WebSocketController.mkStats 1 1 1 0 0 1) [])
    WebSocketController.open_socket [] O.

Definition second_data : WebSocketController.RequestData :=
  WebSocketController.mkData "openai/gpt-4"
    [CostCalculator.mkMessage "user" (CostCalculator.CString "again")] [].

Definition second_request : WebSocketController.Inbound :=
  WebSocketController.mkInbound WebSocketController.T_inference_request
    "req-2" (Some second_data) None.

(** A session connected at time 0 that stays silent. *)
Definition silent : WebSocketController.Controller :=
  fst (WebSocketController.handleConnection
         "conn-1" "10.0.0.1" "agent" true 0
         WebSocketController.initial WebSocketController.open_socket).

End Scenarios.

(* ========================================================================= *)
(** * Properties *)

(* ------------------------------------------------------------------------- *)
(** ** Arithmetic and maps *)

Section Basics.
Import JsString.

(** [Math_ceil_div n 4] is the least integer not below [n / 4]. *)
Lemma Math_ceil_div_4_spec (n : Z) :
  n <= 4 * Math_ceil_div n 4 < n + 4.
Proof.
  unfold Math_ceil_div.
  pose proof (Z.div_mod (- n) 4 ltac:(lia)) as E.
  pose proof (Z.mod_pos_bound (- n) 4 ltac:(lia)) as B.
  lia.
Qed.

Lemma Math_ceil_div_4_unique (n k : Z) :
  n <= 4 * k < n + 4 -> Math_ceil_div n 4 = k.
Proof.
  intros H. pose proof (Math_ceil_div_4_spec n). lia.
Qed.

Lemma length_nonneg (s : string) : 0 <= length s.
Proof. unfold length. lia. Qed.

Lemma length_append (s t : string) : length (s ++ t) = length s + length t.
Proof.
  unfold length. induction s as [|c s IH]; simpl String.length.
  - lia.
  - simpl in IH. lia.
Qed.

Variable V : Type.

Lemma get_set_same (m : JsMap.t V) (k : string) (v : V) :
  JsMap.get (JsMap.set m k v) k = Some v.
Proof.
  induction m as [|[k' v'] m IH]; simpl.
  - now rewrite String.eqb_refl.
  - destruct (String.eqb k k') eqn:E; simpl; rewrite E; auto.
Qed.

Lemma get_set_other (m : JsMap.t V) (k k' : string) (v : V) :
  k' <> k -> JsMap.get (JsMap.set m k v) k' = JsMap.get m k'.
Proof.
  intros N. induction m as [|[k0 v0] m IH]; simpl.
  - destruct (String.eqb_spec k' k); congruence.
  - destruct (String.eqb_spec k k0) as [->|]; simpl.
    + destruct (String.eqb_spec k' k0); congruence.
    + destruct (String.eqb_spec k' k0); auto.
Qed.

(** Overwriting the value of a key that is present keeps the keys, in
    their order. *)
Lemma keys_set_present (m : JsMap.t V) (k : string) (v : V) :
  JsMap.get m k <> None -> JsMap.keys (JsMap.set m k v) = JsMap.keys m.
Proof.
  unfold JsMap.keys.
  induction m as [|[k' v'] m IH]; simpl; intros H.
  - congruence.
  - destruct (String.eqb_spec k k') as [->|]; simpl.
    + reflexivity.
    + now rewrite IH.
Qed.

Lemma get_in_keys (m : JsMap.t V) (k : string) :
  JsMap.get m k <> None <-> In k (JsMap.keys m).
Proof.
  unfold JsMap.keys.
  induction m as [|[k' v'] m IH]; simpl.
  - split; [congruence | tauto].
  - destruct (String.eqb_spec k k') as [->|N].
    + split; [auto | congruence].
    + rewrite IH. split; [auto | intros [E|I]; [congruence | auto]].
Qed.

End Basics.

(* ------------------------------------------------------------------------- *)
(** ** Pricing and token estimates *)

Section CostCalculatorFacts.
Import JsString CostCalculator.

(** An exact match of the base name wins. *)
Lemma getModelPricing_exact (model : string) (p : ModelPricing) :
  JsMap.get MODEL_PRICING (baseModel_of model) = Some p ->
  getModelPricing model = Rates p.
Proof.
  intros H. unfold getModelPricing, JsObject.get. now rewrite H.
Qed.

(** Without one, the first table entry that contains the base name or is
    contained in it wins. *)
Lemma getModelPricing_partial (model : string) (p : ModelPricing) :
  JsMap.get MODEL_PRICING (baseModel_of model) = None ->
  JsObject.inherited (baseModel_of model) = false ->
  partial_match (baseModel_of model) MODEL_PRICING = Some p ->
  getModelPricing model = Rates p.
Proof.
  intros H I P. unfold getModelPricing, JsObject.get. now rewrite H, I, P.
Qed.

(** Without either, and for a base name that is not a member every object
    inherits, the default rates apply. *)
Lemma getModelPricing_default (model : string) :
  JsMap.get MODEL_PRICING (baseModel_of model) = None ->
  JsObject.inherited (baseModel_of model) = false ->
  partial_match (baseModel_of model) MODEL_PRICING = None ->
  getModelPricing model = Rates DEFAULT_PRICING.
Proof.
  intros H I P. unfold getModelPricing, JsObject.get. now rewrite H, I, P.
Qed.

(** The cost is the sum of the two products for the rates selected. *)
Lemma calculateCost_formula (usage : TokenUsage) (model : string) (p : ModelPricing) :
  getModelPricing model = Rates p ->
  calculateCost usage model =
    Num ((inject_Z (prompt_tokens usage) / 1000) * promptCostPer1K p
         + (inject_Z (completion_tokens usage) / 1000) * completionCostPer1K p)%Q.
Proof.
  intros H. unfold calculateCost. now rewrite H.
Qed.

Example pricing_of_unknown_model :
  getModelPricing "meta/llama-3" = Rates DEFAULT_PRICING.
Proof. reflexivity. Qed.

Example pricing_prefers_first_entry :
  getModelPricing "openai/gpt-4-turbo-preview" = Rates (mkPricing 30 60).
Proof. reflexivity. Qed.

(** C8.  The model identifier ["constructor"] is no key of the pricing
    table and neither contains nor is contained in one, yet
    [getModelPricing] does not answer the default rates: the exact-match
    read [MODEL_PRICING[baseModel]] finds the member of that name that the
    table inherits, returns it as if it were a pricing, and the cost
    computed from it is [NaN] for every usage. *)
Theorem getModelPricing_inherited_member :
  JsMap.get MODEL_PRICING "constructor" = None /\
  partial_match "constructor" MODEL_PRICING = None /\
  getModelPricing "constructor" = NotRates "constructor" /\
  getModelPricing "constructor" <> Rates DEFAULT_PRICING /\
  forall usage, calculateCost usage "constructor" = NaN.
Proof.
  repeat split; try reflexivity.
  discriminate.
Qed.

(** The same happens behind a provider prefix. *)
Example getModelPricing_inherited_member_prefixed :
  getModelPricing "openai/toString" = NotRates "toString".
Proof. reflexivity. Qed.

(** What [estimatePromptTokens] computes: a quarter of the number of
    decimal digits of the total length, rounded up. *)
Lemma estimatePromptTokens_digits (messages : list Message) :
  estimatePromptTokens messages =
    Math_ceil_div (length (Number_toString (totalLength messages))) 4.
Proof. reflexivity. Qed.

Lemma fold_left_add_nonneg {A} (f : A -> Z) (l : list A) (a : Z) :
  (forall x, 0 <= f x) -> 0 <= a -> a <= fold_left (fun acc x => acc + f x) l a.
Proof.
  intros Hf. revert a. induction l as [|x l IH]; simpl; intros a Ha.
  - lia.
  - specialize (Hf x). specialize (IH (a + f x)). lia.
Qed.

Lemma totalLength_nonneg (messages : list Message) : 0 <= totalLength messages.
Proof.
  unfold totalLength.
  apply (fold_left_add_nonneg (fun m => content_length (content m))); [|lia].
  intros m. destruct (content m) as [s|parts]; simpl.
  - apply length_nonneg.
  - apply (fold_left_add_nonneg part_length); [|lia].
    intros [t|u]; simpl; [apply length_nonneg | lia].
Qed.

(** Up to 9999 characters of prompt, the estimate is one token. *)
Lemma estimateTokens_small (n : Z) :
  0 <= n < 10000 -> estimateTokens (Number_toString n) = 1.
Proof.
  intros H.
  assert (forallb (fun k => estimateTokens (Number_toString (Z.of_nat k)) =? 1)
                  (seq 0 (Z.to_nat 10000)) = true) as A by (vm_compute; reflexivity).
  rewrite forallb_forall in A.
  specialize (A (Z.to_nat n)).
  rewrite Z2Nat.id in A by lia.
  apply Z.eqb_eq, A, in_seq. lia.
Qed.

(** X29.  For every prompt whose counted content has fewer than 10000
    characters the prompt estimate is 1: the estimate is taken of the
    decimal text of the total length, which then has at most four
    characters. *)
Lemma estimatePromptTokens_small (messages : list Message) :
  totalLength messages < 10000 -> estimatePromptTokens messages = 1.
Proof.
  intros H. apply estimateTokens_small.
  pose proof (totalLength_nonneg messages). lia.
Qed.

(** C2.  For the one message ["hello world!"], whose content has 12
    characters, the prompt-token estimate is 1, the rounded-up quarter of
    the length of the text ["12"], and not [ceil(12 / 4) = 3]; the
    completion estimate of the same text is 3. *)
Theorem estimatePromptTokens_hello_world :
  let messages := [mkMessage "user" (CString "hello world!")] in
  totalLength messages = 12 /\
  Number_toString (totalLength messages) = "12" /\
  estimatePromptTokens messages = 1 /\
  Math_ceil_div 12 4 = 3 /\
  InferenceController.completionTokens_of "hello world!" = 3.
Proof. repeat split. Qed.

End CostCalculatorFacts.

(* ------------------------------------------------------------------------- *)
(** ** The figures of the streaming path *)

Section StreamingFacts.
Import JsString CostCalculator InferenceController.

Variable JSON_parse : string -> option Json.value.
Variable JSON_stringify : Json.value -> string.
Variable ToString : Json.value -> string.

(** The completion estimate is the rounded-up quarter of the length of the
    accumulated content. *)
Lemma completion_estimate (req : InferenceRequest) (content : string) :
  completionTokens (estimates req content) = Math_ceil_div (length content) 4 /\
  length content <= 4 * completionTokens (estimates req content) < length content + 4.
Proof.
  split; [reflexivity | apply Math_ceil_div_4_spec].
Qed.

(** The content grows by each string delta. *)
Lemma track_content_length (content delta : string) :
  length (track_content ToString content (Json.Str delta))
    = length content + length delta.
Proof.
  unfold track_content, append_content. cbn [Json.truthy].
  destruct delta as [|c delta]; cbn [truthy].
  - unfold length. simpl. lia.
  - apply length_append.
Qed.

(** The total is the sum of the two estimates. *)
Lemma total_estimate (req : InferenceRequest) (content : string) :
  totalTokens (estimates req content)
    = promptTokens (estimates req content) + completionTokens (estimates req content).
Proof. reflexivity. Qed.

(** A stream that ends at once: the usage frame and the sentinel are all
    that is written, and the response is ended. *)
Example empty_stream_response :
  let req := mkRequest "openai/gpt-4"
               [mkMessage "user" (CString "hello world!")] [] in
  createStreamingCompletion JSON_parse JSON_stringify ToString
      "req-1" 5000 req (Ok true) (Ok (mkStream [] None)) fresh_response
    = (mkResponse None None sse_headers
         [ sse_frame (JSON_stringify (usageData "req-1" req 1 0 5000));
           sse_frame "[DONE]" ]
         true,
       None).
Proof. reflexivity. Qed.

End StreamingFacts.

(* ------------------------------------------------------------------------- *)
(** ** The stream decoder *)

Section DecoderFacts.
Import JsString OpenRouterService.

Variable JSON_parse : string -> option Json.value.
Variable JSON_stringify : Json.value -> string.

Local Abbreviation process_lines := (process_lines JSON_parse JSON_stringify).
Local Abbreviation run := (run JSON_parse JSON_stringify).

(** With the underlying source as receiver, the [try] block always ends
    in its [catch]. *)
Lemma try_enqueue_unbound (data : string) (c : Controller) :
  try_enqueue JSON_parse JSON_stringify TheUnderlyingSource data c = c.
Proof.
  unfold try_enqueue. destruct (JSON_parse data); reflexivity.
Qed.

Lemma close_queue (c c' : Controller) : close c = Some c' -> queue c' = queue c.
Proof.
  unfold close. destruct (canCloseOrEnqueue c); [|discriminate].
  intros [= <-]. reflexivity.
Qed.

Lemma process_lines_unbound_queue (lines : list string) (c : Controller) :
  queue (decoder_of (process_lines TheUnderlyingSource lines c)) = queue c.
Proof.
  revert c.
  induction lines as [|line rest IH]; intros c;
    cbn [OpenRouterService.process_lines].
  - reflexivity.
  - destruct (startsWith (trim line) "data: ").
    + destruct (String.eqb (slice 6 (trim line)) "[DONE]").
      * destruct (close c) as [c'|] eqn:E; cbn [decoder_of].
        -- now apply close_queue.
        -- reflexivity.
      * rewrite try_enqueue_unbound. apply IH.
    + apply IH.
Qed.

Lemma listener_unbound_queue (d : Decoder) (ev : SourceEvent) :
  queue (controller d) = [] ->
  queue (controller (decoder_of
    (listener JSON_parse JSON_stringify TheUnderlyingSource d ev))) = [].
Proof.
  intros Q. destruct ev as [chunk| |e]; simpl.
  - unfold on_data.
    pose proof (process_lines_unbound_queue
                  (removelast (split "010" (buffer d ++ chunk))) (controller d)) as P.
    destruct (process_lines _ _ _); simpl in *; congruence.
  - unfold on_end. destruct (close (controller d)) as [c|] eqn:E; simpl.
    + apply close_queue in E. congruence.
    + assumption.
  - unfold error. destruct (errored (controller d)); simpl; [assumption|].
    rewrite Q. destruct (closeRequested (controller d)); simpl; auto.
Qed.

Lemma run_unbound_queue (events : list SourceEvent) (d : Decoder) :
  queue (controller d) = [] ->
  queue (controller (decoder_of (run TheUnderlyingSource events d))) = [].
Proof.
  revert d. induction events as [|ev rest IH]; intros d Q; simpl.
  - assumption.
  - pose proof (listener_unbound_queue d ev Q) as L.
    destruct (listener _ _ _ _ _) as [d'|d']; simpl in *.
    + now apply IH.
    + assumption.
Qed.

(** X1.  Whatever the upstream body emits, whatever [JSON.parse] and
    [JSON.stringify] do, the stream [transformStreamingResponse] returns
    never has a chunk enqueued. *)
Lemma transformStreamingResponse_enqueues_nothing (events : list SourceEvent) :
  queue (controller (decoder_of
    (transformStreamingResponse JSON_parse JSON_stringify events))) = [].
Proof.
  apply run_unbound_queue. reflexivity.
Qed.

(** C1.  Three well-formed frames followed by the sentinel, delivered in
    one chunk: the stream [transformStreamingResponse] returns is closed
    with no chunk enqueued, because the call of
    [this.transformStreamingChunk] throws inside the [try] for each frame.
    Had [this] been the service, the three transformed chunks would have
    been enqueued in order before the close. *)
Theorem transformStreamingResponse_drops_every_frame :
  let events := [Data Scenarios.three_frames] in
  let actual :=
    transformStreamingResponse Scenarios.parse_example JSON_stringify events in
  let bound :=
    transformStreamingResponse_bound Scenarios.parse_example JSON_stringify events in
  actual = Returned (mkDecoder EmptyString (mkController [] true None)) /\
  bound = Returned (mkDecoder EmptyString (mkController
            [ JSON_stringify (Scenarios.transformed "c1" "Hel") ++ newline;
              JSON_stringify (Scenarios.transformed "c2" "lo") ++ newline;
              JSON_stringify (Scenarios.transformed "c3" "!") ++ newline ]
            true None)).
Proof.
  split; reflexivity.
Qed.

End DecoderFacts.

(* ------------------------------------------------------------------------- *)
(** ** The decoder with [this] bound to the service

    What the listener would do if [this.transformStreamingChunk] reached
    the method of the service: the body is cut into lines across chunk
    boundaries, and every well-formed frame is forwarded. *)

Section SplitFacts.
Import JsString.
Variable sep : ascii.

(** [split] always gives at least one piece. *)
Lemma split_nonempty (s : string) : split sep s <> [].
Proof.
  destruct s as [|c s]; simpl; [discriminate|].
  destruct (Ascii.eqb c sep); [discriminate|].
  destruct (split sep s); discriminate.
Qed.

(** A character other than the separator joins the first piece. *)
Lemma split_cons_other (c : ascii) (s : string) :
  Ascii.eqb c sep = false ->
  split sep (String c s) =
    String c (hd EmptyString (split sep s)) :: tl (split sep s).
Proof.
  intros E. simpl. rewrite E.
  pose proof (split_nonempty s). destruct (split sep s); [contradiction|reflexivity].
Qed.

(** Splitting a text that arrives in two parts: the pieces of the first part
    but the last, then the pieces of that last one followed by the second part. *)
Lemma split_app (a b : string) :
  split sep (a ++ b) =
    (removelast (split sep a) ++ split sep (last (split sep a) EmptyString ++ b))%list.
Proof.
  induction a as [|c a IH].
  - reflexivity.
  - cbn [append]. destruct (Ascii.eqb c sep) eqn:E.
    + simpl. rewrite E. rewrite IH.
      pose proof (split_nonempty a). destruct (split sep a) eqn:S; [contradiction|].
      reflexivity.
    + rewrite !split_cons_other by exact E. rewrite IH.
      pose proof (split_nonempty a).
      destruct (split sep a) as [|x [|y rest]] eqn:S; [contradiction| |].
      * cbn [removelast last app hd tl append].
        rewrite split_cons_other by exact E. reflexivity.
      * cbn [removelast last app hd tl]. reflexivity.
Qed.

(** A text with no separator in it. *)
Definition single (s : string) : Prop := split sep s = [s].

Lemma single_tail (c : ascii) (s : string) :
  single (String c s) -> Ascii.eqb c sep = false /\ single s.
Proof.
  unfold single. simpl. destruct (Ascii.eqb c sep).
  - pose proof (split_nonempty s). destruct (split sep s); [contradiction|discriminate].
  - pose proof (split_nonempty s). destruct (split sep s) as [|h t]; [contradiction|].
    intros [= -> ->]. now split.
Qed.

Lemma single_cons (c : ascii) (s : string) :
  Ascii.eqb c sep = false -> single s -> single (String c s).
Proof.
  unfold single. intros E S. simpl. now rewrite E, S.
Qed.

(** No piece holds the separator. *)
Lemma split_elements_single (s e : string) : In e (split sep s) -> single e.
Proof.
  revert e. induction s as [|c s IH]; intros e I.
  - destruct I as [<-|[]]. reflexivity.
  - destruct (Ascii.eqb c sep) eqn:E.
    + simpl in I. rewrite E in I. destruct I as [<-|I]; [reflexivity | now apply IH].
    + rewrite split_cons_other in I by exact E.
      pose proof (split_nonempty s).
      destruct (split sep s) as [|h t]; [contradiction|].
      cbn [hd tl] in I. destruct I as [<-|I].
      * apply single_cons; [exact E | apply IH; now left].
      * apply IH. now right.
Qed.

(** A line and its terminator, then more text. *)
Lemma split_line (p rest : string) :
  single p -> split sep (p ++ String sep rest) = p :: split sep rest.
Proof.
  induction p as [|c p IH]; intros S.
  - simpl. now rewrite Ascii.eqb_refl.
  - apply single_tail in S. destruct S as [E S].
    cbn [append]. rewrite split_cons_other by exact E. now rewrite IH.
Qed.

Lemma last_append {A} (l l' : list A) (d : A) :
  l' <> [] -> last (l ++ l') d = last l' d.
Proof.
  intros N. induction l as [|x l IH]; [reflexivity|].
  cbn [app]. destruct (l ++ l')%list eqn:E.
  - apply app_eq_nil in E. destruct E. contradiction.
  - rewrite <- IH. reflexivity.
Qed.

Lemma append_empty_r (s : string) : s ++ EmptyString = s.
Proof. induction s; simpl; congruence. Qed.

Lemma append_assoc (a b c : string) : (a ++ b) ++ c = a ++ (b ++ c).
Proof. induction a; simpl; congruence. Qed.

End SplitFacts.

Section Lines.
Import JsString OpenRouterService.

Variable JSON_parse : string -> option Json.value.
Variable JSON_stringify : Json.value -> string.
Variable this : Receiver.

Definition lines_of (text : string) : list string := removelast (split "010" text).
Definition buffer_of (text : string) : string := last (split "010" text) EmptyString.

(** The complete lines and the pending buffer of a text that grows by a chunk. *)
Lemma lines_app (text chunk : string) :
  lines_of (text ++ chunk) = (lines_of text ++ lines_of (buffer_of text ++ chunk))%list.
Proof.
  unfold lines_of, buffer_of. rewrite split_app.
  apply removelast_app, split_nonempty.
Qed.

Lemma buffer_app (text chunk : string) :
  buffer_of (text ++ chunk) = buffer_of (buffer_of text ++ chunk).
Proof.
  unfold buffer_of. rewrite split_app.
  apply last_append, split_nonempty.
Qed.

(** The pending buffer never holds a line feed. *)
Lemma buffer_single (text : string) : single "010" (buffer_of text).
Proof.
  apply split_elements_single with (s := text). unfold buffer_of.
  pose proof (split_nonempty "010" text) as N.
  rewrite (app_removelast_last EmptyString N) at 2.
  apply in_or_app. right. now left.
Qed.

(** The effect of one line that is not the sentinel. *)
Definition line_step (c : Controller) (line : string) : Controller :=
  if startsWith (trim line) "data: "
  then try_enqueue JSON_parse JSON_stringify this (slice 6 (trim line)) c
  else c.

Definition sentinel (line : string) : bool :=
  startsWith (trim line) "data: " && String.eqb (slice 6 (trim line)) "[DONE]".

(** Without a sentinel among them, the loop runs through all the lines. *)
Lemma process_lines_ordinary (lines : list string) (c : Controller) :
  forallb (fun l => negb (sentinel l)) lines = true ->
  process_lines JSON_parse JSON_stringify this lines c
    = Returned (fold_left line_step lines c).
Proof.
  revert c. induction lines as [|l lines IH]; intros c O.
  - reflexivity.
  - cbn [forallb] in O. apply andb_true_iff in O. destruct O as [N O].
    cbn [OpenRouterService.process_lines fold_left].
    unfold line_step at 2. unfold sentinel in N.
    destruct (startsWith (trim l) "data: ").
    + destruct (String.eqb (slice 6 (trim l)) "[DONE]"); [discriminate|].
      now apply IH.
    + now apply IH.
Qed.

(** At the sentinel the loop closes the stream and returns; the lines after it
    are not looked at. *)
Lemma process_lines_sentinel (pre post : list string) (s : string) (c : Controller) :
  forallb (fun l => negb (sentinel l)) pre = true ->
  sentinel s = true ->
  process_lines JSON_parse JSON_stringify this (pre ++ s :: post)%list c
    = match close (fold_left line_step pre c) with
      | Some c' => Returned c'
      | None => Threw (fold_left line_step pre c)
      end.
Proof.
  revert c. induction pre as [|l pre IH]; intros c O S.
  - cbn [app fold_left OpenRouterService.process_lines].
    unfold sentinel in S. apply andb_true_iff in S. destruct S as [S1 S2].
    now rewrite S1, S2.
  - cbn [forallb] in O. apply andb_true_iff in O. destruct O as [N O].
    cbn [app OpenRouterService.process_lines fold_left].
    unfold line_step at 2 4. unfold sentinel in N.
    destruct (startsWith (trim l) "data: ").
    + destruct (String.eqb (slice 6 (trim l)) "[DONE]"); [discriminate|].
      now apply IH.
    + now apply IH.
Qed.

(** On a stream that is closed or errored, [enqueue] throws inside the [try]. *)
Lemma try_enqueue_closed (data : string) (c : Controller) :
  canCloseOrEnqueue c = false ->
  try_enqueue JSON_parse JSON_stringify this data c = c.
Proof.
  intros C. unfold try_enqueue.
  destruct (JSON_parse data); [|reflexivity].
  destruct (method_transformStreamingChunk this) as [f|]; [|reflexivity].
  destruct (f v); [|reflexivity].
  unfold enqueue. now rewrite C.
Qed.

Lemma line_steps_closed (lines : list string) (c : Controller) :
  canCloseOrEnqueue c = false -> fold_left line_step lines c = c.
Proof.
  intros C. induction lines as [|l lines IH]; [reflexivity|].
  cbn [fold_left]. unfold line_step at 2.
  destruct (startsWith (trim l) "data: "); [rewrite try_enqueue_closed by exact C|]; exact IH.
Qed.

Lemma try_enqueue_open (data : string) (c : Controller) :
  canCloseOrEnqueue c = true ->
  canCloseOrEnqueue (try_enqueue JSON_parse JSON_stringify this data c) = true.
Proof.
  intros C. unfold try_enqueue.
  destruct (JSON_parse data); [|exact C].
  destruct (method_transformStreamingChunk this) as [f|]; [|exact C].
  destruct (f v); [|exact C].
  unfold enqueue. rewrite C. exact C.
Qed.

Lemma line_steps_open (lines : list string) (c : Controller) :
  canCloseOrEnqueue c = true -> canCloseOrEnqueue (fold_left line_step lines c) = true.
Proof.
  revert c. induction lines as [|l lines IH]; intros c C; [exact C|].
  cbn [fold_left]. apply IH. unfold line_step.
  destruct (startsWith (trim l) "data: "); [now apply try_enqueue_open | exact C].
Qed.

End Lines.

Section Groups.
Import JsString OpenRouterService.

Variable JSON_parse : string -> option Json.value.
Variable JSON_stringify : Json.value -> string.
Variable this : Receiver.

Local Abbreviation process_lines := (process_lines JSON_parse JSON_stringify this).
Local Abbreviation line_step := (line_step JSON_parse JSON_stringify this).

(** The listener of data events, chunk after chunk, seen as the groups of
    complete lines it hands to the loop. *)
Fixpoint run_groups (groups : list (list string)) (c : Controller) : Listener Controller :=
  match groups with
  | [] => Returned c
  | g :: gs =>
      match process_lines g c with
      | Returned c' => run_groups gs c'
      | Threw c' => Threw c'
      end
  end.

Fixpoint groups_of (b : string) (chunks : list string) : list (list string) :=
  match chunks with
  | [] => []
  | chunk :: rest => lines_of (b ++ chunk) :: groups_of (buffer_of (b ++ chunk)) rest
  end.

Fixpoint final_buffer (b : string) (chunks : list string) : string :=
  match chunks with
  | [] => b
  | chunk :: rest => final_buffer (buffer_of (b ++ chunk)) rest
  end.

Definition concat_text (chunks : list string) : string :=
  fold_right append EmptyString chunks.

(** Data events, one group of lines per chunk. *)
Lemma run_data_groups (chunks : list string) (b : string) (c c' : Controller) :
  run_groups (groups_of b chunks) c = Returned c' ->
  run JSON_parse JSON_stringify this (map Data chunks) (mkDecoder b c)
    = Returned (mkDecoder (final_buffer b chunks) c').
Proof.
  revert b c. induction chunks as [|chunk rest IH]; intros b c R.
  - cbn in R. injection R as <-. reflexivity.
  - cbn [groups_of run_groups] in R.
    cbn [map OpenRouterService.run listener final_buffer]. unfold on_data.
    cbn [buffer controller]. fold (lines_of (b ++ chunk)). fold (buffer_of (b ++ chunk)).
    destruct (process_lines (lines_of (b ++ chunk)) c) as [c1|c1]; [|discriminate].
    now apply IH.
Qed.

(** Together the groups are the complete lines of the whole body. *)
Lemma groups_concat (chunks : list string) (b : string) :
  single "010" b ->
  List.concat (groups_of b chunks) = lines_of (b ++ concat_text chunks) /\
  final_buffer b chunks = buffer_of (b ++ concat_text chunks).
Proof.
  revert b. induction chunks as [|chunk rest IH]; intros b S.
  - cbn. rewrite append_empty_r. unfold lines_of, buffer_of. rewrite S. split; reflexivity.
  - cbn [groups_of final_buffer List.concat concat_text fold_right].
    destruct (IH (buffer_of (b ++ chunk)) (buffer_single _)) as [A B].
    fold (concat_text rest). rewrite A, B.
    rewrite <- append_assoc.
    rewrite (lines_app (b ++ chunk) (concat_text rest)).
    rewrite (buffer_app (b ++ chunk) (concat_text rest)).
    split; reflexivity.
Qed.

Definition ordinary (lines : list string) : bool :=
  forallb (fun l => negb (sentinel l)) lines.

Lemma ordinary_app (l1 l2 : list string) :
  ordinary (l1 ++ l2) = ordinary l1 && ordinary l2.
Proof. apply forallb_app. Qed.

(** Once the stream is closed, ordinary lines change nothing. *)
Lemma run_groups_closed (groups : list (list string)) (c : Controller) :
  canCloseOrEnqueue c = false ->
  ordinary (List.concat groups) = true ->
  run_groups groups c = Returned c.
Proof.
  intros C. induction groups as [|g gs IH]; intros O; [reflexivity|].
  cbn [List.concat] in O. rewrite ordinary_app in O. apply andb_true_iff in O.
  destruct O as [O1 O2]. cbn [run_groups].
  rewrite process_lines_ordinary by exact O1.
  rewrite line_steps_closed by exact C. now apply IH.
Qed.

Lemma close_open (c : Controller) :
  canCloseOrEnqueue c = true ->
  close c = Some (mkController (queue c) true (errored c)).
Proof. intros C. unfold close. now rewrite C. Qed.

Lemma closed_after_close (c : Controller) :
  canCloseOrEnqueue (mkController (queue c) true (errored c)) = false.
Proof. reflexivity. Qed.

(** Lines up to a sentinel, however they are grouped: the lines before it
    take effect, the stream is closed, and ordinary lines after it are
    without effect. *)
Lemma run_groups_sentinel (groups : list (list string)) (pre post : list string)
      (s : string) (c : Controller) :
  canCloseOrEnqueue c = true ->
  List.concat groups = (pre ++ s :: post)%list ->
  ordinary pre = true -> sentinel s = true -> ordinary post = true ->
  run_groups groups c =
    Returned (mkController (queue (fold_left line_step pre c)) true
                           (errored (fold_left line_step pre c))).
Proof.
  revert pre c. induction groups as [|g gs IH]; intros pre c C E Opre S Opost.
  - cbn in E. destruct pre; discriminate.
  - cbn [List.concat] in E. apply app_eq_app in E. destruct E as [l [[E1 E2]|[E1 E2]]].
    + (* the group reaches the sentinel, or ends just before it *)
      destruct l as [|x l].
      * rewrite app_nil_r in E1. subst g. cbn [app] in E2. symmetry in E2.
        cbn [run_groups]. rewrite process_lines_ordinary by exact Opre.
        rewrite (IH [] (fold_left line_step pre c)); auto.
        now apply line_steps_open.
      * cbn [app] in E2. injection E2 as <- ->. subst g.
        rewrite ordinary_app in Opost. apply andb_true_iff in Opost.
        destruct Opost as [Ol Ogs]. cbn [run_groups].
        rewrite process_lines_sentinel by assumption.
        rewrite close_open by now apply line_steps_open.
        apply run_groups_closed; [reflexivity | exact Ogs].
    + (* the group ends inside [pre] *)
      subst pre. rewrite ordinary_app in Opre. apply andb_true_iff in Opre.
      destruct Opre as [Og Ol]. cbn [run_groups].
      rewrite process_lines_ordinary by exact Og.
      rewrite fold_left_app.
      apply IH; auto. now apply line_steps_open.
Qed.

End Groups.

Section BoundDecoder.
Import JsString OpenRouterService.

Variable JSON_parse : string -> option Json.value.
Variable JSON_stringify : Json.value -> string.

(** A frame payload the decoder is meant to forward: one line of JSON text
    with no white space at its end, other than the sentinel, that parses to
    a chunk [transformStreamingChunk] accepts. *)
Definition well_formed (p : string) : Prop :=
  p <> EmptyString /\ trimEnd p = p /\ single "010" p /\ p <> "[DONE]" /\
  exists j t, JSON_parse p = Some j /\ transformStreamingChunk j = Some t.

(** The chunk enqueued for a payload. *)
Definition enqueued (p : string) : string :=
  match JSON_parse p with
  | Some j =>
      match transformStreamingChunk j with
      | Some t => JSON_stringify t ++ newline
      | None => EmptyString
      end
  | None => EmptyString
  end.

(** The body upstream sends: a frame per payload, then the sentinel. *)
Definition feed (payloads : list string) : string :=
  concat_text (map InferenceController.sse_frame payloads)
  ++ InferenceController.sse_frame "[DONE]".

Definition frame_lines (payloads : list string) : list string :=
  flat_map (fun p => ["data: " ++ p; EmptyString]) payloads.

(** Text in front of a payload that ends cleanly is not trimmed away. *)
Lemma trimEnd_suffix (a p : string) :
  p <> EmptyString -> trimEnd p = p -> trimEnd (a ++ p) = a ++ p.
Proof.
  intros N T. induction a as [|c a IH]; [exact T|].
  cbn [append trimEnd]. rewrite IH.
  destruct (a ++ p) eqn:E; [|reflexivity].
  destruct a; [cbn in E; contradiction | discriminate].
Qed.

Lemma trim_data (p : string) :
  p <> EmptyString -> trimEnd p = p -> trim ("data: " ++ p) = "data: " ++ p.
Proof.
  intros N T. unfold trim.
  change (trimStart ("data: " ++ p)) with ("data: " ++ p).
  now apply trimEnd_suffix.
Qed.

Lemma startsWith_data (p : string) : startsWith ("data: " ++ p) "data: " = true.
Proof. destruct p; reflexivity. Qed.

Lemma single_data (p : string) : single "010" p -> single "010" ("data: " ++ p).
Proof.
  intros S. cbn [append]. repeat (apply single_cons; [reflexivity|]). exact S.
Qed.

(** A frame is a [data:] line and an empty line. *)
Lemma split_frame (p rest : string) :
  single "010" p ->
  split "010" (InferenceController.sse_frame p ++ rest)
    = ("data: " ++ p) :: EmptyString :: split "010" rest.
Proof.
  intros S. unfold InferenceController.sse_frame, newline.
  replace (("data: " ++ p ++ String "010" "" ++ String "010" "") ++ rest)
    with (("data: " ++ p) ++ String "010" (EmptyString ++ String "010" rest)).
  - rewrite split_line by now apply single_data.
    rewrite split_line by reflexivity. reflexivity.
  - rewrite !append_assoc. reflexivity.
Qed.

Lemma split_feed (payloads : list string) :
  Forall (single "010") payloads ->
  split "010" (feed payloads)
    = (frame_lines payloads ++ ["data: [DONE]"; EmptyString; EmptyString])%list.
Proof.
  unfold feed. induction 1 as [|p ps S _ IH].
  - reflexivity.
  - cbn [map concat_text fold_right frame_lines flat_map app].
    fold (concat_text (map InferenceController.sse_frame ps)).
    rewrite append_assoc, split_frame by exact S. rewrite IH. reflexivity.
Qed.

Local Abbreviation service_step := (line_step JSON_parse JSON_stringify TheService).

(** A well-formed frame enqueues its transformed chunk. *)
Lemma line_step_frame (p : string) (c : Controller) :
  well_formed p -> canCloseOrEnqueue c = true ->
  service_step c ("data: " ++ p)
    = mkController (queue c ++ [enqueued p]) (closeRequested c) (errored c).
Proof.
  intros (N & T & _ & D & j & t & P & X) C.
  unfold line_step. rewrite trim_data by assumption.
  rewrite startsWith_data.
  change (slice 6 ("data: " ++ p)) with p.
  unfold try_enqueue, enqueued. rewrite P. cbn [method_transformStreamingChunk].
  rewrite X. unfold enqueue. now rewrite C.
Qed.

Lemma line_steps_frames (payloads : list string) (c : Controller) :
  Forall well_formed payloads -> canCloseOrEnqueue c = true ->
  fold_left service_step (frame_lines payloads) c
    = mkController (queue c ++ map enqueued payloads) (closeRequested c) (errored c).
Proof.
  intros W. revert c. induction W as [|p ps Wp _ IH]; intros c C.
  - cbn. rewrite app_nil_r. now destruct c.
  - cbn [frame_lines flat_map app fold_left map].
    rewrite line_step_frame by assumption.
    change (service_step ?c EmptyString) with c.
    fold (frame_lines ps). rewrite IH by exact C.
    cbn [queue closeRequested errored]. now rewrite <- app_assoc.
Qed.

Lemma ordinary_frames (payloads : list string) :
  Forall well_formed payloads -> ordinary (frame_lines payloads) = true.
Proof.
  induction 1 as [|p ps (N & T & _ & D & _) _ IH]; [reflexivity|].
  cbn [frame_lines flat_map app ordinary forallb].
  fold (frame_lines ps). fold (ordinary (frame_lines ps)). rewrite IH.
  unfold sentinel. rewrite trim_data by assumption. rewrite startsWith_data.
  change (slice 6 ("data: " ++ p)) with p.
  destruct (String.eqb_spec p "[DONE]"); [contradiction|].
  now rewrite andb_false_r.
Qed.

Lemma well_formed_single (payloads : list string) :
  Forall well_formed payloads -> Forall (single "010") payloads.
Proof.
  apply Forall_impl. intros p (_ & _ & S & _). exact S.
Qed.

(** With [this] bound to the service, a body of well-formed frames and the
    sentinel, cut into chunks at any places, yields one transformed chunk
    per frame, in the order of the frames, and then the close. *)
Theorem bound_decoder_forwards_every_frame (payloads chunks : list string) :
  Forall well_formed payloads ->
  concat_text chunks = feed payloads ->
  transformStreamingResponse_bound JSON_parse JSON_stringify (map Data chunks)
    = Returned (mkDecoder EmptyString
                          (mkController (map enqueued payloads) true None)).
Proof.
  intros W E. unfold transformStreamingResponse_bound.
  destruct (@groups_concat chunks EmptyString eq_refl) as [G B].
  cbn [append] in G, B. rewrite E in G, B.
  unfold lines_of in G. unfold buffer_of in B.
  rewrite split_feed in G, B by now apply well_formed_single.
  replace (frame_lines payloads ++ ["data: [DONE]"; EmptyString; EmptyString])%list
    with ((frame_lines payloads ++ ["data: [DONE]"; EmptyString]) ++ [EmptyString])%list
    in G, B by now rewrite <- app_assoc.
  rewrite removelast_last in G. rewrite last_last in B.
  pose proof (@run_groups_sentinel JSON_parse JSON_stringify TheService
                (groups_of EmptyString chunks) (frame_lines payloads) [EmptyString]
                "data: [DONE]" fresh_controller eq_refl G
                (@ordinary_frames payloads W) eq_refl eq_refl) as R.
  rewrite line_steps_frames in R by (exact W || reflexivity).
  cbn [queue errored fresh_controller app] in R.
  apply run_data_groups in R. rewrite B in R. exact R.
Qed.

End BoundDecoder.

Section BoundDecoderExample.
Import JsString OpenRouterService.

(** The three frames of the example are well formed, and the body may
    arrive cut inside a frame, inside the sentinel, or between the two line
    feeds that end a frame. *)
Example three_frames_in_pieces (JSON_stringify : Json.value -> string) :
  let text := Scenarios.three_frames in
  let pieces :=
    [ substring 0 20 text; substring 20 43 text; substring 63 200 text ] in
  concat_text pieces = text /\
  transformStreamingResponse_bound Scenarios.parse_example JSON_stringify
                                   (map Data pieces)
    = Returned (mkDecoder EmptyString (mkController
        [ JSON_stringify (Scenarios.transformed "c1" "Hel") ++ newline;
          JSON_stringify (Scenarios.transformed "c2" "lo") ++ newline;
          JSON_stringify (Scenarios.transformed "c3" "!") ++ newline ]
        true None)).
Proof.
  cbv zeta. split; [reflexivity|].
  apply (@bound_decoder_forwards_every_frame Scenarios.parse_example JSON_stringify
           [ Scenarios.chunk_json "c1" "Hel"; Scenarios.chunk_json "c2" "lo";
             Scenarios.chunk_json "c3" "!" ]).
  - repeat constructor; try discriminate; eexists; eexists; split; reflexivity.
  - reflexivity.
Qed.

(** Once the sentinel has closed the stream, the [end] event of the
    upstream body makes the listener call [controller.close()] a second
    time, which throws. *)
Example end_after_sentinel (JSON_stringify : Json.value -> string) :
  transformStreamingResponse Scenarios.parse_example JSON_stringify
                             [Data Scenarios.three_frames; End]
    = Threw (mkDecoder EmptyString (mkController [] true None)).
Proof. reflexivity. Qed.

End BoundDecoderExample.

(* ------------------------------------------------------------------------- *)
(** ** The model registry *)

Section RegistryFacts.
Import JsString ModelRegistry.

(** The world after [n] more clock reads and [k] more fetches. *)
Definition advanced (w : World) (n k : nat) : World :=
  mkWorld (clock w) (n + ticks w) (upstream w) (k + fetches w).

Lemma stale_spec (r : Registry) (now : Z) :
  stale r now = true <->
  JsMap.size (models r) = 0 \/ now - lastUpdated r > 5 * 60 * 1000.
Proof.
  unfold stale, cacheTimeout. rewrite orb_true_iff, Z.eqb_eq, Z.gtb_ltb, Z.ltb_lt. lia.
Qed.

Lemma registry_eta (r : Registry) : mkRegistry (models r) (lastUpdated r) = r.
Proof. now destruct r. Qed.

(** A fetch that fails leaves [refreshModels] before it touches the map. *)
Lemma refreshModels_failure (r : Registry) (w : World) (e : string) :
  upstream w (fetches w) = Thrown e ->
  refreshModels r w = (Thrown e, r, advanced w 0 1).
Proof.
  intros U. unfold refreshModels, bind, fetch_catalog. now rewrite U.
Qed.

Lemma refreshModels_success (r : Registry) (w : World) (fetched : list Model.t) :
  upstream w (fetches w) = Ok fetched ->
  refreshModels r w =
    (Ok tt, mkRegistry (install fetched) (clock w (ticks w)), advanced w 1 1).
Proof.
  intros U. unfold refreshModels, bind, fetch_catalog. now rewrite U.
Qed.

(** What [refreshModelsIfNeeded] does, case by case. *)
Definition refreshed (r : Registry) (w : World) : Outcome unit * Registry * World :=
  if stale r (clock w (ticks w)) then
    match upstream w (fetches w) with
    | Ok fetched =>
        (Ok tt, mkRegistry (install fetched) (clock w (S (ticks w))), advanced w 2 1)
    | Thrown e => (Thrown e, r, advanced w 1 1)
    end
  else (Ok tt, r, advanced w 1 0).

Lemma refreshModelsIfNeeded_cases (r : Registry) (w : World) :
  refreshModelsIfNeeded r w = refreshed r w.
Proof.
  unfold refreshModelsIfNeeded, refreshed, bind, Date_now, get_models, get_lastUpdated.
  cbn [clock ticks upstream fetches].
  rewrite registry_eta.
  destruct (stale r (clock w (ticks w))); [|reflexivity].
  unfold refreshModels, bind, fetch_catalog. cbn [clock ticks upstream fetches].
  destruct (upstream w (fetches w)); reflexivity.
Qed.

(** A read is the refresh, when needed, followed by the answer from the
    map as it then is. *)
Definition answered (op : ReadOp) (r : Registry) (w : World)
  : Outcome ReadResult * Registry * World :=
  match refreshed r w with
  | (Ok _, r', w') => (answer op (models r'), r', w')
  | (Thrown e, r', w') => (Thrown e, r', w')
  end.

Lemma getModels_cases (r : Registry) (w : World) :
  getModels r w =
    match refreshed r w with
    | (Ok _, r', w') => (all_infos (models r'), r', w')
    | (Thrown e, r', w') => (Thrown e, r', w')
    end.
Proof.
  unfold getModels, bind. rewrite refreshModelsIfNeeded_cases.
  destruct (refreshed r w) as [[[[]|e] r'] w']; reflexivity.
Qed.

Lemma getModel_cases (modelId : string) (r : Registry) (w : World) :
  getModel modelId r w =
    match refreshed r w with
    | (Ok _, r', w') => (one_info (models r') modelId, r', w')
    | (Thrown e, r', w') => (Thrown e, r', w')
    end.
Proof.
  unfold getModel, bind. rewrite refreshModelsIfNeeded_cases.
  destruct (refreshed r w) as [[[[]|e] r'] w']; [|reflexivity].
  unfold get_models, one_info.
  destruct (JsMap.get (models r') modelId) as [model|]; [|reflexivity].
  unfold lift, ret. destruct (transformModel model); reflexivity.
Qed.

Lemma read_cases (op : ReadOp) (r : Registry) (w : World) :
  read op r w = answered op r w.
Proof.
  unfold answered.
  destruct op as [|modelId|modelId|query|provider|limit];
    unfold read, validateModel, searchModels, getModelsByProvider, getTopModels, bind;
    rewrite ?getModels_cases, ?getModel_cases;
    destruct (refreshed r w) as [[[[]|e] r'] w']; try reflexivity;
    unfold answer, outcome_map, ret.
  - destruct (all_infos (models r')); reflexivity.
  - destruct (one_info (models r') modelId); reflexivity.
  - destruct (one_info (models r') modelId); reflexivity.
  - destruct (all_infos (models r')); reflexivity.
  - destruct (all_infos (models r')); reflexivity.
  - destruct (all_infos (models r')); reflexivity.
Qed.

(** C5.  Each of the six reads looks at the clock once and then: on an
    empty catalog, or one refreshed more than five minutes before, makes
    exactly one upstream fetch; otherwise makes none, leaves the registry
    as it is and answers from the map it holds. *)
Theorem read_fetches_once_iff_stale (op : ReadOp) (r : Registry) (w : World) :
  let '(result, r', w') := read op r w in
  if (JsMap.size (models r) =? 0) || (clock w (ticks w) - lastUpdated r >? 5 * 60 * 1000)
  then fetches w' = S (fetches w)
  else fetches w' = fetches w /\ r' = r /\ result = answer op (models r).
Proof.
  rewrite read_cases. unfold answered, refreshed.
  change ((JsMap.size (models r) =? 0)
          || (clock w (ticks w) - lastUpdated r >? 5 * 60 * 1000))
    with (stale r (clock w (ticks w))).
  destruct (stale r (clock w (ticks w))).
  - destruct (upstream w (fetches w)); reflexivity.
  - repeat split.
Qed.

(** C7.  When the upstream fetch fails, [refreshModels] throws the error
    it got and the registry is the one it started from, map and
    timestamp; so does every read that finds the catalog stale. *)
Theorem refresh_failure_keeps_snapshot
        (r : Registry) (w : World) (e : string) (op : ReadOp) :
  upstream w (fetches w) = Thrown e ->
  refreshModels r w = (Thrown e, r, advanced w 0 1) /\
  (stale r (clock w (ticks w)) = true ->
   read op r w = (Thrown e, r, advanced w 1 1)).
Proof.
  intros U. split.
  - now apply refreshModels_failure.
  - intros S. rewrite read_cases. unfold answered, refreshed. now rewrite S, U.
Qed.

(** C10.  Once the freshness-driven refresh is through, for an identifier
    the map does not hold the four metadata reads return [0], [false],
    the empty list and the absent value, in the registry and world that
    refresh alone leaves behind. *)
Theorem metadata_defaults_for_absent_model
        (modelId : string) (r r' : Registry) (w w' : World) :
  refreshModelsIfNeeded r w = (Ok tt, r', w') ->
  JsMap.get (models r') modelId = None ->
  getModelContextLength modelId r w = (Ok 0, r', w') /\
  isModelModerated modelId r w = (Ok false, r', w') /\
  getSupportedParameters modelId r w = (Ok [], r', w') /\
  getModelPricing modelId r w = (Ok None, r', w') /\
  (fetches w' <= S (fetches w))%nat.
Proof.
  intros R A.
  assert (getModel modelId r w = (Ok None, r', w')) as G.
  { rewrite getModel_cases. rewrite refreshModelsIfNeeded_cases in R. rewrite R.
    unfold one_info. now rewrite A. }
  unfold getModelContextLength, isModelModerated, getSupportedParameters,
    getModelPricing, bind.
  rewrite G. repeat split.
  rewrite refreshModelsIfNeeded_cases in R. unfold refreshed in R.
  destruct (stale r (clock w (ticks w))).
  - destruct (upstream w (fetches w)); inversion R; subst; simpl; lia.
  - inversion R; subst; simpl; lia.
Qed.

End RegistryFacts.

Section RegistryExamples.
Import ModelRegistry.

(** A failed refresh over a snapshot of one model. *)
Lemma refresh_failure_keeps_snapshot_witness :
  refreshModels Scenarios.one_model Scenarios.upstream_down
    = (Thrown "upstream unavailable", Scenarios.one_model,
       advanced Scenarios.upstream_down 0 1) /\
  read GetModels Scenarios.one_model Scenarios.upstream_down
    = (Thrown "upstream unavailable", Scenarios.one_model,
       advanced Scenarios.upstream_down 1 1).
Proof.
  destruct (refresh_failure_keeps_snapshot
              Scenarios.one_model Scenarios.upstream_down GetModels eq_refl) as [A B].
  split; [exact A | exact (B eq_refl)].
Defined.

(** The first read after startup, for a model upstream does not list. *)
Lemma metadata_defaults_for_absent_model_witness :
  getModelContextLength "acme/unknown" initial Scenarios.upstream_up
    = (Ok 0, mkRegistry [("openai/gpt-4", Scenarios.entry "openai/gpt-4" 8192)] 1000,
       advanced Scenarios.upstream_up 2 1) /\
  isModelModerated "acme/unknown" initial Scenarios.upstream_up
    = (Ok false, mkRegistry [("openai/gpt-4", Scenarios.entry "openai/gpt-4" 8192)] 1000,
       advanced Scenarios.upstream_up 2 1).
Proof.
  destruct (metadata_defaults_for_absent_model "acme/unknown"
              initial Scenarios.upstream_up eq_refl eq_refl) as (A & B & _).
  split; [exact A | exact B].
Defined.

(** The requirement as worded: for an identifier that neither the held
    map nor the catalog upstream serves has, the four metadata reads
    return their defaults, whatever the state of the registry and of
    upstream. *)
Definition metadata_reads_never_fail : Prop :=
  forall (modelId : string) (r : Registry) (w : World),
    JsMap.get (models r) modelId = None ->
    (forall fetched, upstream w (fetches w) = Ok fetched ->
                     JsMap.get (install fetched) modelId = None) ->
    exists r' w',
      getModelContextLength modelId r w = (Ok 0, r', w') /\
      isModelModerated modelId r w = (Ok false, r', w') /\
      getSupportedParameters modelId r w = (Ok [], r', w') /\
      getModelPricing modelId r w = (Ok None, r', w').

(** C10, as worded, fails: on the empty catalog with upstream down, the
    refresh the read starts throws, and the read of the context length of
    an identifier no catalog has throws with it. *)
Lemma metadata_reads_can_fail : ~ metadata_reads_never_fail.
Proof.
  intros H.
  destruct (H "acme/unknown" initial Scenarios.upstream_down eq_refl)
    as (r' & w' & C & _).
  - intros fetched U. discriminate U.
  - discriminate C.
Qed.

(** First access fetches once; a second access within the window does
    not fetch; an access after the window fetches once more. *)
Example catalog_fetch_counts :
  let '(_, r1, w1) := read GetModels initial Scenarios.upstream_up in
  let '(_, r2, w2) := read (ValidateModel "openai/gpt-4") r1 w1 in
  let later := mkWorld (fun _ => 400000) (ticks w2) (upstream w2) (fetches w2) in
  let '(_, r3, w3) := read GetModels r2 later in
  fetches w1 = 1%nat /\ fetches w2 = 1%nat /\ fetches w3 = 2%nat.
Proof. repeat split. Qed.

End RegistryExamples.

(* ------------------------------------------------------------------------- *)
(** ** Readers that overlap *)

Section SingleFlight.
Import ModelRegistry.

(** The requirement: however readers and replies interleave, at most one
    catalog fetch is awaiting its reply. *)
Definition single_flight : Prop :=
  forall evs : list Event, (inFlight (steps (mkShared initial 0 0) evs) <= 1)%nat.

(** C6, as stated, fails: two readers that arrive on the empty catalog
    before any reply have two fetches in flight. *)
Lemma single_flight_fails : ~ single_flight.
Proof.
  intros H. specialize (H [ReaderArrives 0; ReaderArrives 0]).
  vm_compute in H. lia.
Qed.

Lemma stale_empty (r : Registry) (now : Z) :
  JsMap.size (models r) = 0 -> stale r now = true.
Proof.
  intros E. unfold stale. rewrite E. reflexivity.
Qed.

(** The test of a reader does not look at the fetches in flight: on a
    stale catalog it issues one more. *)
Lemma reader_on_stale_catalog (s : Shared) (now : Z) :
  stale (registry s) now = true ->
  step s (ReaderArrives now) = mkShared (registry s) (S (inFlight s)) (S (issued s)).
Proof.
  intros E. unfold step. now rewrite E.
Qed.

(** C6, amended.  Readers that arrive while the catalog is stale (empty,
    or older than the window at their arrival) and before any reply each
    issue a fetch of their own: after [n] of them, [n] more fetches are in
    flight and the catalog is as before. *)
Theorem every_reader_fetches (s : Shared) (times : list Z) :
  Forall (fun now => stale (registry s) now = true) times ->
  let s' := steps s (map ReaderArrives times) in
  inFlight s' = (inFlight s + List.length times)%nat /\
  issued s' = (issued s + List.length times)%nat /\
  registry s' = registry s.
Proof.
  revert s. induction times as [|now times IH]; intros s F;
    unfold steps in *; cbn [map fold_left List.length].
  - repeat split; lia.
  - inversion F as [|? ? Hnow Hrest]; subst.
    rewrite reader_on_stale_catalog by exact Hnow.
    specialize (IH (mkShared (registry s) (S (inFlight s)) (S (issued s))) Hrest).
    cbn [registry inFlight issued] in IH.
    destruct IH as (A & B & C). repeat split; [lia | lia | exact C].
Qed.

(** Three readers on the empty catalog of a fresh process. *)
Lemma every_reader_fetches_witness :
  inFlight (steps (mkShared initial 0 0) (map ReaderArrives [0; 5; 9])) = 3%nat.
Proof.
  destruct (@every_reader_fetches (mkShared initial 0 0) [0; 5; 9]
              ltac:(repeat constructor)) as (A & _).
  exact A.
Defined.

(** Two readers on a catalog of one model fetched more than five minutes
    before. *)
Example aged_catalog_two_fetches :
  inFlight (steps (mkShared Scenarios.one_model 0 0)
                  [ReaderArrives 3600000; ReaderArrives 3600001]) = 2%nat.
Proof. reflexivity. Qed.

(** A reader alone: its arrival followed by the reply is what
    [refreshModelsIfNeeded] does to the registry. *)
Lemma alone_reader_is_sequential (r : Registry) (w : World) (fetched : list Model.t) :
  stale r (clock w (ticks w)) = true ->
  upstream w (fetches w) = Ok fetched ->
  registry (steps (mkShared r 0 0)
              [ReaderArrives (clock w (ticks w));
               FetchResolves fetched (clock w (S (ticks w)))])
    = snd (fst (refreshModelsIfNeeded r w)).
Proof.
  intros S U. rewrite refreshModelsIfNeeded_cases. unfold refreshed.
  rewrite S, U. unfold steps. cbn [fold_left].
  rewrite reader_on_stale_catalog by exact S. reflexivity.
Qed.

End SingleFlight.

(* ------------------------------------------------------------------------- *)
(** ** The duplex sessions *)

Section SessionFacts.
Import JsString WebSocketController.

Lemma stats_modify f connectionId (c : Controller) :
  stats (modify f connectionId c) = stats c.
Proof.
  unfold modify. destruct (JsMap.get (connections c) connectionId); reflexivity.
Qed.

Lemma timers_modify f connectionId (c : Controller) :
  timers (modify f connectionId c) = timers c.
Proof.
  unfold modify. destruct (JsMap.get (connections c) connectionId); reflexivity.
Qed.

Lemma keys_modify f connectionId (c : Controller) :
  JsMap.keys (connections (modify f connectionId c)) = JsMap.keys (connections c).
Proof.
  unfold modify. destruct (JsMap.get (connections c) connectionId) eqn:E; [|reflexivity].
  cbn [connections]. apply keys_set_present. congruence.
Qed.

Lemma get_modify_same f connectionId (c : Controller) (x : WebSocketConnection) :
  JsMap.get (connections c) connectionId = Some x ->
  JsMap.get (connections (modify f connectionId c)) connectionId = Some (f x).
Proof.
  intros E. unfold modify. rewrite E. cbn [connections]. apply get_set_same.
Qed.

(** *** The heartbeat sweep *)

Definition timed_out (now : Z) (entry : string * WebSocketConnection) : bool :=
  now - lastActivity (snd entry) >? timeout.

Lemma sweep_entry_eq (now : Z) (clients : nat) (c : Controller) (pings : nat)
      (k : string) (x : WebSocketConnection) :
  sweep_entry now clients (c, pings) (k, x) =
    if timed_out now (k, x)
    then (with_stats drop_active (modify (set_isActive false) k c), pings)
    else if isActive x then (c, (pings + clients)%nat) else (c, pings).
Proof. reflexivity. Qed.

Lemma sweep_fold (now : Z) (clients : nat)
      (entries : list (string * WebSocketConnection)) (c : Controller) (pings : nat) :
  let c' := fst (fold_left (sweep_entry now clients) entries (c, pings)) in
  activeConnections (stats c')
    = activeConnections (stats c)
      - Z.of_nat (List.length (filter (timed_out now) entries)) /\
  JsMap.keys (connections c') = JsMap.keys (connections c) /\
  timers c' = timers c.
Proof.
  revert c pings. induction entries as [|[k x] entries IH]; intros c pings.
  - cbn. repeat split. lia.
  - cbn zeta. cbn [fold_left filter]. rewrite sweep_entry_eq.
    destruct (timed_out now (k, x)).
    + specialize (IH (with_stats drop_active (modify (set_isActive false) k c)) pings).
      cbn zeta in IH. destruct IH as (A & B & C).
      rewrite A, B, C. cbn [with_stats stats connections timers drop_active
                            activeConnections List.length].
      rewrite stats_modify, keys_modify, timers_modify. repeat split. lia.
    + destruct (isActive x); apply IH.
Qed.

(** X30.  Every sweep lowers the active count by the number of records whose
    last activity is more than a minute old, whether or not a record was
    already inactive, and deletes no record. *)
Lemma startHeartbeat_tick_counts (now : Z) (clients : nat) (c : Controller) :
  let c' := fst (startHeartbeat_tick now clients c) in
  activeConnections (stats c')
    = activeConnections (stats c)
      - Z.of_nat (List.length (filter (timed_out now) (connections c))) /\
  JsMap.keys (connections c') = JsMap.keys (connections c).
Proof.
  unfold startHeartbeat_tick, JsMap.entries.
  destruct (sweep_fold now clients (connections c) c O) as (A & B & _).
  split; assumption.
Qed.

(** C4.  One session connects at time 0 and stays silent.  The sweep
    just after the minute marks it inactive and takes the active count
    from 1 to 0; the next sweep, thirty seconds later, takes it to -1.
    The record is in the map throughout. *)
Theorem heartbeat_decrements_on_every_sweep :
  let c0 := Scenarios.silent in
  let c1 := fst (startHeartbeat_tick 60001 1 c0) in
  let c2 := fst (startHeartbeat_tick 90001 1 c1) in
  activeConnections (stats c0) = 1 /\
  activeConnections (stats c1) = 0 /\
  activeConnections (stats c2) = -1 /\
  option_map isActive (JsMap.get (connections c1) "conn-1") = Some false /\
  option_map isActive (JsMap.get (connections c2) "conn-1") = Some false.
Proof. repeat split. Qed.

(** *** Disconnection and the grace period *)

(** A disconnection marks the record inactive, lowers the active count by
    one, and schedules the deletion thirty seconds later; the record stays
    in the map. *)
Lemma handleDisconnection_keeps_record (connectionId : string) (now : Z)
      (c : Controller) (x : WebSocketConnection) :
  JsMap.get (connections c) connectionId = Some x ->
  let c' := handleDisconnection connectionId now c in
  JsMap.get (connections c') connectionId = Some (set_isActive false x) /\
  activeConnections (stats c') = activeConnections (stats c) - 1 /\
  timers c' = (timers c ++ [(now + 30000, connectionId)])%list.
Proof.
  intros G. unfold handleDisconnection. rewrite G. cbn zeta.
  cbn [connections stats timers activeConnections]. repeat split.
  apply get_set_same.
Qed.

(** The transport of the silent session closes at 70 s: the record is
    there at 99.999 s and gone at 100 s; by then the sweeps and the
    disconnection have taken the active count from 1 to -2. *)
Example silent_session_lifetime :
  let c1 := fst (startHeartbeat_tick 60001 1 Scenarios.silent) in
  let c2 := handleDisconnection "conn-1" 70000 c1 in
  let c3 := fst (startHeartbeat_tick 90001 1 c2) in
  JsMap.keys (connections (run_timers 99999 c3)) = ["conn-1"] /\
  JsMap.keys (connections (run_timers 100000 c3)) = [] /\
  activeConnections (stats c3) = -2.
Proof. repeat split. Qed.

(** *** One request at a time? *)

(** The requirement: on a session that has a request in flight, an
    inference request, even one for a model the registry accepts, starts
    no upstream call and is answered by a validation error. *)
Definition rejects_second_request : Prop :=
  forall (JSON_parse : string -> option Json.value) (ToString : Json.value -> string)
         (connectionId : string) (m : Inbound)
         (upstream : Outcome InferenceController.Stream)
         (r : Run) (c : WebSocketConnection) (inflight : string),
    JsMap.get (connections (ctl r)) connectionId = Some c ->
    currentRequestId c = Some inflight ->
    type m = T_inference_request ->
    let r' := handleInferenceRequest JSON_parse ToString connectionId m (Ok true) upstream r in
    upstreamCalls r' = upstreamCalls r /\
    exists code message details,
      In (ErrorMessage connectionId code message "validation" details) (sent (ws r')).

(** C3, as stated, fails: with [req-1] in flight on the session, the
    request [req-2] is handed to the upstream service and no error is
    sent. *)
Lemma second_request_not_rejected : ~ rejects_second_request.
Proof.
  intros H.
  specialize (H (fun _ => None) (fun _ => EmptyString) "conn-1"
                Scenarios.second_request
                (Ok (InferenceController.mkStream [] None))
                Scenarios.busy Scenarios.busy_connection "req-1"
                eq_refl eq_refl eq_refl).
  destruct H as [H _]. vm_compute in H. discriminate.
Qed.

(** C3, amended.  Whatever the outstanding request of the session, an
    inference request for a model the registry accepts passes the entry
    of the handler, becomes the outstanding request of the session, and is
    handed to the upstream service; nothing is sent to the client at
    that point. *)
Theorem second_request_is_started
        (connectionId : string) (m : Inbound) (d : RequestData)
        (r : Run) (c : WebSocketConnection) :
  JsMap.get (connections (ctl r)) connectionId = Some c ->
  data m = Some d ->
  handleInferenceRequest_begin connectionId m r = Await r /\
  exists r',
    handleInferenceRequest_validated connectionId m (Ok true) r = Await r' /\
    upstreamCalls r' = (upstreamCalls r ++ [d])%list /\
    ws r' = ws r /\
    JsMap.get (connections (ctl r')) connectionId
      = Some (set_currentRequestId (Some (msg_id m)) c).
Proof.
  intros G D. split.
  - unfold handleInferenceRequest_begin. now rewrite G, D.
  - unfold handleInferenceRequest_validated. rewrite D.
    eexists. split; [reflexivity|].
    cbn [upstreamCalls ws ctl with_ctl]. repeat split.
    now apply get_modify_same.
Qed.

Lemma second_request_is_started_witness :
  exists r',
    handleInferenceRequest_validated "conn-1" Scenarios.second_request (Ok true)
                                     Scenarios.busy = Await r' /\
    upstreamCalls r' = [Scenarios.second_data] /\
    ws r' = open_socket /\
    JsMap.get (connections (ctl r')) "conn-1"
      = Some (set_currentRequestId (Some "req-2") Scenarios.busy_connection).
Proof.
  destruct (second_request_is_started "conn-1" Scenarios.second_request
              Scenarios.busy eq_refl eq_refl) as [_ H].
  exact H.
Defined.

End SessionFacts.

(* ------------------------------------------------------------------------- *)
(** ** The identifier of error messages *)

Section ErrorIds.
Import JsString WebSocketController.

Variable JSON_parse : string -> option Json.value.
Variable ToString : Json.value -> string.
Variable connectionId : string.

(** An error message carries the identifier of the connection. *)
Definition addressed (m : Outbound) : Prop :=
  match m with
  | ErrorMessage i _ _ _ _ => i = connectionId
  | _ => True
  end.

(** [ws'] has what [ws] had sent, then messages that are [addressed]. *)
Definition extends (ws ws' : Socket) : Prop :=
  exists new, sent ws' = (sent ws ++ new)%list /\ Forall addressed new.

Lemma extends_refl (ws : Socket) : extends ws ws.
Proof. exists []. split; [now rewrite app_nil_r | constructor]. Qed.

Lemma extends_trans (a b c : Socket) : extends a b -> extends b c -> extends a c.
Proof.
  intros (n1 & E1 & F1) (n2 & E2 & F2). exists (n1 ++ n2)%list. split.
  - now rewrite E2, E1, app_assoc.
  - apply Forall_app. now split.
Qed.

Lemma extends_sendMessage (ws : Socket) (m : Outbound) :
  addressed m -> extends ws (sendMessage ws m).
Proof.
  intros A. unfold sendMessage. destruct (isOpen ws).
  - exists [m]. split; [reflexivity | now constructor].
  - apply extends_refl.
Qed.

Lemma extends_sendError (ws : Socket) (e : ErrorInfo) :
  extends ws (sendError ws connectionId e).
Proof. apply extends_sendMessage. reflexivity. Qed.

Lemma extends_close (ws : Socket) (code : Z) (reason : string) :
  extends ws (ws_close ws code reason).
Proof. exists []. split; [cbn; now rewrite app_nil_r | constructor]. Qed.

Create HintDb session.
#[local] Hint Resolve extends_refl extends_sendError extends_close : session.

Lemma extends_on_failure (e : string) (r : Run) :
  extends (ws r) (ws (on_failure connectionId e r)).
Proof. unfold on_failure. cbn [ws with_ws with_ctl]. auto with session. Qed.

Lemma extends_forward_line (requestId : string) (content : string) (ws : Socket)
      (line : string) :
  extends ws (snd (forward_line JSON_parse ToString requestId (content, ws) line)).
Proof.
  unfold forward_line.
  destruct (String.eqb (trim line) EmptyString); [apply extends_refl|].
  destruct (JSON_parse line) as [parsed|]; [|apply extends_refl].
  destruct (InferenceController.delta_content parsed); [|apply extends_refl].
  cbn [snd]. apply extends_sendMessage. exact I.
Qed.

Lemma extends_forward_lines (requestId : string) (lines : list string)
      (content : string) (ws : Socket) :
  extends ws (snd (fold_left (forward_line JSON_parse ToString requestId) lines
                             (content, ws))).
Proof.
  revert content ws. induction lines as [|line lines IH]; intros content ws.
  - apply extends_refl.
  - cbn [fold_left].
    pose proof (extends_forward_line requestId content ws line) as E.
    destruct (forward_line JSON_parse ToString requestId (content, ws) line)
      as [content' ws'].
    eapply extends_trans; [exact E | apply IH].
Qed.

Lemma extends_forward (requestId : string) (chunks : list string)
      (content : string) (ws : Socket) :
  extends ws (snd (forward JSON_parse ToString requestId chunks (content, ws))).
Proof.
  unfold forward. revert content ws.
  induction chunks as [|chunk chunks IH]; intros content ws.
  - apply extends_refl.
  - cbn [fold_left]. unfold forward_chunk at 2.
    pose proof (extends_forward_lines requestId (split "010" chunk) content ws) as E.
    destruct (fold_left _ (split "010" chunk) (content, ws)) as [content' ws'].
    eapply extends_trans; [exact E | apply IH].
Qed.

Lemma extends_handleInferenceRequest (m : Inbound) (modelExists : Outcome bool)
      (upstream : Outcome InferenceController.Stream) (r : Run) :
  extends (ws r)
          (ws (handleInferenceRequest JSON_parse ToString connectionId m
                                      modelExists upstream r)).
Proof.
  unfold handleInferenceRequest, handleInferenceRequest_begin.
  destruct (JsMap.get (connections (ctl r)) connectionId); [|apply extends_refl].
  destruct (data m) as [d|] eqn:D; [|apply extends_on_failure].
  unfold handleInferenceRequest_validated. rewrite D.
  destruct modelExists as [[|]|e].
  - unfold handleInferenceRequest_streamed. cbn [ws with_ctl].
    destruct upstream as [stream|e].
    + pose proof (extends_forward (msg_id m) (InferenceController.chunks stream)
                                  EmptyString (ws r)) as E.
      destruct (forward _ _ _ _ _) as [content ws'].
      destruct (InferenceController.failure stream).
      * eapply extends_trans; [exact E|].
        eapply extends_trans; [|apply extends_on_failure].
        cbn. apply extends_refl.
      * exact E.
    + eapply extends_trans; [|apply extends_on_failure]. apply extends_refl.
  - cbn [ws with_ws]. auto with session.
  - apply extends_on_failure.
Qed.

(** C9.  Whatever the frame and whatever the awaited calls settle to,
    everything [handleMessage] sends comes after what the socket had sent,
    and every error message in it has the connection identifier as its
    [id]. *)
Theorem error_messages_carry_connection_id
        (frame : Frame) (now : Z) (modelExists : Outcome bool)
        (upstream : Outcome InferenceController.Stream) (r : Run) :
  exists new,
    sent (ws (handleMessage JSON_parse ToString connectionId frame now
                            modelExists upstream r))
      = (sent (ws r) ++ new)%list /\
    Forall (fun m => match m with
                     | ErrorMessage i _ _ _ _ => i = connectionId
                     | _ => True
                     end) new.
Proof.
  change (extends (ws r)
            (ws (handleMessage JSON_parse ToString connectionId frame now
                               modelExists upstream r))).
  unfold handleMessage.
  destruct (JsMap.get (connections (ctl r)) connectionId); [|apply extends_refl].
  set (r2 := with_ctl (with_stats count_message)
               (with_ctl (modify (set_lastActivity now) connectionId) r)).
  assert (ws r2 = ws r) as W by reflexivity. rewrite <- W. clearbody r2.
  destruct frame as [|e|m].
  - cbn [ws with_ws with_ctl]. auto with session.
  - cbn [ws with_ws with_ctl]. auto with session.
  - unfold processMessage.
    destruct (JsMap.get (connections (ctl r2)) connectionId); [|apply extends_refl].
    destruct (type m).
    + apply extends_handleInferenceRequest.
    + cbn [ws with_ws with_ctl]. auto with session.
    + cbn [ws with_ws with_ctl]. auto with session.
    + unfold handleHeartbeat. cbn [ws with_ws with_ctl].
      apply extends_sendMessage. exact I.
    + unfold handleClose. cbn [ws with_ws with_ctl]. auto with session.
Qed.

End ErrorIds.

Section ErrorIdExample.
Import WebSocketController.

(** A request [req-2] for a model the registry does not know: the error
    the client gets is labelled [conn-1]. *)
Example error_for_request_names_connection :
  sent (ws (handleMessage (fun _ => None) (fun _ => EmptyString) "conn-1"
              (Accepted Scenarios.second_request) 5 (Ok false)
              (Thrown "unused") Scenarios.busy))
    = [ErrorMessage "conn-1" 400 "Model 'openai/gpt-4' not found or not supported"
                    "validation" None].
Proof. reflexivity. Qed.

End ErrorIdExample.

(* ========================================================================= *)
(** * Further properties of the code *)

From Stdlib Require Import Permutation Sorted.

(* ------------------------------------------------------------------------- *)
(** ** How the decoder ends a stream *)

Section DecoderTermination.
Import JsString OpenRouterService.

Variable JSON_parse : string -> option Json.value.
Variable JSON_stringify : Json.value -> string.

(** With the underlying source as receiver, a line that is not the
    sentinel changes nothing. *)
Lemma line_steps_unbound (lines : list string) (c : Controller) :
  fold_left (line_step JSON_parse JSON_stringify TheUnderlyingSource) lines c = c.
Proof.
  induction lines as [|l lines IH]; [reflexivity|].
  cbn [fold_left]. unfold line_step at 2.
  destruct (startsWith (trim l) "data: "); [rewrite try_enqueue_unbound|]; exact IH.
Qed.

(** Groups of ordinary lines run through, whatever the receiver. *)
Lemma run_groups_ordinary (this : Receiver) (groups : list (list string))
      (c : Controller) :
  ordinary (List.concat groups) = true ->
  run_groups JSON_parse JSON_stringify this groups c
    = Returned (fold_left (line_step JSON_parse JSON_stringify this)
                          (List.concat groups) c).
Proof.
  revert c. induction groups as [|g gs IH]; intros c O; [reflexivity|].
  cbn [List.concat] in *. rewrite ordinary_app in O. apply andb_true_iff in O.
  destruct O as [Og Ogs]. cbn [run_groups].
  rewrite process_lines_ordinary by exact Og.
  rewrite fold_left_app. now apply IH.
Qed.

(** Events in sequence. *)
Lemma run_app (this : Receiver) (first second : list SourceEvent) (d : Decoder) :
  run JSON_parse JSON_stringify this (first ++ second) d
    = match run JSON_parse JSON_stringify this first d with
      | Returned d' => run JSON_parse JSON_stringify this second d'
      | Threw d' => Threw d'
      end.
Proof.
  revert d. induction first as [|ev first IH]; intros d; [reflexivity|].
  cbn [app OpenRouterService.run].
  destruct (listener JSON_parse JSON_stringify this d ev); [apply IH | reflexivity].
Qed.

(** X2.  A body in which no complete line is the sentinel leaves the
    stream open, however it is cut into chunks; the text after the last line
    feed waits in the buffer, unparsed, and when the upstream body ends the
    stream is closed with that text dropped. *)
Theorem body_without_sentinel (chunks : list string) :
  ordinary (lines_of (concat_text chunks)) = true ->
  transformStreamingResponse JSON_parse JSON_stringify (map Data chunks)
    = Returned (mkDecoder (buffer_of (concat_text chunks)) fresh_controller) /\
  transformStreamingResponse JSON_parse JSON_stringify (map Data chunks ++ [End])
    = Returned (mkDecoder (buffer_of (concat_text chunks))
                          (mkController [] true None)).
Proof.
  intros O. unfold transformStreamingResponse.
  destruct (@groups_concat chunks EmptyString eq_refl) as [G B].
  cbn [append] in G, B.
  assert (run JSON_parse JSON_stringify TheUnderlyingSource (map Data chunks)
              (mkDecoder EmptyString fresh_controller)
          = Returned (mkDecoder (buffer_of (concat_text chunks)) fresh_controller)) as R.
  { rewrite <- B. apply run_data_groups.
    rewrite run_groups_ordinary by (rewrite G; exact O).
    now rewrite line_steps_unbound. }
  split; [exact R|].
  rewrite run_app, R. reflexivity.
Qed.

(** X3.  A body whose complete lines hold one sentinel closes the stream
    at that line, however the body is cut into chunks, and without any chunk
    having been enqueued; the end of the upstream body then makes the [end]
    listener close the stream a second time, which throws out of the
    listener. *)
Theorem body_with_sentinel (chunks : list string) (pre post : list string)
        (s : string) :
  lines_of (concat_text chunks) = (pre ++ s :: post)%list ->
  ordinary pre = true -> sentinel s = true -> ordinary post = true ->
  transformStreamingResponse JSON_parse JSON_stringify (map Data chunks)
    = Returned (mkDecoder (buffer_of (concat_text chunks))
                          (mkController [] true None)) /\
  transformStreamingResponse JSON_parse JSON_stringify (map Data chunks ++ [End])
    = Threw (mkDecoder (buffer_of (concat_text chunks))
                       (mkController [] true None)).
Proof.
  intros L Opre S Opost. unfold transformStreamingResponse.
  destruct (@groups_concat chunks EmptyString eq_refl) as [G B].
  cbn [append] in G, B. rewrite L in G.
  assert (run JSON_parse JSON_stringify TheUnderlyingSource (map Data chunks)
              (mkDecoder EmptyString fresh_controller)
          = Returned (mkDecoder (buffer_of (concat_text chunks))
                                (mkController [] true None))) as R.
  { rewrite <- B. apply run_data_groups.
    rewrite (@run_groups_sentinel JSON_parse JSON_stringify TheUnderlyingSource
               _ pre post s fresh_controller eq_refl G Opre S Opost).
    now rewrite line_steps_unbound. }
  split; [exact R|].
  rewrite run_app, R. reflexivity.
Qed.

End DecoderTermination.

Section DecoderTerminationExamples.
Import JsString OpenRouterService.

(** A sentinel that arrives in two chunks and without its line feed does
    not close the stream; the end of the body does, and the text is dropped. *)
Lemma body_without_sentinel_witness :
  transformStreamingResponse Scenarios.parse_example (fun _ => EmptyString)
                             (map Data ["data: [DO"; "NE]"] ++ [End])
    = Returned (mkDecoder "data: [DONE]" (mkController [] true None)).
Proof.
  exact (proj2 (@body_without_sentinel Scenarios.parse_example (fun _ => EmptyString)
                  ["data: [DO"; "NE]"] eq_refl)).
Defined.

(** The three frames and the sentinel, in two chunks, then the end of the
    body. *)
Lemma body_with_sentinel_witness :
  transformStreamingResponse Scenarios.parse_example (fun _ => EmptyString)
      (map Data [substring 0 30 Scenarios.three_frames;
                 substring 30 300 Scenarios.three_frames] ++ [End])
    = Threw (mkDecoder EmptyString (mkController [] true None)).
Proof.
  exact (proj2 (@body_with_sentinel Scenarios.parse_example (fun _ => EmptyString)
                  [substring 0 30 Scenarios.three_frames;
                   substring 30 300 Scenarios.three_frames]
                  (frame_lines [ Scenarios.chunk_json "c1" "Hel";
                                 Scenarios.chunk_json "c2" "lo";
                                 Scenarios.chunk_json "c3" "!" ])
                  [EmptyString] "data: [DONE]" eq_refl eq_refl eq_refl eq_refl)).
Defined.

End DecoderTerminationExamples.

(* ------------------------------------------------------------------------- *)
(** ** What [transformStreamingChunk] accepts *)

Section ChunkFacts.
Import JsString OpenRouterService.

(** [null] and [undefined], off which no property can be read. *)
Definition nullish (v : Json.value) : bool :=
  match v with
  | Json.Undefined | Json.Null => true
  | _ => false
  end.

Lemma prop_nullish (v : Json.value) (k : string) :
  Json.prop v k = None <-> nullish v = true.
Proof.
  destruct v; cbn; try (split; discriminate); try (split; reflexivity).
  destruct (JsMap.get fields k); split; discriminate.
Qed.

Lemma mapM_length {A B} (f : A -> option B) (l : list A) (ys : list B) :
  mapM f l = Some ys -> List.length ys = List.length l.
Proof.
  revert ys. induction l as [|x l IH]; intros ys; cbn.
  - intros [= <-]. reflexivity.
  - destruct (f x); [|discriminate]. destruct (mapM f l); [|discriminate].
    intros [= <-]. cbn. now rewrite (IH l0).
Qed.

Definition succeeds {A} (o : option A) : bool :=
  match o with Some _ => true | None => false end.

Lemma mapM_succeeds {A B} (f : A -> option B) (l : list A) :
  (exists ys, mapM f l = Some ys) <-> forallb (fun x => succeeds (f x)) l = true.
Proof.
  induction l as [|x l IH]; cbn.
  - split; [reflexivity | intros _; now exists []].
  - destruct (f x) as [y|]; cbn.
    + rewrite <- IH. split.
      * intros [ys E]. destruct (mapM f l) as [zs|]; [now exists zs | discriminate].
      * intros [zs E]. rewrite E. now exists (y :: zs).
    + split; [intros [ys E]; discriminate | discriminate].
Qed.

Lemma transformChoice_succeeds (choice : Json.value) :
  succeeds (transformChoice choice) = negb (nullish choice).
Proof.
  unfold transformChoice.
  destruct (Json.prop choice "finish_reason") eqn:E.
  - destruct (nullish choice) eqn:N; [|reflexivity].
    rewrite (proj2 (prop_nullish choice "finish_reason") N) in E. discriminate.
  - apply prop_nullish in E. now rewrite E.
Qed.

(** X4.  [transformStreamingChunk] returns exactly when [chunk.choices] is
    an array none of whose entries is [null]; anything else is a
    [TypeError].  What it returns has one choice per choice of the chunk. *)
Theorem transformStreamingChunk_succeeds_iff (chunk : Json.value) :
  ((exists t, transformStreamingChunk chunk = Some t) <->
   (exists items, Json.prop chunk "choices" = Some (Json.Arr items) /\
                  forallb (fun c => negb (nullish c)) items = true)) /\
  (forall t, transformStreamingChunk chunk = Some t ->
     exists items choices,
       Json.prop chunk "choices" = Some (Json.Arr items) /\
       Json.prop t "choices" = Some (Json.Arr choices) /\
       List.length choices = List.length items).
Proof.
  assert (forall items, forallb (fun c => negb (nullish c)) items
                        = forallb (fun x => succeeds (transformChoice x)) items)
    as F.
  { intros items. induction items as [|c items IH]; [reflexivity|].
    cbn [forallb]. now rewrite transformChoice_succeeds, IH. }
  unfold transformStreamingChunk.
  destruct (Json.prop chunk "id") as [id|] eqn:I.
  - destruct (Json.prop chunk "choices") as [[| | | | |items|]|] eqn:C;
      try (split; [split; [intros [t E]; discriminate
                          | intros (items & E & _); discriminate]
                  | intros t E; discriminate]).
    split.
    + split.
      * intros [t E]. exists items. split; [reflexivity|].
        rewrite F. apply mapM_succeeds.
        destruct (mapM transformChoice items) as [cs|]; [now exists cs | discriminate].
      * intros (items' & [= <-] & A). rewrite F in A. apply mapM_succeeds in A.
        destruct A as [cs A]. rewrite A. eexists. reflexivity.
    + intros t E. destruct (mapM transformChoice items) as [cs|] eqn:M; [|discriminate].
      injection E as <-. exists items, cs. repeat split.
      now apply mapM_length in M.
  - apply prop_nullish in I.
    assert (Json.prop chunk "choices" = None) as C by now apply prop_nullish.
    split.
    + split; [intros [t E]; discriminate | intros (items & E & _); congruence].
    + intros t E. discriminate.
Qed.

End ChunkFacts.

(* ------------------------------------------------------------------------- *)
(** ** The single-shot response *)

Section ResponseFacts.
Import JsString OpenRouterService.

Lemma hasMessage_not_nullish (choice : Json.value) :
  hasMessage choice = true -> nullish choice = false.
Proof. destruct choice; cbn; congruence. Qed.

Lemma transformResponseChoice_succeeds (choice : Json.value) :
  succeeds (transformResponseChoice choice) = negb (nullish choice).
Proof.
  unfold transformResponseChoice.
  destruct (hasMessage choice) eqn:H.
  - now rewrite (hasMessage_not_nullish choice H).
  - destruct (Json.prop choice "finish_reason") eqn:E.
    + destruct (nullish choice) eqn:N; [|reflexivity].
      rewrite (proj2 (prop_nullish choice "finish_reason") N) in E. discriminate.
    + apply prop_nullish in E. now rewrite E.
Qed.

(** X5.  [transformResponse] returns exactly when [response.choices] is an
    array none of whose entries is [null]; anything else is a [TypeError].
    What it returns has one choice per choice of the response, and as usage
    the usage of the response, or three zeros when that is missing. *)
Theorem transformResponse_succeeds_iff (response : Json.value) :
  ((exists t, transformResponse response = Some t) <->
   (exists items, Json.prop response "choices" = Some (Json.Arr items) /\
                  forallb (fun c => negb (nullish c)) items = true)) /\
  (forall t, transformResponse response = Some t ->
     exists items choices,
       Json.prop response "choices" = Some (Json.Arr items) /\
       Json.prop t "choices" = Some (Json.Arr choices) /\
       List.length choices = List.length items /\
       Json.prop t "usage"
         = Some (if Json.truthy (Json.opt_prop response "usage")
                 then Json.opt_prop response "usage" else zero_usage)).
Proof.
  assert (forall items, forallb (fun c => negb (nullish c)) items
                        = forallb (fun x => succeeds (transformResponseChoice x)) items)
    as F.
  { intros items. induction items as [|c items IH]; [reflexivity|].
    cbn [forallb]. now rewrite transformResponseChoice_succeeds, IH. }
  unfold transformResponse.
  destruct (Json.prop response "id") as [id|] eqn:I.
  - destruct (Json.prop response "choices") as [[| | | | |items|]|] eqn:C;
      try (split; [split; [intros [t E]; discriminate
                          | intros (items & E & _); discriminate]
                  | intros t E; discriminate]).
    split.
    + split.
      * intros [t E]. exists items. split; [reflexivity|].
        rewrite F. apply mapM_succeeds.
        destruct (mapM transformResponseChoice items) as [cs|]; [now exists cs | discriminate].
      * intros (items' & [= <-] & A). rewrite F in A. apply mapM_succeeds in A.
        destruct A as [cs A]. rewrite A. eexists. reflexivity.
    + intros t E.
      destruct (mapM transformResponseChoice items) as [cs|] eqn:M; [|discriminate].
      injection E as <-. exists items, cs. repeat split.
      now apply mapM_length in M.
  - apply prop_nullish in I.
    assert (Json.prop response "choices" = None) as C by now apply prop_nullish.
    split.
    + split; [intros [t E]; discriminate | intros (items & E & _); congruence].
    + intros t E. discriminate.
Qed.

(** X6.  A choice with a message: its content is handed on when it is a
    non-empty string and replaced by [null] when it is the empty string; its
    role is handed on when it is a non-empty string and is [assistant]
    otherwise. *)
Theorem transformResponseChoice_message
        (choice message : Json.value) (content : string) (role : option string) :
  Json.prop choice "message" = Some message ->
  Json.truthy message = true ->
  Json.opt_prop message "content" = Json.Str content ->
  Json.opt_prop message "role"
    = match role with Some r => Json.Str r | None => Json.Undefined end ->
  exists out,
    transformResponseChoice choice = Some out /\
    Json.opt_prop (Json.opt_prop out "message") "content"
      = (if truthy content then Json.Str content else Json.Null) /\
    Json.opt_prop (Json.opt_prop out "message") "role"
      = Json.Str (OpenRouterService.or_text role "assistant").
Proof.
  intros P T C R.
  assert (hasMessage choice = true) as H.
  { destruct choice; cbn in P; try (injection P as <-; discriminate); try discriminate.
    cbn. destruct (JsMap.get fields "message") as [m|]; injection P as <-;
      [exact T | discriminate]. }
  assert (Json.opt_prop choice "message" = message) as M
    by (unfold Json.opt_prop; now rewrite P).
  unfold transformResponseChoice. rewrite H, M, C, R.
  eexists. split; [reflexivity|].
  unfold Json.or_else. cbn. split.
  - reflexivity.
  - destruct role as [r|]; cbn; [destruct (truthy r)|]; reflexivity.
Qed.

Lemma transformResponseChoice_message_witness :
  exists out,
    transformResponseChoice
      (Json.Obj [("finish_reason", Json.Str "stop");
                 ("message", Json.Obj [("content", Json.Str "Test response");
                                       ("role", Json.Str "assistant")])])
      = Some out /\
    Json.opt_prop (Json.opt_prop out "message") "content" = Json.Str "Test response" /\
    Json.opt_prop (Json.opt_prop out "message") "role" = Json.Str "assistant".
Proof.
  exact (@transformResponseChoice_message
           (Json.Obj [("finish_reason", Json.Str "stop");
                      ("message", Json.Obj [("content", Json.Str "Test response");
                                            ("role", Json.Str "assistant")])])
           (Json.Obj [("content", Json.Str "Test response");
                      ("role", Json.Str "assistant")])
           "Test response" (Some "assistant") eq_refl eq_refl eq_refl eq_refl).
Defined.

End ResponseFacts.

(* ------------------------------------------------------------------------- *)
(** ** The error handler of the HTTP surface *)

Section ErrorHandlerFacts.
Import JsString ErrorHandler.

Lemma plain_code (c : Z) (m t : string) :
  fst (plain c m t) = c /\ body_code (snd (plain c m t)) = c.
Proof. split; reflexivity. Qed.

(** X7.  For every error, whatever its code, the status of the response
    is the code written in its body; and for an error whose own code is
    missing or lies from 400 to 599 the status lies from 400 to 599. *)
Theorem errorHandler_status (development : bool) (error : ErrorWithCode) :
  let (status, body) := errorHandler development error in
  body_code body = status /\
  (match code error with
   | Some c => 400 <= c < 600
   | None => True
   end -> 400 <= status < 600).
Proof.
  unfold errorHandler, plain, code_or, http_code.
  destruct (has_type error "validation"); [cbn; split; [reflexivity | lia]|].
  destruct (has_type error "rate_limit"); [cbn; split; [reflexivity | lia]|].
  destruct (has_type error "openrouter").
  { split; [reflexivity|].
    destruct (code error) as [c|]; [destruct (Z.eqb_spec c 0)|]; cbn; lia. }
  destruct (has_type error "timeout"); [cbn; split; [reflexivity | lia]|].
  destruct (code error) as [c|].
  - destruct (Z.eqb_spec c 0) as [->|N0]; cbn [negb andb].
    + repeat match goal with
             | |- context [if ?b then _ else _] =>
                 destruct b; [cbn; split; [reflexivity | lia]|]
             end.
      cbn. split; [reflexivity | lia].
    + destruct (Z.geb_spec c 400); cbn [andb];
        [destruct (Z.ltb_spec c 600)|];
        repeat match goal with
               | |- context [if ?b then _ else _] =>
                   destruct b; [cbn; split; [reflexivity | lia]|]
               end;
        cbn; (split; [reflexivity | lia]).
  - cbn [andb].
    repeat match goal with
           | |- context [if ?b then _ else _] =>
               destruct b; [cbn; split; [reflexivity | lia]|]
           end.
    cbn. split; [reflexivity | lia].
Qed.

(** An error with no code and no type: 500; and one whose code, 700, is no
    HTTP error status: the status and the body both carry 700. *)
Lemma errorHandler_status_witness :
  (let (status, body) :=
     errorHandler false (mkErrorWithCode "Error" "boom" None None None None) in
   body_code body = status /\ 400 <= status < 600) /\
  (let (status, body) :=
     errorHandler false (mkErrorWithCode "Error" "boom" (Some 700) None None None) in
   body_code body = status).
Proof.
  split.
  - destruct (@errorHandler_status false
                (mkErrorWithCode "Error" "boom" None None None None)) as [E R].
    split; [exact E | exact (R I)].
  - exact (proj1 (@errorHandler_status false
                    (mkErrorWithCode "Error" "boom" (Some 700) None None None))).
Defined.

(** X8.  What the caller of the HTTP surface sees of a failure of the
    upstream call: the upstream status and message (502 for a status of 0)
    under the type [openrouter] when a response came; 408 and the type
    [timeout] when the request got no response; and otherwise 500 under the
    type [http_error], not [internal]. *)
Theorem upstream_failure_response
        (development : bool) (error : OpenRouterService.ClientError)
        (stack : option string) :
  let (status, body) :=
    errorHandler development (of_service (OpenRouterService.handleError error) stack) in
  match OpenRouterService.response error with
  | Some r =>
      status = (if OpenRouterService.status r =? 0 then 502
                else OpenRouterService.status r) /\
      body_type body = "openrouter" /\
      body_message body
        = OpenRouterService.or_text (OpenRouterService.upstream_message r)
                                    "OpenRouter API error" /\
      body_metadata body = OpenRouterService.upstream_metadata r
  | None =>
      if OpenRouterService.request error
      then status = 408 /\ body_type body = "timeout" /\
           body_message body = "Request timeout"
      else status = 500 /\ body_type body = "http_error" /\
           body_message body
             = OpenRouterService.or_text (Some (OpenRouterService.client_message error))
                                         "Unknown OpenRouter error"
  end.
Proof.
  unfold OpenRouterService.handleError.
  destruct (OpenRouterService.response error) as [r|].
  - unfold errorHandler, of_service, has_type, code_or. cbn.
    repeat split.
    unfold or_message, OpenRouterService.or_text.
    destruct (OpenRouterService.upstream_message r) as [m|]; [|reflexivity].
    destruct m; reflexivity.
  - destruct (OpenRouterService.request error).
    + repeat split.
    + unfold errorHandler, of_service, has_type, http_code, code_or. cbn.
      repeat split.
      unfold or_message, OpenRouterService.or_text.
      destruct (OpenRouterService.client_message error); reflexivity.
Qed.

End ErrorHandlerFacts.

(* ------------------------------------------------------------------------- *)
(** ** The connection limiter *)

Section RateLimitingFacts.
Import RateLimiting.

(** Attempts of one caller at the given times, one after the other: the
    verdicts and the store after the last. *)
Fixpoint attempts (connectionId : string) (maxConnections : Z) (times : list Z)
         (requestCounts : Store) : list bool * Store :=
  match times with
  | [] => ([], requestCounts)
  | now :: rest =>
      let (verdict, after) :=
        websocketRateLimiter connectionId maxConnections now requestCounts in
      let (verdicts, final) := attempts connectionId maxConnections rest after in
      (verdict :: verdicts, final)
  end.

Lemma map_seq_shift {A} (f : nat -> A) (n : nat) :
  map f (seq 1 n) = map (fun i => f (S i)) (seq 0 n).
Proof. rewrite <- seq_shift, map_map. reflexivity. Qed.

(** Inside a window that holds [k] attempts, the next ones are admitted
    until the count reaches the bound. *)
Lemma attempts_in_window (connectionId : string) (maxConnections : Z)
      (times : list Z) (requestCounts : Store) (k reset : Z) :
  JsMap.get requestCounts ("ws:" ++ connectionId) = Some (mkLimit k reset) ->
  Forall (fun now => now <= reset) times ->
  fst (attempts connectionId maxConnections times requestCounts)
    = map (fun i => k + Z.of_nat i <? maxConnections) (seq 0 (List.length times)).
Proof.
  revert requestCounts k. induction times as [|now times IH]; intros store k G F.
  - reflexivity.
  - inversion F as [|? ? Hnow Hrest]; subst.
    cbn [attempts List.length seq map]. unfold websocketRateLimiter. rewrite G.
    cbn [resetTime count].
    destruct (Z.gtb_spec now reset) as [|_]; [lia|].
    rewrite map_seq_shift.
    destruct (Z.geb_spec k maxConnections) as [Full|Room].
    + specialize (IH store k G Hrest).
      destruct (attempts connectionId maxConnections times store) as [vs final].
      cbn [fst] in *. rewrite IH. f_equal.
      * symmetry. apply Z.ltb_ge. lia.
      * apply map_ext_in. intros i _.
        transitivity false; [apply Z.ltb_ge; lia | symmetry; apply Z.ltb_ge; lia].
    + specialize (IH (JsMap.set store ("ws:" ++ connectionId) (mkLimit (k + 1) reset))
                     (k + 1) (get_set_same _ _ _) Hrest).
      destruct (attempts connectionId maxConnections times _) as [vs final].
      cbn [fst] in *. rewrite IH. f_equal.
      * symmetry. apply Z.ltb_lt. lia.
      * apply map_ext. intros i. f_equal. lia.
Qed.

(** X9.  A caller the store does not know, a bound of at least 1, and
    attempts that all fall within the minute after the first: the attempts
    are admitted up to the bound and refused from then on. *)
Theorem limiter_admits_up_to_bound
        (connectionId : string) (maxConnections first : Z) (later : list Z)
        (requestCounts : Store) :
  JsMap.get requestCounts ("ws:" ++ connectionId) = None ->
  1 <= maxConnections ->
  Forall (fun now => now <= first + 60000) later ->
  fst (attempts connectionId maxConnections (first :: later) requestCounts)
    = map (fun i => Z.of_nat i <? maxConnections) (seq 0 (S (List.length later))).
Proof.
  intros G B F. cbn [attempts seq map]. unfold websocketRateLimiter at 1. rewrite G.
  pose proof (@attempts_in_window connectionId maxConnections later
                (JsMap.set requestCounts ("ws:" ++ connectionId)
                           (mkLimit 1 (first + windowMs)))
                1 (first + windowMs) (get_set_same _ _ _) F) as W.
  destruct (attempts connectionId maxConnections later _) as [vs final].
  cbn [fst] in *. rewrite W, map_seq_shift. f_equal.
  - symmetry. apply Z.ltb_lt. lia.
  - apply map_ext. intros i. f_equal. lia.
Qed.

(** Seven connections from one address within a second, with the bound of
    5 the controller uses. *)
Lemma limiter_admits_up_to_bound_witness :
  fst (attempts "10.0.0.1" 5 [0; 100; 200; 300; 400; 500; 600] [])
    = [true; true; true; true; true; false; false].
Proof.
  exact (@limiter_admits_up_to_bound "10.0.0.1" 5 0 [100; 200; 300; 400; 500; 600] []
           eq_refl ltac:(lia) ltac:(repeat constructor; lia)).
Defined.

Lemma get_filter {V} (f : string * V -> bool) (m : JsMap.t V) (k : string) :
  NoDup (JsMap.keys m) ->
  JsMap.get (filter f m) k
    = match JsMap.get m k with
      | Some v => if f (k, v) then Some v else None
      | None => None
      end.
Proof.
  intros N. induction m as [|[k' v'] m IH]; [reflexivity|].
  cbn [JsMap.keys map fst] in N. inversion N as [|? ? Hnot Hrest]; subst.
  cbn [filter JsMap.get].
  destruct (String.eqb_spec k k') as [->|Hne].
  - assert (JsMap.get m k' = None) as A.
    { destruct (JsMap.get m k') eqn:E; [|reflexivity].
      exfalso. apply Hnot. apply get_in_keys. congruence. }
    destruct (f (k', v')).
    + cbn [JsMap.get]. now rewrite String.eqb_refl.
    + rewrite (IH Hrest), A. reflexivity.
  - destruct (f (k', v')).
    + cbn [JsMap.get]. destruct (String.eqb_spec k k'); [contradiction|]. apply (IH Hrest).
    + apply (IH Hrest).
Qed.

Lemma filter_lengths {A} (f : A -> bool) (l : list A) :
  (List.length (filter f l) + List.length (filter (fun x => negb (f x)) l)
   = List.length l)%nat.
Proof.
  induction l as [|x l IH]; [reflexivity|].
  cbn [filter]. destruct (f x); cbn [negb List.length]; lia.
Qed.

(** X10.  The cleanup deletes the entries whose window is over and no
    other, reports how many it deleted, and makes no difference to the
    verdicts the limiter gives from then on. *)
Theorem cleanup_deletes_expired (now later : Z) (requestCounts : Store)
        (connectionId : string) (maxConnections : Z) :
  NoDup (JsMap.keys requestCounts) ->
  now <= later ->
  let (kept, cleanedCount) := cleanupRateLimits now requestCounts in
  (forall key,
     JsMap.get kept key
       = match JsMap.get requestCounts key with
         | Some l => if now >? resetTime l then None else Some l
         | None => None
         end) /\
  cleanedCount
    = Z.of_nat (List.length (filter (fun e => now >? resetTime (snd e)) requestCounts)) /\
  fst (websocketRateLimiter connectionId maxConnections later kept)
    = fst (websocketRateLimiter connectionId maxConnections later requestCounts).
Proof.
  intros N L. unfold cleanupRateLimits.
  assert (forall key,
     JsMap.get (filter (fun e => negb (now >? resetTime (snd e))) requestCounts) key
       = match JsMap.get requestCounts key with
         | Some l => if now >? resetTime l then None else Some l
         | None => None
         end) as G.
  { intros key. rewrite get_filter by exact N.
    destruct (JsMap.get requestCounts key) as [l|]; [|reflexivity].
    cbn [snd]. destruct (now >? resetTime l); reflexivity. }
  split; [exact G|]. split.
  - pose proof (filter_lengths (fun e : string * Limit => now >? resetTime (snd e))
                               requestCounts) as P.
    lia.
  - unfold websocketRateLimiter. rewrite G.
    destruct (JsMap.get requestCounts ("ws:" ++ connectionId)) as [l|]; [|reflexivity].
    destruct (Z.gtb_spec now (resetTime l)).
    + destruct (Z.gtb_spec later (resetTime l)); [reflexivity | lia].
    + destruct (later >? resetTime l); [reflexivity|].
      destruct (count l >=? maxConnections); reflexivity.
Qed.

(** Two entries, one of them over: it is the one deleted. *)
Lemma cleanup_deletes_expired_witness :
  snd (cleanupRateLimits 100000
         [("ws:a", mkLimit 5 60000); ("ws:b", mkLimit 1 120000)])
    = 1.
Proof.
  exact (proj1 (proj2 (@cleanup_deletes_expired 100000 100000
                         [("ws:a", mkLimit 5 60000); ("ws:b", mkLimit 1 120000)] "a" 5
                         ltac:(repeat constructor; cbn; intuition discriminate)
                         ltac:(lia)))).
Defined.

End RateLimitingFacts.

(* ------------------------------------------------------------------------- *)
(** ** Rates and estimates *)

Section CostFacts.
Import JsString CostCalculator.

Lemma get_in_values {V} (m : JsMap.t V) (k : string) (v : V) :
  JsMap.get m k = Some v -> In v (JsMap.values m).
Proof.
  unfold JsMap.values. induction m as [|[k' v'] m IH]; cbn; [discriminate|].
  destruct (String.eqb k k'); [intros [= ->]; now left | intros G; right; now apply IH].
Qed.

Lemma partial_match_in (baseModel : string) (entries : list (string * ModelPricing))
      (p : ModelPricing) :
  partial_match baseModel entries = Some p -> In p (JsMap.values entries).
Proof.
  unfold JsMap.values. induction entries as [|[k v] entries IH]; cbn; [discriminate|].
  destruct (includes baseModel k || includes k baseModel);
    [intros [= ->]; now left | intros G; right; now apply IH].
Qed.

(** Every rate of the table and of the default is positive, and no
    completion rate is below its prompt rate. *)
Lemma known_rates (p : ModelPricing) :
  In p (DEFAULT_PRICING :: JsMap.values MODEL_PRICING) ->
  (0 < promptCostPer1K p)%Q /\ (promptCostPer1K p <= completionCostPer1K p)%Q.
Proof.
  cbn. intros H.
  repeat (destruct H as [<-|H]; [split; [reflexivity | discriminate]|]).
  contradiction.
Qed.

Lemma getModelPricing_rates (model : string) (p : ModelPricing) :
  getModelPricing model = Rates p ->
  In p (DEFAULT_PRICING :: JsMap.values MODEL_PRICING).
Proof.
  unfold getModelPricing, JsObject.get.
  destruct (JsMap.get MODEL_PRICING (baseModel_of model)) as [p'|] eqn:G.
  - intros [= <-]. right. now apply get_in_values with (k := baseModel_of model).
  - destruct (JsObject.inherited (baseModel_of model)); [discriminate|].
    destruct (partial_match (baseModel_of model) MODEL_PRICING) as [p'|] eqn:P.
    + intros [= <-]. right.
      now apply partial_match_in with (baseModel := baseModel_of model).
    + intros [= <-]. now left.
Qed.

Lemma getModelPricing_member (model member : string) :
  getModelPricing model = NotRates member ->
  member = baseModel_of model /\ JsObject.inherited member = true /\
  JsMap.get MODEL_PRICING member = None.
Proof.
  unfold getModelPricing, JsObject.get.
  destruct (JsMap.get MODEL_PRICING (baseModel_of model)) as [p'|] eqn:G; [discriminate|].
  destruct (JsObject.inherited (baseModel_of model)) eqn:H.
  - intros [= <-]. repeat split; assumption.
  - destruct (partial_match (baseModel_of model) MODEL_PRICING); discriminate.
Qed.

(** X11.  [getModelPricing] answers either a pricing of the table or the
    default pricing, in which both rates are positive and the completion
    rate is not below the prompt rate; or else a member every object
    inherits, and that only for a base name that names such a member. *)
Theorem getModelPricing_range (model : string) :
  match getModelPricing model with
  | Rates p =>
      In p (DEFAULT_PRICING :: JsMap.values MODEL_PRICING) /\
      (0 < promptCostPer1K p)%Q /\ (promptCostPer1K p <= completionCostPer1K p)%Q
  | NotRates member =>
      member = baseModel_of model /\ JsObject.inherited member = true /\
      JsMap.get MODEL_PRICING member = None
  end.
Proof.
  destruct (getModelPricing model) as [p|member] eqn:E.
  - pose proof (getModelPricing_rates model E) as I.
    split; [exact I | now apply known_rates].
  - now apply getModelPricing_member.
Qed.

(** X12.  For token counts that are not negative the cost is not negative,
    and it does not depend on [total_tokens]. *)
Theorem calculateCost_nonnegative (usage : TokenUsage) (model : string) (total : Z) :
  0 <= prompt_tokens usage -> 0 <= completion_tokens usage ->
  match calculateCost usage model with
  | Num q =>
      (0 <= q)%Q /\
      calculateCost (mkUsage (prompt_tokens usage) (completion_tokens usage) total) model
        = Num q
  | NaN => JsObject.inherited (baseModel_of model) = true
  end.
Proof.
  intros P C. unfold calculateCost. cbn [prompt_tokens completion_tokens].
  destruct (getModelPricing model) as [p|member] eqn:E.
  - split; [|reflexivity].
    destruct (known_rates (getModelPricing_rates model E)) as [A B].
    assert (0 <= completionCostPer1K p)%Q as A'
      by (eapply Qle_trans; [apply Qlt_le_weak; exact A | exact B]).
    apply Qlt_le_weak in A.
    assert (forall n, 0 <= n -> (0 <= inject_Z n / 1000)%Q) as D.
    { intros n Hn. apply Qle_shift_div_l; [reflexivity|].
      rewrite Qmult_0_l. change 0%Q with (inject_Z 0). now rewrite <- Zle_Qle. }
    rewrite <- (Qplus_0_l 0).
    apply Qplus_le_compat; apply Qmult_le_0_compat; auto.
  - destruct (getModelPricing_member model E) as (-> & H & _). exact H.
Qed.

Lemma calculateCost_nonnegative_witness :
  match calculateCost (mkUsage 1000 2000 3000) "openai/gpt-4" with
  | Num q =>
      (0 <= q)%Q /\
      calculateCost (mkUsage 1000 2000 0) "openai/gpt-4" = Num q
  | NaN => JsObject.inherited (baseModel_of "openai/gpt-4") = true
  end.
Proof.
  exact (@calculateCost_nonnegative (mkUsage 1000 2000 3000) "openai/gpt-4" 0
           ltac:(cbn; lia) ltac:(cbn; lia)).
Defined.

(** X13.  [estimateTokens] gives the least number of tokens that, at four
    characters each, hold the text; it gives none for the empty text and
    for no other. *)
Theorem estimateTokens_is_ceiling (text : string) :
  let tokens := estimateTokens text in
  4 * (tokens - 1) < length text <= 4 * tokens /\
  (tokens = 0 <-> text = EmptyString).
Proof.
  cbv zeta. unfold estimateTokens.
  pose proof (Math_ceil_div_4_spec (length text)) as C. split; [lia|]. split.
  - intros Z0. destruct text as [|c text]; [reflexivity|].
    exfalso. unfold length in *. cbn [String.length] in *. lia.
  - intros ->. reflexivity.
Qed.

(** A short prompt with a picture. *)
Lemma estimatePromptTokens_small_witness :
  estimatePromptTokens
    [mkMessage "user" (CParts [TextPart "What is in this picture?";
                               ImagePart "https://example.org/cat.png"])] = 1.
Proof.
  exact (@estimatePromptTokens_small
           [mkMessage "user" (CParts [TextPart "What is in this picture?";
                                      ImagePart "https://example.org/cat.png"])]
           ltac:(vm_compute; reflexivity)).
Defined.

End CostFacts.

(* ------------------------------------------------------------------------- *)
(** ** The catalog *)

Section CatalogFacts.
Import JsString ModelRegistry.

Definition put (m : JsMap.t Model.t) (model : Model.t) : JsMap.t Model.t :=
  JsMap.set m (Model.id model) model.

Lemma install_fold (fetched : list Model.t) : install fetched = fold_left put fetched [].
Proof. reflexivity. Qed.

Lemma find_last {A} (f : A -> bool) (l : list A) (x : A) :
  find f (l ++ [x]) = match find f l with
                      | Some y => Some y
                      | None => if f x then Some x else None
                      end.
Proof.
  induction l as [|y l IH]; cbn; [reflexivity|]. destruct (f y); [reflexivity | exact IH].
Qed.

Lemma get_set (m : JsMap.t Model.t) (k k' : string) (v : Model.t) :
  JsMap.get (JsMap.set m k v) k' = if String.eqb k' k then Some v else JsMap.get m k'.
Proof.
  destruct (String.eqb_spec k' k) as [->|N]; [apply get_set_same | now apply get_set_other].
Qed.

Lemma get_fold_put (fetched : list Model.t) (m : JsMap.t Model.t) (modelId : string) :
  JsMap.get (fold_left put fetched m) modelId
    = match find (fun model => String.eqb modelId (Model.id model)) (rev fetched) with
      | Some model => Some model
      | None => JsMap.get m modelId
      end.
Proof.
  revert m. induction fetched as [|x fetched IH]; intros m; [reflexivity|].
  cbn [fold_left rev]. rewrite IH, find_last. unfold put. rewrite get_set.
  destruct (find _ (rev fetched)); [reflexivity|].
  destruct (String.eqb modelId (Model.id x)); reflexivity.
Qed.

Lemma keys_set (m : JsMap.t Model.t) (k : string) (v : Model.t) :
  JsMap.keys (JsMap.set m k v)
    = if existsb (String.eqb k) (JsMap.keys m) then JsMap.keys m
      else (JsMap.keys m ++ [k])%list.
Proof.
  unfold JsMap.keys. induction m as [|[k' v'] m IH]; [reflexivity|].
  cbn [JsMap.set map fst existsb].
  destruct (String.eqb k k'); cbn [map fst orb]; [reflexivity|].
  rewrite IH. destruct (existsb (String.eqb k) (map fst m)); reflexivity.
Qed.

Lemma NoDup_keys_set (m : JsMap.t Model.t) (k : string) (v : Model.t) :
  NoDup (JsMap.keys m) -> NoDup (JsMap.keys (JsMap.set m k v)).
Proof.
  intros N. rewrite keys_set.
  destruct (existsb (String.eqb k) (JsMap.keys m)) eqn:E; [exact N|].
  assert (~ In k (JsMap.keys m)) as O.
  { intros I.
    assert (existsb (String.eqb k) (JsMap.keys m) = true) as C
      by (apply existsb_exists; exists k; split; [exact I | apply String.eqb_refl]).
    congruence. }
  clear E. induction N as [|x l X N IH]; cbn [app].
  - repeat constructor. intros [].
  - constructor.
    + rewrite in_app_iff. intros [I|[<-|[]]]; [now apply X | apply O; now left].
    + apply IH. intros I. apply O. now right.
Qed.

Definition keyed_by_id (m : JsMap.t Model.t) : Prop :=
  Forall (fun e => fst e = Model.id (snd e)) m.

Lemma keyed_set (m : JsMap.t Model.t) (model : Model.t) :
  keyed_by_id m -> keyed_by_id (put m model).
Proof.
  unfold keyed_by_id, put. induction m as [|[k v] m IH]; intros K; cbn [JsMap.set].
  - repeat constructor.
  - inversion K as [|? ? Hk Hm]; subst.
    destruct (String.eqb_spec (Model.id model) k) as [E|_].
    + constructor; [cbn; congruence | exact Hm].
    + constructor; [exact Hk | now apply IH].
Qed.

Lemma fold_put_invariants (fetched : list Model.t) (m : JsMap.t Model.t) :
  NoDup (JsMap.keys m) -> keyed_by_id m ->
  NoDup (JsMap.keys (fold_left put fetched m)) /\ keyed_by_id (fold_left put fetched m).
Proof.
  revert m. induction fetched as [|x fetched IH]; intros m N K; [now split|].
  cbn [fold_left]. apply IH; [now apply NoDup_keys_set | now apply keyed_set].
Qed.

(** X14.  The map a refresh installs: a lookup finds the last entry of the
    fetched list that has the identifier, and nothing when there is none; no
    identifier is held twice, and every entry sits under its own
    identifier. *)
Theorem install_lookup (fetched : list Model.t) (modelId : string) :
  JsMap.get (install fetched) modelId
    = find (fun model => String.eqb modelId (Model.id model)) (rev fetched) /\
  NoDup (JsMap.keys (install fetched)) /\
  Forall (fun e => fst e = Model.id (snd e)) (install fetched).
Proof.
  rewrite install_fold. split.
  - rewrite get_fold_put. destruct (find _ (rev fetched)); reflexivity.
  - apply fold_put_invariants; constructor.
Qed.

Lemma install_nonempty (fetched : list Model.t) :
  fetched <> [] -> JsMap.size (install fetched) <> 0.
Proof.
  destruct fetched as [|x fetched]; [congruence|]. intros _.
  rewrite install_fold. cbn [fold_left].
  assert (forall l m, m <> [] -> fold_left put l m <> []) as F.
  { induction l as [|y l IH]; intros m Hm; [exact Hm|].
    cbn [fold_left]. apply IH. unfold put.
    destruct m as [|[k v] m]; [congruence|]. cbn [JsMap.set].
    destruct (String.eqb (Model.id y) k); discriminate. }
  specialize (F fetched (put [] x) ltac:(discriminate)).
  unfold JsMap.size. destruct (fold_left put fetched (put [] x)); [congruence|].
  cbn [List.length]. lia.
Qed.

(** X15.  Two reads in a row on a stale catalog, upstream serving at least
    one model: the first fetches once; the second, started no more than five
    minutes after the refresh, fetches nothing and answers from the map the
    first installed. *)
Theorem second_read_is_served_from_cache
        (op1 op2 : ReadOp) (r : Registry) (w : World) (fetched : list Model.t) :
  stale r (clock w (ticks w)) = true ->
  upstream w (fetches w) = Ok fetched ->
  fetched <> [] ->
  clock w (S (S (ticks w))) - clock w (S (ticks w)) <= 5 * 60 * 1000 ->
  let '(_, r1, w1) := read op1 r w in
  let '(result, r2, w2) := read op2 r1 w1 in
  fetches w1 = S (fetches w) /\ fetches w2 = fetches w1 /\
  r2 = r1 /\ result = answer op2 (install fetched).
Proof.
  intros St U N T. rewrite read_cases. unfold answered, refreshed. rewrite St, U.
  rewrite read_cases. unfold answered, refreshed.
  cbn [advanced clock ticks upstream fetches Nat.add].
  assert (stale (mkRegistry (install fetched) (clock w (S (ticks w))))
                (clock w (S (S (ticks w)))) = false) as F.
  { unfold stale. cbn [models lastUpdated].
    destruct (Z.eqb_spec (JsMap.size (install fetched)) 0) as [E|_];
      [now apply install_nonempty in E|].
    cbn [orb]. unfold cacheTimeout. rewrite Z.gtb_ltb. apply Z.ltb_ge. lia. }
  rewrite F. repeat split.
Qed.

Lemma second_read_is_served_from_cache_witness :
  let '(_, r1, w1) := read GetModels initial Scenarios.upstream_up in
  let '(result, r2, w2) := read (ValidateModel "openai/gpt-4") r1 w1 in
  fetches w1 = 1%nat /\ fetches w2 = fetches w1 /\
  r2 = r1 /\
  result = answer (ValidateModel "openai/gpt-4")
                  (install [Scenarios.entry "openai/gpt-4" 8192]).
Proof.
  exact (@second_read_is_served_from_cache GetModels (ValidateModel "openai/gpt-4")
           initial Scenarios.upstream_up [Scenarios.entry "openai/gpt-4" 8192]
           eq_refl eq_refl ltac:(discriminate) ltac:(cbn; lia)).
Defined.

(** X16.  After [clearCache] the next read fetches, whatever the clock
    says; and a catalog that upstream serves empty is fetched again by
    every read. *)
Theorem cleared_or_empty_catalog_is_refetched
        (op1 op2 : ReadOp) (r : Registry) (w : World) :
  (let '(_, r1, w1) := clearCache r w in
   let '(_, _, w2) := read op1 r1 w1 in
   fetches w2 = S (fetches w)) /\
  (upstream w (fetches w) = Ok [] ->
   let '(_, r1, w1) := clearCache r w in
   let '(_, r2, w2) := read op1 r1 w1 in
   let '(_, _, w3) := read op2 r2 w2 in
   fetches w3 = S (S (fetches w))).
Proof.
  split.
  - cbn [clearCache bind put_models put_lastUpdated].
    unfold clearCache, bind, put_models, put_lastUpdated. cbn.
    rewrite read_cases. unfold answered, refreshed. cbn.
    destruct (upstream w (fetches w)); reflexivity.
  - intros U. unfold clearCache, bind, put_models, put_lastUpdated. cbn.
    rewrite read_cases. unfold answered, refreshed. cbn. rewrite U.
    rewrite read_cases. unfold answered, refreshed. cbn.
    destruct (upstream w (S (fetches w))); reflexivity.
Qed.

Lemma cleared_or_empty_catalog_is_refetched_witness :
  let w := mkWorld (fun _ => 1000) 0 (fun _ => Ok []) 0 in
  let '(_, r1, w1) := clearCache Scenarios.one_model w in
  let '(_, r2, w2) := read GetModels r1 w1 in
  let '(_, _, w3) := read (GetModel "openai/gpt-4") r2 w2 in
  fetches w3 = 2%nat.
Proof.
  exact (proj2 (@cleared_or_empty_catalog_is_refetched
                  GetModels (GetModel "openai/gpt-4") Scenarios.one_model
                  (mkWorld (fun _ => 1000) 0 (fun _ => Ok []) 0))
               eq_refl).
Defined.

End CatalogFacts.

(* ------------------------------------------------------------------------- *)
(** ** What the catalog reads answer *)

Section CatalogReads.
Import JsString ModelRegistry.

Definition desc (a b : ModelInfo.t) : Prop :=
  ModelInfo.context_length b <= ModelInfo.context_length a.

Lemma insert_desc_perm (x : ModelInfo.t) (l : list ModelInfo.t) :
  Permutation (insert_desc x l) (x :: l).
Proof.
  induction l as [|y l IH]; cbn [insert_desc]; [apply Permutation_refl|].
  destruct (ModelInfo.context_length y >? ModelInfo.context_length x).
  - apply perm_trans with (y :: x :: l); [now apply perm_skip | apply perm_swap].
  - apply Permutation_refl.
Qed.

Lemma sort_desc_perm (l : list ModelInfo.t) : Permutation (sort_desc l) l.
Proof.
  unfold sort_desc. induction l as [|x l IH]; cbn [fold_right]; [constructor|].
  apply perm_trans with (x :: fold_right insert_desc [] l);
    [apply insert_desc_perm | now apply perm_skip].
Qed.

Lemma insert_desc_sorted (x : ModelInfo.t) (l : list ModelInfo.t) :
  StronglySorted desc l -> StronglySorted desc (insert_desc x l).
Proof.
  induction l as [|y l IH]; intros S; cbn [insert_desc].
  - repeat constructor.
  - inversion S as [|? ? Sl Fy]; subst.
    destruct (ModelInfo.context_length y >? ModelInfo.context_length x) eqn:G.
    + constructor; [now apply IH|].
      apply Forall_forall. intros z Iz.
      apply (Permutation_in _ (insert_desc_perm x l)) in Iz.
      destruct Iz as [<-|Iz].
      * unfold desc. apply Z.gtb_lt in G. lia.
      * rewrite Forall_forall in Fy. now apply Fy.
    + constructor; [exact S|].
      assert (ModelInfo.context_length y <= ModelInfo.context_length x) as L
        by (rewrite Z.gtb_ltb in G; apply Z.ltb_ge in G; lia).
      constructor; [exact L|].
      apply Forall_forall. intros z Iz. rewrite Forall_forall in Fy.
      specialize (Fy z Iz). unfold desc in *. lia.
Qed.

Lemma sort_desc_sorted (l : list ModelInfo.t) : StronglySorted desc (sort_desc l).
Proof.
  unfold sort_desc. induction l as [|x l IH]; cbn [fold_right];
    [constructor | now apply insert_desc_sorted].
Qed.

Lemma sorted_app (l1 l2 : list ModelInfo.t) :
  StronglySorted desc (l1 ++ l2) ->
  StronglySorted desc l1 /\ forall a b, In a l1 -> In b l2 -> desc a b.
Proof.
  induction l1 as [|x l1 IH]; cbn [app]; intros S.
  - split; [constructor | intros a b []].
  - inversion S as [|? ? Sl Fx]; subst. destruct (IH Sl) as [S1 D].
    rewrite Forall_forall in Fx. split.
    + constructor; [exact S1|]. apply Forall_forall. intros z Iz.
      apply Fx, in_or_app. now left.
    + intros a b [<-|Ia] Ib; [apply Fx, in_or_app; now right | now apply D].
Qed.

(** X17.  The ranking [getTopModels] answers from a snapshot whose entries
    all transform: it is a selection of the catalog (together with the
    entries left out it is a rearrangement of it), in non-increasing context
    length, no entry left out has a larger context length than one selected,
    and its length is the limit capped by the catalog size; a negative limit
    drops that many entries from the end instead. *)
Theorem top_models_ranked (snapshot : JsMap.t Model.t) (limit : Z)
        (all : list ModelInfo.t) :
  all_infos snapshot = Ok all ->
  exists top rest,
    answer (GetTopModels limit) snapshot = Ok (Infos top) /\
    Permutation (top ++ rest) all /\
    StronglySorted desc top /\
    (forall a b, In a top -> In b rest -> desc a b) /\
    Z.of_nat (List.length top)
      = Z.max 0 (Z.min (Z.of_nat (List.length all))
                       (if limit <? 0 then Z.of_nat (List.length all) + limit
                        else limit)).
Proof.
  intros A. unfold answer. rewrite A. cbn [outcome_map].
  set (n := if limit <? 0
            then Z.to_nat (Z.of_nat (List.length (sort_desc all)) + limit)
            else Z.to_nat limit).
  assert (slice0 (sort_desc all) limit = firstn n (sort_desc all)) as E
    by (unfold slice0, n; destruct (limit <? 0); reflexivity).
  exists (firstn n (sort_desc all)), (skipn n (sort_desc all)).
  rewrite E. split; [reflexivity|].
  pose proof (sort_desc_sorted all) as S.
  rewrite <- (firstn_skipn n (sort_desc all)) in S.
  destruct (sorted_app _ _ S) as [S1 D].
  split; [rewrite firstn_skipn; apply sort_desc_perm|].
  split; [exact S1|]. split; [exact D|].
  rewrite length_firstn.
  pose proof (Permutation_length (sort_desc_perm all)) as L.
  unfold n. rewrite L. destruct (Z.ltb_spec limit 0); lia.
Qed.

Lemma top_models_ranked_witness :
  exists top,
    answer (GetTopModels 1)
           (install [Scenarios.entry "mistral/small" 4096;
                     Scenarios.entry "openai/gpt-4" 8192]) = Ok (Infos top) /\
    map ModelInfo.id top = ["openai/gpt-4"].
Proof.
  destruct (@top_models_ranked
              (install [Scenarios.entry "mistral/small" 4096;
                        Scenarios.entry "openai/gpt-4" 8192]) 1 _ eq_refl)
    as (top & rest & A & _).
  exists top. split; [exact A|].
  cbv in A. injection A as <-. reflexivity.
Defined.

Lemma lower_idempotent (c : ascii) : lower (lower c) = lower c.
Proof.
  destruct c as [[] [] [] [] [] [] [] []]; vm_compute; reflexivity.
Qed.

Lemma toLowerCase_idempotent (s : string) : toLowerCase (toLowerCase s) = toLowerCase s.
Proof.
  induction s as [|c s IH]; cbn [toLowerCase]; [reflexivity|].
  now rewrite lower_idempotent, IH.
Qed.

Lemma includes_empty (s : string) : includes s EmptyString = true.
Proof. destruct s; reflexivity. Qed.

Lemma filter_all {A} (f : A -> bool) (l : list A) :
  (forall x, f x = true) -> filter f l = l.
Proof.
  intros F. induction l as [|x l IH]; cbn [filter]; [reflexivity|].
  now rewrite F, IH.
Qed.

(** X18.  [searchModels] from a snapshot: the empty query answers the whole
    catalog, exactly as [getModels] does, and the case of the query's
    letters makes no difference to the answer. *)
Theorem search_ignores_case (snapshot : JsMap.t Model.t) (query : string) :
  answer (SearchModels EmptyString) snapshot = answer GetModels snapshot /\
  answer (SearchModels (toLowerCase query)) snapshot
    = answer (SearchModels query) snapshot.
Proof.
  split; unfold answer.
  - destruct (all_infos snapshot) as [all|e]; cbn [outcome_map]; [|reflexivity].
    rewrite filter_all; [reflexivity|].
    intros x. unfold matches. cbn [toLowerCase]. now rewrite includes_empty.
  - now rewrite toLowerCase_idempotent.
Qed.

Lemma transformModel_message (model : Model.t) (e : string) :
  transformModel model = Thrown e -> e = not_iterable.
Proof.
  unfold transformModel, getSupportedParametersForModel, spread.
  destruct (getProviderSpecificParameters _); intros H; congruence.
Qed.

Lemma map_outcome_throws (l : list Model.t) (model : Model.t) :
  In model l -> transformModel model = Thrown not_iterable ->
  map_outcome transformModel l = Thrown not_iterable.
Proof.
  induction l as [|x l IH]; intros I T; [destruct I|].
  cbn [map_outcome]. destruct I as [->|I].
  - now rewrite T.
  - destruct (transformModel x) as [y|e] eqn:X.
    + now rewrite (IH I T).
    + now rewrite (transformModel_message _ X).
Qed.

Lemma inherited_not_provider (provider : string) :
  JsObject.inherited provider = true ->
  getProviderSpecificParameters provider = JsObject.Inherited provider.
Proof.
  unfold JsObject.inherited. intros I. apply existsb_exists in I.
  destruct I as [k [I E]]. apply String.eqb_eq in E. subst k.
  cbn in I. repeat (destruct I as [<-|I]; [reflexivity|]). destruct I.
Qed.

(** X19.  One catalog entry whose identifier starts with the name of a
    member every object inherits ([constructor/...], [toString/...]) makes
    every list read throw: the provider table read yields the inherited
    member, which cannot be spread.  The reads of that identifier throw as
    well. *)
Theorem inherited_provider_breaks_listing
        (snapshot : JsMap.t Model.t) (model : Model.t) (op : ReadOp) :
  JsMap.get snapshot (Model.id model) = Some model ->
  JsObject.inherited (getProviderFromModelId (Model.id model)) = true ->
  match op with
  | GetModel modelId | ValidateModel modelId => modelId = Model.id model
  | _ => True
  end ->
  answer op snapshot = Thrown not_iterable.
Proof.
  intros G I O.
  assert (transformModel model = Thrown not_iterable) as T.
  { unfold transformModel, getSupportedParametersForModel.
    now rewrite (inherited_not_provider _ I). }
  assert (all_infos snapshot = Thrown not_iterable) as A.
  { unfold all_infos. apply map_outcome_throws with model; [|exact T].
    now apply get_in_values with (Model.id model). }
  assert (one_info snapshot (Model.id model) = Thrown not_iterable) as One
    by (unfold one_info; now rewrite G, T).
  destruct op; cbn [answer]; subst; now rewrite ?A, ?One.
Qed.

Lemma inherited_provider_breaks_listing_witness :
  answer GetModels
         (install [Scenarios.entry "openai/gpt-4" 8192;
                   Scenarios.entry "constructor/x" 4096])
    = Thrown not_iterable.
Proof.
  exact (@inherited_provider_breaks_listing
           (install [Scenarios.entry "openai/gpt-4" 8192;
                     Scenarios.entry "constructor/x" 4096])
           (Scenarios.entry "constructor/x" 4096) GetModels eq_refl eq_refl I).
Defined.

End CatalogReads.

Section SupportedParameters.
Import JsString ModelRegistry.

(** X20.  For a model the fresh catalog holds, the list
    [getSupportedParameters] returns is a prefix of the
    [supported_parameters] the same model is listed with: the additions
    drawn from the instruct type and the per-request limits ([system],
    [user], [assistant], [max_tokens]) are left out; it throws exactly when
    the listing of the model throws. *)
Theorem supported_parameters_prefix
        (r : Registry) (w : World) (modelId : string) (model : Model.t) :
  stale r (clock w (ticks w)) = false ->
  JsMap.get (models r) modelId = Some model ->
  Model.id model = modelId ->
  match getSupportedParameters modelId r w with
  | (Ok params, r', w') =>
      r' = r /\ fetches w' = fetches w /\
      exists info extra,
        transformModel model = Ok info /\
        ModelInfo.supported_parameters info = (params ++ extra)%list /\
        incl extra ["system"; "user"; "assistant"; "max_tokens"]
  | (Thrown e, _, _) => transformModel model = Thrown e
  end.
Proof.
  intros St G <-.
  unfold getSupportedParameters, bind. rewrite getModel_cases.
  unfold refreshed. rewrite St. unfold one_info. rewrite G.
  unfold transformModel, getSupportedParametersForModel, lift, spread.
  destruct (getProviderSpecificParameters (getProviderFromModelId (Model.id model)))
    as [ps|n|]; cbv beta iota; try reflexivity.
  split; [reflexivity|]. split; [reflexivity|].
  eexists.
  exists ((if truthy_opt (instruct_type (Model.architecture model))
           then ["system"; "user"; "assistant"] else [])
          ++ match Model.per_request_limits model with
             | Some l =>
                 if truthy_opt (prompt_tokens l) || truthy_opt (completion_tokens l)
                 then ["max_tokens"] else []
             | None => []
             end)%list.
  split; [reflexivity|]. cbn [ModelInfo.supported_parameters].
  rewrite app_nil_r, <- app_assoc. split; [reflexivity|].
  intros x Ix. apply in_app_or in Ix. destruct Ix as [Ix|Ix].
  - destruct (truthy_opt (instruct_type (Model.architecture model))); [|destruct Ix].
    cbn in Ix |- *. tauto.
  - destruct (Model.per_request_limits model) as [l|]; [|destruct Ix].
    destruct (truthy_opt (prompt_tokens l) || truthy_opt (completion_tokens l));
      [|destruct Ix].
    cbn in Ix |- *. tauto.
Qed.

Lemma supported_parameters_prefix_witness :
  match getSupportedParameters "openai/gpt-4" Scenarios.one_model Scenarios.upstream_up with
  | (Ok params, r', w') =>
      r' = Scenarios.one_model /\ fetches w' = fetches Scenarios.upstream_up /\
      exists info extra,
        transformModel (Scenarios.entry "openai/gpt-4" 8192) = Ok info /\
        ModelInfo.supported_parameters info = (params ++ extra)%list /\
        incl extra ["system"; "user"; "assistant"; "max_tokens"]
  | (Thrown e, _, _) => transformModel (Scenarios.entry "openai/gpt-4" 8192) = Thrown e
  end.
Proof.
  exact (@supported_parameters_prefix Scenarios.one_model Scenarios.upstream_up
           "openai/gpt-4" (Scenarios.entry "openai/gpt-4" 8192)
           eq_refl eq_refl eq_refl).
Defined.

End SupportedParameters.

(* ------------------------------------------------------------------------- *)
(** ** Sessions: bookkeeping *)

Section MapDeletion.
Variable V : Type.

Lemma get_delete_other (m : JsMap.t V) (k k' : string) :
  k' <> k -> JsMap.get (JsMap.delete m k) k' = JsMap.get m k'.
Proof.
  intros N. induction m as [|[k0 v0] m IH]; cbn [JsMap.delete JsMap.get]; [reflexivity|].
  destruct (String.eqb_spec k k0) as [->|N0].
  - destruct (String.eqb_spec k' k0); congruence.
  - cbn [JsMap.get]. now rewrite IH.
Qed.

Lemma keys_delete_in (m : JsMap.t V) (k k' : string) :
  In k' (JsMap.keys (JsMap.delete m k)) -> In k' (JsMap.keys m).
Proof.
  unfold JsMap.keys. induction m as [|[k0 v0] m IH]; cbn [JsMap.delete map fst]; [tauto|].
  destruct (String.eqb k k0); cbn [map fst In]; tauto.
Qed.

Lemma NoDup_keys_delete (m : JsMap.t V) (k : string) :
  NoDup (JsMap.keys m) -> NoDup (JsMap.keys (JsMap.delete m k)).
Proof.
  unfold JsMap.keys. induction m as [|[k0 v0] m IH]; cbn [JsMap.delete map fst]; intros N.
  - constructor.
  - inversion N as [|? ? X N']; subst.
    destruct (String.eqb k k0); [exact N'|]. cbn [map fst]. constructor; [|now apply IH].
    intros I. apply X. now apply keys_delete_in in I.
Qed.

Lemma get_delete_same (m : JsMap.t V) (k : string) :
  NoDup (JsMap.keys m) -> JsMap.get (JsMap.delete m k) k = None.
Proof.
  unfold JsMap.keys. induction m as [|[k0 v0] m IH]; cbn [JsMap.delete map fst]; intros N.
  - reflexivity.
  - inversion N as [|? ? X N']; subst.
    destruct (String.eqb_spec k k0) as [->|N0].
    + destruct (JsMap.get m k0) eqn:G; [|reflexivity].
      exfalso. apply X. apply get_in_keys. congruence.
    + cbn [JsMap.get]. destruct (String.eqb_spec k k0); [congruence | now apply IH].
Qed.

Lemma get_delete_all (due : list (Z * string)) (m : JsMap.t V) (k : string) :
  NoDup (JsMap.keys m) ->
  JsMap.get (fold_left (fun m t => JsMap.delete m (snd t)) due m) k
    = if existsb (fun t => String.eqb (snd t) k) due then None else JsMap.get m k.
Proof.
  revert m. induction due as [|t due IH]; intros m N; [reflexivity|].
  cbn [fold_left existsb]. rewrite IH by now apply NoDup_keys_delete.
  destruct (existsb _ due); [now rewrite orb_true_r|]. rewrite orb_false_r.
  destruct (String.eqb_spec (snd t) k) as [->|N0].
  - now apply get_delete_same.
  - apply get_delete_other. congruence.
Qed.

End MapDeletion.

Section SessionInvariants.
Import JsString WebSocketController.

Variable JSON_parse : string -> option Json.value.
Variable ToString : Json.value -> string.

(** *** Closing every connection *)

Lemma closeAll_fold (m : JsMap.t WebSocketConnection) (s : WebSocketStats)
      (t : list (Z * string)) :
  fold_left (fun acc connectionId => snd (closeConnection connectionId acc))
            (JsMap.keys m) (mkCtl m s t)
    = mkCtl [] (mkStats (totalConnections s)
                        (activeConnections s - Z.of_nat (List.length m))
                        (totalMessages s) (totalErrors s)
                        (averageConnectionDuration s) (peakConnections s)) t.
Proof.
  revert s. induction m as [|[k v] m IH]; intros s.
  - cbn. rewrite Z.sub_0_r. now destruct s.
  - cbn [JsMap.keys map fst fold_left]. unfold closeConnection at 2.
    cbn [connections JsMap.get JsMap.delete stats timers]. rewrite String.eqb_refl.
    cbn [snd]. unfold JsMap.keys in IH. rewrite IH.
    cbn [drop_active totalConnections activeConnections totalMessages totalErrors
         averageConnectionDuration peakConnections List.length].
    f_equal. f_equal. lia.
Qed.

(** X21.  [closeAllConnections] empties the connection map and lowers the
    active count by the number of records the map held, those of sessions
    already marked inactive included; the other figures and the pending
    deletions stay as they are. *)
Theorem closeAllConnections_empties (c : Controller) :
  let c' := closeAllConnections c in
  connections c' = [] /\
  activeConnections (stats c')
    = activeConnections (stats c) - Z.of_nat (List.length (connections c)) /\
  totalConnections (stats c') = totalConnections (stats c) /\
  peakConnections (stats c') = peakConnections (stats c) /\
  timers c' = timers c.
Proof.
  unfold closeAllConnections. destruct c as [m s t]. cbn [connections stats timers].
  rewrite closeAll_fold. repeat split.
Qed.

(** *** What a message changes *)

(** The parts of the controller no message handler writes. *)
Definition steady (c c' : Controller) : Prop :=
  JsMap.keys (connections c') = JsMap.keys (connections c) /\
  timers c' = timers c /\
  totalConnections (stats c') = totalConnections (stats c) /\
  activeConnections (stats c') = activeConnections (stats c) /\
  totalMessages (stats c') = totalMessages (stats c) /\
  peakConnections (stats c') = peakConnections (stats c) /\
  totalErrors (stats c) <= totalErrors (stats c').

Lemma steady_refl (c : Controller) : steady c c.
Proof. unfold steady. repeat split. lia. Qed.

Lemma steady_trans (a b c : Controller) : steady a b -> steady b c -> steady a c.
Proof.
  unfold steady. intros (K1 & T1 & A1 & B1 & M1 & P1 & E1) (K2 & T2 & A2 & B2 & M2 & P2 & E2).
  repeat split; try congruence. lia.
Qed.

Lemma steady_modify f connectionId (c : Controller) : steady c (modify f connectionId c).
Proof.
  unfold steady. rewrite keys_modify, timers_modify, stats_modify. repeat split. lia.
Qed.

Lemma steady_count_error (c : Controller) : steady c (with_stats count_error c).
Proof. unfold steady. cbn. repeat split. lia. Qed.

Lemma steady_on_failure (connectionId e : string) (r : Run) :
  steady (ctl r) (ctl (on_failure connectionId e r)).
Proof.
  unfold on_failure. cbn [ctl with_ws with_ctl].
  eapply steady_trans; [apply steady_count_error | apply steady_modify].
Qed.

Lemma steady_finally (connectionId : string) (r : Run) :
  steady (ctl r) (ctl (finally connectionId r)).
Proof. unfold finally. cbn [ctl with_ctl]. apply steady_modify. Qed.

Lemma steady_streamed (connectionId : string) (m : Inbound)
      (upstream : Outcome InferenceController.Stream) (r : Run) :
  steady (ctl r)
         (ctl (handleInferenceRequest_streamed JSON_parse ToString connectionId m
                                               upstream r)).
Proof.
  unfold handleInferenceRequest_streamed.
  destruct upstream as [stream|e]; [|apply steady_on_failure].
  destruct (forward _ _ _ _ _) as [content ws'].
  pose proof (@steady_finally connectionId (with_ws (fun _ => ws') r)) as F.
  destruct (InferenceController.failure stream); [|exact F].
  eapply steady_trans; [exact F | apply steady_on_failure].
Qed.

Lemma steady_handleInferenceRequest (connectionId : string) (m : Inbound)
      (modelExists : Outcome bool) (upstream : Outcome InferenceController.Stream)
      (r : Run) :
  steady (ctl r)
         (ctl (handleInferenceRequest JSON_parse ToString connectionId m
                                      modelExists upstream r)).
Proof.
  unfold handleInferenceRequest, handleInferenceRequest_begin.
  destruct (JsMap.get (connections (ctl r)) connectionId); [|apply steady_refl].
  destruct (data m) as [d|] eqn:D; [|apply steady_on_failure].
  unfold handleInferenceRequest_validated. rewrite D.
  destruct modelExists as [[|]|e]; [|apply steady_refl|apply steady_on_failure].
  eapply steady_trans; [|apply steady_streamed].
  cbn [ctl with_ctl]. apply steady_modify.
Qed.

(** The record of the session after the handlers that touch the marker. *)
Lemma get_on_failure (connectionId e : string) (r : Run) (x : WebSocketConnection) :
  JsMap.get (connections (ctl r)) connectionId = Some x ->
  JsMap.get (connections (ctl (on_failure connectionId e r))) connectionId
    = Some (set_currentRequestId None x).
Proof.
  intros G. unfold on_failure. cbn [ctl with_ws with_ctl]. now apply get_modify_same.
Qed.

Lemma get_finally (connectionId : string) (r : Run) (x : WebSocketConnection) :
  JsMap.get (connections (ctl r)) connectionId = Some x ->
  JsMap.get (connections (ctl (finally connectionId r))) connectionId
    = Some (set_currentRequestId None x).
Proof.
  intros G. unfold finally. cbn [ctl with_ctl]. now apply get_modify_same.
Qed.

(** The marker [handleInferenceRequest] leaves. *)
Definition marker_after (m : Inbound) (modelExists : Outcome bool)
           (x : WebSocketConnection) : option string :=
  match data m, modelExists with
  | Some _, Ok false => currentRequestId x
  | _, _ => None
  end.

Lemma get_streamed (connectionId : string) (m : Inbound)
      (upstream : Outcome InferenceController.Stream) (r : Run)
      (x : WebSocketConnection) :
  JsMap.get (connections (ctl r)) connectionId = Some x ->
  JsMap.get (connections (ctl (handleInferenceRequest_streamed
                                 JSON_parse ToString connectionId m upstream r)))
            connectionId
    = Some (set_currentRequestId None x).
Proof.
  intros G. unfold handleInferenceRequest_streamed.
  destruct upstream as [stream|e]; [|now apply get_on_failure].
  destruct (forward _ _ _ _ _) as [content ws'].
  assert (JsMap.get (connections (ctl (finally connectionId
                                         (with_ws (fun _ => ws') r)))) connectionId
            = Some (set_currentRequestId None x)) as F
    by (apply get_finally; exact G).
  destruct (InferenceController.failure stream); [|exact F].
  now rewrite (get_on_failure _ _ _ F).
Qed.

Lemma get_handleInferenceRequest (connectionId : string) (m : Inbound)
      (modelExists : Outcome bool) (upstream : Outcome InferenceController.Stream)
      (r : Run) (x : WebSocketConnection) :
  JsMap.get (connections (ctl r)) connectionId = Some x ->
  JsMap.get (connections (ctl (handleInferenceRequest JSON_parse ToString connectionId m
                                                      modelExists upstream r)))
            connectionId
    = Some (set_currentRequestId (marker_after m modelExists x) x).
Proof.
  intros G. unfold handleInferenceRequest, handleInferenceRequest_begin, marker_after.
  rewrite G. destruct (data m) as [d|] eqn:D; [|now apply get_on_failure].
  unfold handleInferenceRequest_validated. rewrite D.
  destruct modelExists as [[|]|e].
  - rewrite (@get_streamed connectionId m upstream _
               (set_currentRequestId (Some (msg_id m)) x)); [reflexivity|].
    cbn [ctl with_ctl]. now apply get_modify_same.
  - cbn [ctl with_ws]. rewrite G. now destruct x.
  - now apply get_on_failure.
Qed.

(** The marker a frame leaves on the session. *)
Definition marker_of (frame : Frame) (modelExists : Outcome bool)
           (x : WebSocketConnection) : option string :=
  match frame with
  | Accepted m =>
      match type m with
      | T_inference_request => marker_after m modelExists x
      | _ => currentRequestId x
      end
  | _ => currentRequestId x
  end.

(** X22.  A frame on a known session, whatever it holds and whatever the
    awaited calls settle to: the message count goes up by one; the session's
    record is the one it was with the activity stamped and the request
    marker set as follows: an inference request clears it, unless the
    registry does not know the model, in which case it stays, as it does for
    every other frame; the set of sessions, the active count, the peak and
    the pending deletions do not change. *)
Theorem handleMessage_bookkeeping
        (connectionId : string) (frame : Frame) (now : Z)
        (modelExists : Outcome bool) (upstream : Outcome InferenceController.Stream)
        (r : Run) (x : WebSocketConnection) :
  JsMap.get (connections (ctl r)) connectionId = Some x ->
  let r' := handleMessage JSON_parse ToString connectionId frame now
                          modelExists upstream r in
  totalMessages (stats (ctl r')) = totalMessages (stats (ctl r)) + 1 /\
  JsMap.get (connections (ctl r')) connectionId
    = Some (set_currentRequestId (marker_of frame modelExists x)
                                 (set_lastActivity now x)) /\
  JsMap.keys (connections (ctl r')) = JsMap.keys (connections (ctl r)) /\
  activeConnections (stats (ctl r')) = activeConnections (stats (ctl r)) /\
  peakConnections (stats (ctl r')) = peakConnections (stats (ctl r)) /\
  timers (ctl r') = timers (ctl r).
Proof.
  intros G. cbn zeta. unfold handleMessage. rewrite G.
  remember (marker_of frame modelExists x) as mk eqn:Mk.
  set (r2 := with_ctl (with_stats count_message)
                      (with_ctl (modify (set_lastActivity now) connectionId) r)).
  assert (JsMap.get (connections (ctl r2)) connectionId = Some (set_lastActivity now x))
    as G2 by (cbn [r2 ctl with_ctl with_stats connections]; now apply get_modify_same).
  assert (JsMap.keys (connections (ctl r2)) = JsMap.keys (connections (ctl r)) /\
          timers (ctl r2) = timers (ctl r) /\
          totalMessages (stats (ctl r2)) = totalMessages (stats (ctl r)) + 1 /\
          activeConnections (stats (ctl r2)) = activeConnections (stats (ctl r)) /\
          peakConnections (stats (ctl r2)) = peakConnections (stats (ctl r)))
    as (K2 & T2 & M2 & A2 & P2).
  { cbn [r2 ctl with_ctl with_stats connections stats timers count_message
         totalMessages activeConnections peakConnections].
    rewrite keys_modify, timers_modify, stats_modify. repeat split. }
  assert (forall r', steady (ctl r2) (ctl r') ->
            JsMap.get (connections (ctl r')) connectionId
              = Some (set_currentRequestId mk (set_lastActivity now x)) ->
            totalMessages (stats (ctl r')) = totalMessages (stats (ctl r)) + 1 /\
            JsMap.get (connections (ctl r')) connectionId
              = Some (set_currentRequestId mk (set_lastActivity now x)) /\
            JsMap.keys (connections (ctl r')) = JsMap.keys (connections (ctl r)) /\
            activeConnections (stats (ctl r')) = activeConnections (stats (ctl r)) /\
            peakConnections (stats (ctl r')) = peakConnections (stats (ctl r)) /\
            timers (ctl r') = timers (ctl r)) as Close.
  { intros r' (K & T & _ & A & M & P & _) G'. repeat split; congruence. }
  clearbody r2.
  destruct frame as [|e|m]; cbn [marker_of] in Mk.
  - apply Close; [cbn [ctl with_ws with_ctl]; apply steady_count_error|].
    cbn [ctl with_ws with_ctl with_stats connections]. now rewrite G2, Mk.
  - apply Close; [cbn [ctl with_ws]; apply steady_refl|].
    cbn [ctl with_ws]. now rewrite G2, Mk.
  - unfold processMessage. rewrite G2.
    destruct (type m).
    + apply Close; [apply steady_handleInferenceRequest|].
      rewrite (get_handleInferenceRequest _ _ _ _ _ G2), Mk.
      unfold marker_after. now destruct x, (data m), modelExists as [[|]|].
    + apply Close; [cbn [ctl with_ws]; apply steady_refl|].
      cbn [ctl with_ws]. now rewrite G2, Mk.
    + apply Close; [cbn [ctl with_ws]; apply steady_refl|].
      cbn [ctl with_ws]. now rewrite G2, Mk.
    + apply Close; [unfold handleHeartbeat; cbn [ctl with_ws]; apply steady_refl|].
      unfold handleHeartbeat. cbn [ctl with_ws]. now rewrite G2, Mk.
    + apply Close; [unfold handleClose; cbn [ctl with_ws]; apply steady_refl|].
      unfold handleClose. cbn [ctl with_ws]. now rewrite G2, Mk.
Qed.

(** *** A socket that is not open *)

Lemma sendMessage_closed (s : Socket) (m : Outbound) :
  isOpen s = false -> sendMessage s m = s.
Proof. intros C. unfold sendMessage. now rewrite C. Qed.

Lemma forward_line_closed (requestId content : string) (s : Socket) (line : string) :
  isOpen s = false ->
  snd (forward_line JSON_parse ToString requestId (content, s) line) = s.
Proof.
  intros C. unfold forward_line.
  destruct (String.eqb (trim line) EmptyString); [reflexivity|].
  destruct (JSON_parse line) as [parsed|]; [|reflexivity].
  destruct (InferenceController.delta_content parsed); [|reflexivity].
  cbn [snd]. now apply sendMessage_closed.
Qed.

Lemma forward_lines_closed (requestId : string) (lines : list string)
      (content : string) (s : Socket) :
  isOpen s = false ->
  snd (fold_left (forward_line JSON_parse ToString requestId) lines (content, s)) = s.
Proof.
  intros C. revert content. induction lines as [|line lines IH]; intros content;
    [reflexivity|].
  cbn [fold_left].
  pose proof (@forward_line_closed requestId content s line C) as E.
  destruct (forward_line JSON_parse ToString requestId (content, s) line)
    as [content' s'].
  cbn [snd] in E. subst s'. apply IH.
Qed.

Lemma forward_closed (requestId : string) (chunks : list string)
      (content : string) (s : Socket) :
  isOpen s = false ->
  snd (forward JSON_parse ToString requestId chunks (content, s)) = s.
Proof.
  intros C. unfold forward. revert content.
  induction chunks as [|chunk chunks IH]; intros content; [reflexivity|].
  cbn [fold_left]. unfold forward_chunk at 2.
  pose proof (@forward_lines_closed requestId (split "010" chunk) content s C) as E.
  destruct (fold_left _ (split "010" chunk) (content, s)) as [content' s'].
  cbn [snd] in E. subst s'. apply IH.
Qed.

Lemma on_failure_closed (connectionId e : string) (r : Run) :
  isOpen (ws r) = false -> ws (on_failure connectionId e r) = ws r.
Proof.
  intros C. unfold on_failure. cbn [ws with_ws with_ctl]. unfold sendError.
  now apply sendMessage_closed.
Qed.

Lemma streamed_closed (connectionId : string) (m : Inbound)
      (upstream : Outcome InferenceController.Stream) (r : Run) :
  isOpen (ws r) = false ->
  let r' := handleInferenceRequest_streamed JSON_parse ToString connectionId m
                                            upstream r in
  ws r' = ws r /\ upstreamCalls r' = upstreamCalls r.
Proof.
  intros C. cbn zeta. unfold handleInferenceRequest_streamed.
  destruct upstream as [stream|e];
    [|split; [now apply on_failure_closed | reflexivity]].
  pose proof (@forward_closed (msg_id m) (InferenceController.chunks stream)
                              EmptyString (ws r) C) as E.
  destruct (forward _ _ _ _ _) as [content s']. cbn [snd] in E. subst s'.
  destruct (InferenceController.failure stream); [|split; reflexivity].
  split; [|reflexivity]. now rewrite on_failure_closed.
Qed.

Lemma handleInferenceRequest_closed (connectionId : string) (m : Inbound)
      (modelExists : Outcome bool) (upstream : Outcome InferenceController.Stream)
      (r : Run) :
  isOpen (ws r) = false ->
  let r' := handleInferenceRequest JSON_parse ToString connectionId m
                                   modelExists upstream r in
  ws r' = ws r /\
  upstreamCalls r'
    = match JsMap.get (connections (ctl r)) connectionId, data m, modelExists with
      | Some _, Some d, Ok true => (upstreamCalls r ++ [d])%list
      | _, _, _ => upstreamCalls r
      end.
Proof.
  intros C. cbn zeta. unfold handleInferenceRequest, handleInferenceRequest_begin.
  destruct (JsMap.get (connections (ctl r)) connectionId); [|split; reflexivity].
  destruct (data m) as [d|] eqn:D;
    [|split; [now apply on_failure_closed | reflexivity]].
  unfold handleInferenceRequest_validated. rewrite D.
  destruct modelExists as [[|]|e].
  - match goal with
    | |- ws (handleInferenceRequest_streamed _ _ _ _ _ ?r1) = _ /\ _ =>
        destruct (@streamed_closed connectionId m upstream r1 C) as [W U]
    end.
    rewrite W, U. split; reflexivity.
  - cbn [ws with_ws upstreamCalls]. unfold sendError.
    split; [now apply sendMessage_closed | reflexivity].
  - split; [now apply on_failure_closed | reflexivity].
Qed.

(** X23.  A frame that arrives when the socket is no longer open: nothing
    is sent and the socket stays closed, whatever the frame holds; an
    inference request for a model the registry knows is handed to the
    upstream service all the same. *)
Theorem closed_socket_gets_nothing
        (connectionId : string) (frame : Frame) (now : Z)
        (modelExists : Outcome bool) (upstream : Outcome InferenceController.Stream)
        (r : Run) :
  isOpen (ws r) = false ->
  let r' := handleMessage JSON_parse ToString connectionId frame now
                          modelExists upstream r in
  sent (ws r') = sent (ws r) /\
  isOpen (ws r') = false /\
  forall (x : WebSocketConnection) (m : Inbound) (d : RequestData),
    JsMap.get (connections (ctl r)) connectionId = Some x ->
    frame = Accepted m -> type m = T_inference_request -> data m = Some d ->
    modelExists = Ok true ->
    upstreamCalls r' = (upstreamCalls r ++ [d])%list.
Proof.
  intros C. cbn zeta. unfold handleMessage.
  destruct (JsMap.get (connections (ctl r)) connectionId) as [x0|] eqn:G;
    [|repeat split; [exact C | intros; discriminate]].
  set (r2 := with_ctl (with_stats count_message)
                      (with_ctl (modify (set_lastActivity now) connectionId) r)).
  assert (ws r2 = ws r) as W2 by reflexivity.
  assert (upstreamCalls r2 = upstreamCalls r) as U2 by reflexivity.
  assert (JsMap.get (connections (ctl r2)) connectionId = Some (set_lastActivity now x0))
    as G2 by (cbn [r2 ctl with_ctl with_stats connections]; now apply get_modify_same).
  assert (isOpen (ws r2) = false) as C2 by now rewrite W2.
  clearbody r2.
  destruct frame as [|e|m].
  - cbn [ws with_ws with_ctl]. unfold sendError. rewrite sendMessage_closed by exact C2.
    rewrite W2. repeat split; [exact C | intros; discriminate].
  - cbn [ws with_ws]. unfold sendError. rewrite sendMessage_closed by exact C2.
    rewrite W2. repeat split; [exact C | intros; discriminate].
  - unfold processMessage. rewrite G2.
    destruct (type m) eqn:T.
    + destruct (@handleInferenceRequest_closed connectionId m modelExists upstream r2 C2)
        as [W U].
      rewrite W, W2. repeat split; [exact C|].
      intros x m' d _ [= <-] _ D ->. rewrite U, G2, D, U2. reflexivity.
    + cbn [ws with_ws]. unfold sendError. rewrite sendMessage_closed by exact C2.
      rewrite W2. repeat split; [exact C | intros x m' d _ [= <-]; congruence].
    + cbn [ws with_ws]. unfold sendError. rewrite sendMessage_closed by exact C2.
      rewrite W2. repeat split; [exact C | intros x m' d _ [= <-]; congruence].
    + unfold handleHeartbeat. cbn [ws with_ws]. rewrite sendMessage_closed by exact C2.
      rewrite W2. repeat split; [exact C | intros x m' d _ [= <-]; congruence].
    + unfold handleClose. cbn [ws with_ws ws_close sent isOpen].
      rewrite W2. repeat split. intros x m' d _ [= <-]; congruence.
Qed.

(** *** The grace period *)

(** X24.  A session that disconnects at [now], with no deletion pending
    for its identifier, keeps its record, marked inactive, as long as the
    timers run before [now + 30000], and has none once they run at or after
    that time. *)
Theorem record_outlives_disconnection
        (connectionId : string) (now later : Z) (c : Controller)
        (x : WebSocketConnection) :
  NoDup (JsMap.keys (connections c)) ->
  JsMap.get (connections c) connectionId = Some x ->
  (forall t, In t (timers c) -> snd t <> connectionId) ->
  JsMap.get (connections (run_timers later (handleDisconnection connectionId now c)))
            connectionId
    = if now + 30000 <=? later then None else Some (set_isActive false x).
Proof.
  intros N G Free. unfold handleDisconnection. rewrite G. cbn zeta.
  unfold run_timers. cbn [connections timers stats].
  rewrite get_delete_all
    by (rewrite keys_set_present; [exact N | congruence]).
  rewrite filter_app, existsb_app. cbn [filter fst snd].
  assert (existsb (fun t : Z * string => String.eqb (snd t) connectionId)
                  (filter (fun t : Z * string => fst t <=? later) (timers c)) = false) as O.
  { destruct (existsb _ _) eqn:E; [|reflexivity].
    apply existsb_exists in E. destruct E as [t [I E]].
    apply filter_In in I. apply String.eqb_eq in E.
    exfalso. now apply (Free t (proj1 I)). }
  rewrite O. cbn [orb].
  destruct (now + 30000 <=? later); cbn [existsb snd].
  - now rewrite String.eqb_refl.
  - apply get_set_same.
Qed.

(** *** The active count and the peak *)

Definition bounded (c : Controller) : Prop :=
  activeConnections (stats c) <= peakConnections (stats c).

Lemma steady_processMessage (connectionId : string) (m : Inbound) (now : Z)
      (modelExists : Outcome bool) (upstream : Outcome InferenceController.Stream)
      (r : Run) :
  steady (ctl r)
         (ctl (processMessage JSON_parse ToString connectionId m now
                              modelExists upstream r)).
Proof.
  unfold processMessage.
  destruct (JsMap.get (connections (ctl r)) connectionId); [|apply steady_refl].
  destruct (type m); try apply steady_refl. apply steady_handleInferenceRequest.
Qed.

Lemma bounded_handleMessage (connectionId : string) (frame : Frame) (now : Z)
      (modelExists : Outcome bool) (upstream : Outcome InferenceController.Stream)
      (r : Run) :
  bounded (ctl r) ->
  bounded (ctl (handleMessage JSON_parse ToString connectionId frame now
                              modelExists upstream r)).
Proof.
  unfold bounded, handleMessage. intros B.
  destruct (JsMap.get (connections (ctl r)) connectionId); [|exact B].
  set (r2 := with_ctl (with_stats count_message)
                      (with_ctl (modify (set_lastActivity now) connectionId) r)).
  assert (activeConnections (stats (ctl r2)) <= peakConnections (stats (ctl r2))) as B2.
  { cbn [r2 ctl with_ctl with_stats stats count_message activeConnections peakConnections].
    now rewrite stats_modify. }
  clearbody r2.
  destruct frame as [|e|m]; [exact B2 | exact B2 |].
  destruct (@steady_processMessage connectionId m now modelExists upstream r2)
    as (_ & _ & _ & A & _ & P & _).
  now rewrite A, P.
Qed.

Lemma sweep_fold_peak (now : Z) (clients : nat)
      (entries : list (string * WebSocketConnection)) (c : Controller) (pings : nat) :
  let c' := fst (fold_left (sweep_entry now clients) entries (c, pings)) in
  peakConnections (stats c') = peakConnections (stats c) /\
  activeConnections (stats c') <= activeConnections (stats c).
Proof.
  revert c pings. induction entries as [|[k x] entries IH]; intros c pings.
  - cbn. split; [reflexivity | lia].
  - cbn zeta. cbn [fold_left]. rewrite sweep_entry_eq.
    destruct (timed_out now (k, x)).
    + specialize (IH (with_stats drop_active (modify (set_isActive false) k c)) pings).
      cbn zeta in IH. destruct IH as (P & A).
      rewrite P. cbn [with_stats stats drop_active peakConnections activeConnections] in *.
      rewrite stats_modify in *. split; [reflexivity | lia].
    + destruct (isActive x); apply IH.
Qed.

(** X25.  The active count never exceeds the recorded peak: every
    operation of the controller keeps it so. *)
Theorem active_never_exceeds_peak (c : Controller) :
  bounded c ->
  (forall connectionId ip userAgent admitted now s,
     bounded (fst (handleConnection connectionId ip userAgent admitted now c s))) /\
  (forall connectionId now, bounded (handleDisconnection connectionId now c)) /\
  (forall now clients, bounded (fst (startHeartbeat_tick now clients c))) /\
  (forall now, bounded (run_timers now c)) /\
  (forall connectionId now, bounded (handlePong connectionId now c)) /\
  (forall connectionId, bounded (snd (closeConnection connectionId c))) /\
  bounded (closeAllConnections c) /\
  (forall connectionId frame now modelExists upstream s calls n,
     bounded (ctl (handleMessage JSON_parse ToString connectionId frame now
                                 modelExists upstream (mkRun c s calls n)))).
Proof.
  unfold bounded. intros B. repeat split.
  - intros connectionId ip userAgent admitted now s. unfold handleConnection.
    destruct admitted; cbn [negb fst stats activeConnections peakConnections]; lia.
  - intros connectionId now. unfold handleDisconnection.
    destruct (JsMap.get (connections c) connectionId); [|exact B].
    cbn [stats activeConnections peakConnections]. lia.
  - intros now clients. unfold startHeartbeat_tick, JsMap.entries.
    destruct (@sweep_fold_peak now clients (connections c) c O) as (P & A).
    cbn zeta in P, A. lia.
  - intros now. exact B.
  - intros connectionId now. unfold handlePong. now rewrite stats_modify.
  - intros connectionId. unfold closeConnection.
    destruct (JsMap.get (connections c) connectionId); [|exact B].
    cbn [snd stats drop_active activeConnections peakConnections]. lia.
  - unfold closeAllConnections. destruct c as [m s t]. cbn [connections] in *.
    rewrite closeAll_fold. cbn [stats activeConnections peakConnections] in *. lia.
  - intros. apply bounded_handleMessage. exact B.
Qed.

End SessionInvariants.

Section SessionInvariantExamples.
Import JsString WebSocketController.

Lemma handleMessage_bookkeeping_witness :
  let r' := handleMessage (fun _ => None) (fun _ => EmptyString) "conn-1"
                          (Accepted Scenarios.second_request) 5000 (Ok false)
                          (Ok (InferenceController.mkStream [] None)) Scenarios.busy in
  totalMessages (stats (ctl r')) = 2 /\
  JsMap.get (connections (ctl r')) "conn-1"
    = Some (set_currentRequestId (Some "req-1")
                                 (set_lastActivity 5000 Scenarios.busy_connection)).
Proof.
  destruct (@handleMessage_bookkeeping (fun _ => None) (fun _ => EmptyString) "conn-1"
              (Accepted Scenarios.second_request) 5000 (Ok false)
              (Ok (InferenceController.mkStream [] None)) Scenarios.busy
              Scenarios.busy_connection eq_refl) as (M & G & _).
  split; [exact M | exact G].
Defined.

Lemma closed_socket_gets_nothing_witness :
  let closed := with_ws (fun s => ws_close s 1000 "bye") Scenarios.busy in
  let r' := handleMessage (fun _ => None) (fun _ => EmptyString) "conn-1"
                          (Accepted Scenarios.second_request) 5000 (Ok true)
                          (Ok (InferenceController.mkStream [] None)) closed in
  sent (ws r') = [] /\ upstreamCalls r' = [Scenarios.second_data].
Proof.
  destruct (@closed_socket_gets_nothing (fun _ => None) (fun _ => EmptyString) "conn-1"
              (Accepted Scenarios.second_request) 5000 (Ok true)
              (Ok (InferenceController.mkStream [] None))
              (with_ws (fun s => ws_close s 1000 "bye") Scenarios.busy) eq_refl)
    as (S & _ & U).
  split; [exact S|].
  exact (U Scenarios.busy_connection Scenarios.second_request Scenarios.second_data
           eq_refl eq_refl eq_refl eq_refl eq_refl).
Defined.

Lemma record_outlives_disconnection_witness :
  JsMap.get (connections (run_timers 99999
               (handleDisconnection "conn-1" 70000 Scenarios.silent))) "conn-1"
    = Some (set_isActive false (mkConnection "conn-1" 0 0 true None "10.0.0.1" "agent")) /\
  JsMap.get (connections (run_timers 100000
               (handleDisconnection "conn-1" 70000 Scenarios.silent))) "conn-1"
    = None.
Proof.
  assert (NoDup (JsMap.keys (connections Scenarios.silent))) as N
    by (repeat constructor; intros []).
  assert (forall t, In t (timers Scenarios.silent) -> snd t <> "conn-1") as F
    by (intros t []).
  split.
  - exact (@record_outlives_disconnection "conn-1" 70000 99999 Scenarios.silent
             (mkConnection "conn-1" 0 0 true None "10.0.0.1" "agent") N eq_refl F).
  - exact (@record_outlives_disconnection "conn-1" 70000 100000 Scenarios.silent
             (mkConnection "conn-1" 0 0 true None "10.0.0.1" "agent") N eq_refl F).
Defined.

Lemma active_never_exceeds_peak_witness :
  bounded (fst (startHeartbeat_tick 60001 1 Scenarios.silent)) /\
  bounded (closeAllConnections Scenarios.silent).
Proof.
  destruct (@active_never_exceeds_peak (fun _ => None) (fun _ => EmptyString)
              Scenarios.silent ltac:(unfold bounded; cbn; lia))
    as (_ & _ & T & _ & _ & _ & A & _).
  split; [exact (T 60001 1%nat) | exact A].
Defined.

End SessionInvariantExamples.

(* ------------------------------------------------------------------------- *)
(** ** The model routes *)

Section RoutesFacts.
Import JsString ModelRegistry ModelsRoutes.

Lemma js_slice_length {A} (l : list A) (offset limit : Z) :
  0 <= offset -> 1 <= limit ->
  Z.of_nat (List.length (js_slice l offset (offset + limit)))
    = Z.max 0 (Z.min limit (Z.of_nat (List.length l) - offset)).
Proof.
  intros O L. unfold js_slice, clamp.
  destruct (Z.ltb_spec offset 0); [lia|].
  destruct (Z.ltb_spec (offset + limit) 0); [lia|].
  rewrite length_firstn, length_skipn. lia.
Qed.

(** X26.  A page of [GET /] for an offset and a limit the validation lets
    through: it holds [limit] models, or what is left of the filtered list
    from [offset] on when that is less; and [hasMore] is true exactly when
    the page at [offset + limit] is not empty. *)
Theorem listPage_pagination (provider search : option string) (limit offset : Z)
        (all : list ModelInfo.t) :
  0 <= offset -> 1 <= limit ->
  let (page, p) := listPage provider search limit offset all in
  Z.of_nat (List.length page) = Z.max 0 (Z.min limit (total p - offset)) /\
  (hasMore p = true <->
   fst (listPage provider search limit (offset + limit) all) <> []).
Proof.
  intros O L. unfold listPage. cbn [total hasMore fst].
  set (models := filter_search search (filter_provider provider all)).
  split; [now apply js_slice_length|].
  pose proof (@js_slice_length _ models (offset + limit) limit ltac:(lia) L) as N.
  rewrite Z.ltb_lt. split.
  - intros H E. rewrite E in N. cbn [List.length] in N. lia.
  - intros H. destruct (js_slice models (offset + limit) (offset + limit + limit));
      [congruence|]. cbn [List.length] in N. lia.
Qed.

Lemma listPage_pagination_witness :
  let all := repeat (ModelInfo.make "openai/gpt-4" "GPT-4" None 8192
                                    (mkPricing "0" "0") [] false None) 5 in
  let (page, p) := listPage None None 2 4 all in
  Z.of_nat (List.length page) = Z.max 0 (Z.min 2 (total p - 4)) /\
  (hasMore p = true <-> fst (listPage None None 2 (4 + 2) all) <> []).
Proof.
  exact (@listPage_pagination None None 2 4
           (repeat (ModelInfo.make "openai/gpt-4" "GPT-4" None 8192
                                   (mkPricing "0" "0") [] false None) 5)
           ltac:(lia) ltac:(lia)).
Defined.

(** X27.  The routes are tried in the order of their registration, and
    [/:id] is registered before [/top], [/search] and [/providers]: every
    path of one segment goes to the model-details handler, and no path at
    all reaches the handlers of those three. *)
Theorem literal_routes_are_shadowed (path : list string) :
  (forall segment, path = [segment] -> segment <> EmptyString ->
     dispatch path = Some Details) /\
  dispatch path <> Some Top /\
  dispatch path <> Some Search /\
  dispatch path <> Some Providers.
Proof.
  split.
  - intros segment -> N. unfold dispatch, routes.
    cbn [first_match path_matches segment_matches].
    destruct segment as [|c s]; [congruence | reflexivity].
  - unfold dispatch, routes.
    destruct path as [|a [|b [|c path]]];
      cbn [first_match path_matches segment_matches andb].
    + repeat split; discriminate.
    + destruct a as [|c s]; [cbn; repeat split; discriminate|].
      cbn [truthy andb]. repeat split; discriminate.
    + rewrite !andb_true_r, !andb_false_r.
      destruct (truthy a); cbn [andb];
        repeat match goal with
               | |- context [if ?b then _ else _] => destruct b
               end; repeat split; discriminate.
    + rewrite !andb_false_r. repeat split; discriminate.
Qed.

Lemma literal_routes_are_shadowed_witness :
  dispatch ["top"] = Some Details /\ dispatch ["providers"] = Some Details.
Proof.
  split.
  - exact (proj1 (literal_routes_are_shadowed ["top"]) "top" eq_refl ltac:(discriminate)).
  - exact (proj1 (literal_routes_are_shadowed ["providers"]) "providers" eq_refl
                 ltac:(discriminate)).
Defined.

(** *** The list of providers *)

Lemma add_provider_in (providers : list string) (p q : string) :
  In q (add_provider providers p) <-> q = p \/ In q providers.
Proof.
  induction providers as [|x providers IH]; cbn [add_provider In].
  - split; [intros [<-|[]]; now left | intros [->|[]]; now left].
  - destruct (String.eqb_spec p x) as [->|N]; cbn [In].
    + split; [tauto | intros [->|H]; tauto].
    + rewrite IH. split; [intros [H|[H|H]]; auto | intros [H|[H|H]]; auto].
Qed.

Lemma add_provider_NoDup (providers : list string) (p : string) :
  NoDup providers -> NoDup (add_provider providers p).
Proof.
  induction providers as [|x providers IH]; cbn [add_provider]; intros N.
  - repeat constructor. intros [].
  - inversion N as [|? ? X N']; subst.
    destruct (String.eqb_spec p x) as [->|D]; [exact N|].
    constructor; [|now apply IH].
    rewrite add_provider_in. intros [E|I]; [congruence | now apply X].
Qed.

Definition collect_step (providers : list string) (model : ModelInfo.t) : list string :=
  let provider := first_segment (ModelInfo.id model) in
  if truthy provider then add_provider providers provider else providers.

Lemma collect_fold (models : list ModelInfo.t) (acc : list string) :
  let result := fold_left collect_step models acc in
  (NoDup acc -> NoDup result) /\
  forall p, In p result <->
            In p acc \/
            (truthy p = true /\
             exists model, In model models /\ first_segment (ModelInfo.id model) = p).
Proof.
  revert acc. induction models as [|x models IH]; intros acc; cbn zeta.
  - cbn [fold_left]. split; [auto|]. intros p. split; [auto|].
    intros [H|(_ & m & [] & _)]. exact H.
  - cbn [fold_left]. destruct (IH (collect_step acc x)) as [N M]. split.
    + intros Na. apply N. unfold collect_step.
      destruct (truthy (first_segment (ModelInfo.id x))); [|exact Na].
      now apply add_provider_NoDup.
    + intros p. rewrite M. unfold collect_step.
      destruct (truthy (first_segment (ModelInfo.id x))) eqn:T.
      * rewrite add_provider_in. split.
        -- intros [[->|H]|(Tp & m & I & E)]; auto.
           ++ right. split; [exact T|]. exists x. split; [now left | reflexivity].
           ++ right. split; [exact Tp|]. exists m. split; [now right | exact E].
        -- intros [H|(Tp & m & [<-|I] & E)]; auto.
           right. split; [exact Tp|]. now exists m.
      * split.
        -- intros [H|(Tp & m & I & E)]; auto.
           right. split; [exact Tp|]. exists m. split; [now right | exact E].
        -- intros [H|(Tp & m & [<-|I] & E)]; auto.
           ++ congruence.
           ++ right. split; [exact Tp|]. now exists m.
Qed.

Lemma insert_sorted_perm (p : string) (l : list string) :
  Permutation (insert_sorted p l) (p :: l).
Proof.
  induction l as [|q l IH]; cbn [insert_sorted]; [apply Permutation_refl|].
  destruct (String.leb p q); [apply Permutation_refl|].
  apply perm_trans with (q :: p :: l); [now apply perm_skip | apply perm_swap].
Qed.

Lemma sort_strings_perm (l : list string) : Permutation (sort_strings l) l.
Proof.
  unfold sort_strings. induction l as [|x l IH]; cbn [fold_right]; [constructor|].
  apply perm_trans with (x :: fold_right insert_sorted [] l);
    [apply insert_sorted_perm | now apply perm_skip].
Qed.

Definition in_order (a b : string) : Prop := String.leb a b = true.

Lemma insert_sorted_sorted (p : string) (l : list string) :
  Sorted in_order l -> Sorted in_order (insert_sorted p l).
Proof.
  induction l as [|q l IH]; intros S; cbn [insert_sorted].
  - repeat constructor.
  - destruct (String.leb p q) eqn:E.
    + constructor; [exact S | constructor; exact E].
    + inversion S as [|? ? Sl Hq]; subst. constructor; [now apply IH|].
      assert (in_order q p) as Q
        by (unfold in_order; destruct (String.leb_total p q); congruence).
      destruct l as [|r l]; cbn [insert_sorted]; [now constructor|].
      destruct (String.leb p r); constructor; [exact Q|].
      now inversion Hq.
Qed.

Lemma sort_strings_sorted (l : list string) : Sorted in_order (sort_strings l).
Proof.
  unfold sort_strings. induction l as [|x l IH]; cbn [fold_right];
    [constructor | now apply insert_sorted_sorted].
Qed.

(** X28.  The list [GET /providers] answers: it holds exactly the
    non-empty first segments of the model identifiers, each once, in
    ascending order of code units. *)
Theorem providerList_spec (models : list ModelInfo.t) :
  (forall p, In p (providerList models) <->
             p <> EmptyString /\
             exists model, In model models /\ first_segment (ModelInfo.id model) = p) /\
  NoDup (providerList models) /\
  Sorted in_order (providerList models).
Proof.
  unfold providerList.
  destruct (collect_fold models []) as [N M]. cbn zeta in N, M.
  change (fold_left collect_step models []) with (collect models) in N, M.
  split; [|split].
  - intros p. split.
    + intros I. apply (Permutation_in _ (sort_strings_perm (collect models))) in I.
      apply M in I. destruct I as [[]|(T & E)]. split; [|exact E].
      intros ->. discriminate.
    + intros (Np & E).
      apply (Permutation_in _ (Permutation_sym (sort_strings_perm (collect models)))).
      apply M. right. split; [|exact E]. destruct p; [congruence | reflexivity].
  - apply (Permutation_NoDup (Permutation_sym (sort_strings_perm (collect models)))).
    apply N. constructor.
  - apply sort_strings_sorted.
Qed.

End RoutesFacts.
